(** * Training manager and multi-optimizer of [src/manager_multi_scale.py]

    A shallow embedding of the classes [Manager] and [Optimizers].  Python
    objects that are mutated in place (the manager, the model, the registered
    optimizers, the file system, the console) live in an explicit state that
    every method threads through; a raised exception is an outcome of its own
    and leaves the state as it was at the point of the raise, as in Python.

    Floating-point numbers (learning rates, error percentages, accuracies)
    are exact rationals [Q]; integers are [Z] or [nat]. *)

From Stdlib Require Import Bool String Arith List ZArith QArith Qpower Qround Lia.
From Stdlib Require Import Sorted Permutation.
Import ListNotations.

Set Implicit Arguments.

Close Scope Q_scope.

(** ** Exceptions and the state-and-exception monad *)

Inductive exn : Type :=
  | AttributeError      (* a method looked up on [None] *)
  | UnboundLocalError   (* a local read before any assignment *)
  | AssertionError
  | IndexError
  | KeyError
  | ZeroDivisionError
  | RuntimeError
  | IOError
  | UnpicklingError
  | External (code : nat). (* raised inside an external collaborator *)

Inductive res (A : Type) : Type :=
  | Ok (a : A)
  | Raise (e : exn).
Arguments Ok {A} a.
Arguments Raise {A} e.

Definition M (S A : Type) : Type := S -> res A * S.

Definition ret {S A} (a : A) : M S A := fun s => (Ok a, s).

Definition raise {S A} (e : exn) : M S A := fun s => (Raise e, s).

Definition bind {S A B} (m : M S A) (k : A -> M S B) : M S B :=
  fun s => match m s with
           | (Ok a, s') => k a s'
           | (Raise e, s') => (Raise e, s')
           end.

Definition gets {S A} (f : S -> A) : M S A := fun s => (Ok (f s), s).

Definition modify {S} (f : S -> S) : M S unit := fun s => (Ok tt, f s).

Definition of_res {S A} (r : res A) : M S A := fun s => (r, s).

Declare Scope py_scope.
Delimit Scope py_scope with py.
Notation "x <- m ;; k" := (bind m (fun x => k))
  (at level 100, m at next level, right associativity) : py_scope.
Notation "m ;; k" := (bind m (fun _ => k))
  (at level 100, right associativity) : py_scope.
Open Scope py_scope.

(** [for x in xs: body x] *)
Fixpoint for_ {S A} (xs : list A) (body : A -> M S unit) : M S unit :=
  match xs with
  | [] => ret tt
  | x :: rest => body x ;; for_ rest body
  end.

(** A [for] loop whose body reads and rebinds locals of type [L]. *)
Fixpoint for_locals {S A L} (xs : list A) (body : L -> A -> M S L) (l : L)
  : M S L :=
  match xs with
  | [] => ret l
  | x :: rest => l' <- body l x ;; for_locals rest body l'
  end.

(** Runs a computation on a component of a larger state. *)
Definition zoom {S T A} (get : T -> S) (set : S -> T -> T) (m : M S A)
  : M T A :=
  fun t => let (r, s') := m (get t) in (r, set s' t).

(** The computation [m] leaves the observation [f] of the state as it was,
    whether it returns or raises. *)
Definition keeps {S A B} (f : S -> B) (m : M S A) : Prop :=
  forall s, f (snd (m s)) = f s.

(** Python's [zip] of three lists stops at the shortest. *)
Fixpoint zip3 {A B C} (xs : list A) (ys : list B) (zs : list C)
  : list (A * B * C) :=
  match xs, ys, zs with
  | x :: xs', y :: ys', z :: zs' => (x, y, z) :: zip3 xs' ys' zs'
  | _, _, _ => []
  end.

(** [x < y] on rationals, as a boolean. *)
Definition Qltb (x y : Q) : bool := negb (Qle_bool y x).

(** ** Command-line arguments

    The fields of the [argparse] namespace that this file reads. *)

Module Args.

Record t : Type := {
  cuda : bool;
  train_path : string;
  test_path : string;
  batch_size : nat;
  lr_decay_factor : Q
}.

End Args.

(** ** The torch runtime, as far as this file uses it *)

Inductive Device : Type := CPU | GPU.

(** A two-dimensional tensor of scores: one row per sample, [ncols] columns
    ([size(1)]).  [scores.data.view(-1, scores.size(1))] leaves such a
    tensor as it is. *)
Record Tensor : Type := {
  rows : list (list Q);
  ncols : nat
}.

Definition nrows (t : Tensor) : nat := length (rows t).

(** A tensor handed to the model: its content, where it lives and, for
    [Variable(batch, volatile=True)], the volatile flag. *)
Record Var (X : Type) : Type := {
  data : X;
  on : Device;
  volatile : bool
}.

(** What [nn.Module] keeps besides its parameters: the mode set by
    [train()] and [eval()] and the device chosen by [cpu()] and [cuda()]. *)
Record Model : Type := {
  training : bool;
  device : Device
}.

(** The mapping returned by [state_dict()]: the parameter tensors and the
    memory they are in. *)
Record StateDict (P : Type) : Type := {
  tensors : P;
  location : Device
}.

Inductive Criterion : Type := CrossEntropyLoss.

(** A torch optimizer, seen through what this file needs: its current
    learning rate and a count of the [step()] calls it received. *)
Record Optimizer : Type := {
  lr : Q;
  steps_taken : nat
}.

(** Optimizer objects are held by reference. *)
Definition ref := nat.
Definition Heap := ref -> Optimizer.

Definition heap_set (h : Heap) (r : ref) (o : Optimizer) : Heap :=
  fun r' => if Nat.eqb r' r then o else h r'.

(** One invocation of [utils.step_lr]. *)
Record LrCall : Type := {
  call_epoch : Z;
  call_init_lr : Q;
  call_decay_every : Z;
  call_factor : Q;
  call_optimizer : ref
}.

(** The objects shared by reference between the manager's model and the
    registered optimizers: the parameter tensors [P] of the model, the
    optimizer objects, and the record of the schedule calls made so far. *)
Record Torch (P : Type) : Type := {
  params : P;
  heap : Heap;
  calls : list LrCall
}.

Definition set_params {P} (f : P -> P) (t : Torch P) : Torch P :=
  {| params := f (params t); heap := heap t; calls := calls t |}.

Definition set_heap {P} (f : Heap -> Heap) (t : Torch P) : Torch P :=
  {| params := params t; heap := f (heap t); calls := calls t |}.

Definition log_call {P} (c : LrCall) (t : Torch P) : Torch P :=
  {| params := params t; heap := heap t; calls := calls t ++ [c] |}.

(** A data loader yields a finite sequence of (batch, label) pairs, the
    same on every pass. *)
Definition Loader (X : Type) : Type := list (X * list nat).

(** The external collaborators: the network, the loss, the parameter update
    of a torch optimizer, and the loaders of [dataset.py].  [P] is the type
    of the parameter tensors (gradients and buffers included), [X] the type
    of an input batch.  Whatever changes parameters is a computation on
    [P]. *)
Class Collaborators (P X : Type) : Type := {
  forward : Model -> Var X -> M P Tensor;
  zero_grad : M P unit;
  loss_backward : Criterion -> Tensor -> Var (list nat) -> M P unit;
  optimizer_step : ref -> Optimizer -> M P unit;
  load_state_dict : StateDict P -> M P unit;
  train_loader_cubs : string -> nat -> bool -> bool -> Loader X;
  test_loader_cubs : string -> nat -> bool -> bool -> Loader X
}.

(** ** [utils.step_lr] *)

Module Utils.

(** Modelled from the spec: the learning-rate schedule of [utils.step_lr]
    ([utils.py] is not among the sources).  The rate is the base rate
    multiplied by the decay factor once for every complete multiple of the
    decay interval that has elapsed; an interval that is not positive
    means that the rate never decays. *)
Definition rate (epoch : Z) (base : Q) (decay : Z) (factor : Q) : Q :=
  if (0 <? decay)%Z then (base * factor ^ (epoch / decay))%Q else base.

(** Modelled from the spec: [utils.step_lr] ([utils.py] is not among the
    sources) computes the scheduled rate, applies it to the optimizer it
    is given, and hands that optimizer back. *)
Definition step_lr {P} (epoch : Z) (base : Q) (decay : Z) (factor : Q)
    (optimizer : ref) : M (Torch P) ref :=
  modify (log_call
    {| call_epoch := epoch; call_init_lr := base;
       call_decay_every := decay; call_factor := factor;
       call_optimizer := optimizer |}) ;;
  modify (set_heap (fun h =>
    heap_set h optimizer
      {| lr := rate epoch base decay factor;
         steps_taken := steps_taken (h optimizer) |})) ;;
  ret optimizer.

End Utils.

(** ** [class Optimizers] *)

Module Optimizers.

(** The object: three parallel lists and the args. *)
Record t : Type := {
  optimizers : list ref;
  lrs : list Q;
  decay_every : list Z;
  args : Args.t
}.

(** What a method sees: its object and the torch runtime. *)
Record state (P : Type) : Type := {
  self : t;
  torch : Torch P
}.

Definition set_self {P} (f : t -> t) (s : state P) : state P :=
  {| self := f (self s); torch := torch s |}.

Definition set_torch {P} (tc : Torch P) (s : state P) : state P :=
  {| self := self s; torch := tc |}.

(** [__init__] *)
Definition init (a : Args.t) : t :=
  {| optimizers := []; lrs := []; decay_every := []; args := a |}.

(** [add] *)
Definition add {P} (optimizer : ref) (learning_rate : Q) (decay : Z)
  : M (state P) unit :=
  modify (set_self (fun o =>
    {| optimizers := optimizers o ++ [optimizer];
       lrs := lrs o ++ [learning_rate];
       decay_every := decay_every o ++ [decay];
       args := args o |})).

Section Methods.
Context {P X : Type} {ext : Collaborators P X}.

(** [optimizer.step()] of one torch optimizer: the collaborator updates
    the parameters, and the call is counted on the optimizer object. *)
Definition torch_optimizer_step (r : ref) : M (Torch P) unit :=
  o <- gets (fun tc : Torch P => heap tc r) ;;
  zoom (@params P) (fun p tc => set_params (fun _ => p) tc)
       (optimizer_step r o) ;;
  modify (set_heap (fun h =>
    heap_set h r {| lr := lr (h r); steps_taken := S (steps_taken (h r)) |})).

(** [step] *)
Definition step : M (state P) unit :=
  os <- gets (fun s : state P => optimizers (self s)) ;;
  for_ os (fun optimizer =>
    zoom (@torch P) set_torch (torch_optimizer_step optimizer)).

(** [update_lr]: the name [optimizer] is rebound to what [utils.step_lr]
    returns and is not used again. *)
Definition update_lr (epoch_idx : Z) : M (state P) unit :=
  o <- gets (@self P) ;;
  for_ (zip3 (optimizers o) (lrs o) (decay_every o))
    (fun '(optimizer, init_lr, decay) =>
       factor <- gets (fun s : state P => Args.lr_decay_factor (args (self s))) ;;
       optimizer <- zoom (@torch P) set_torch
                      (Utils.step_lr epoch_idx init_lr decay factor optimizer) ;;
       ret tt).

End Methods.

End Optimizers.

(** ** [tnt.meter.ClassErrorMeter]

    The meter of the torchnet library, stated on two-dimensional score
    tensors.  Where [torch.topk] leaves the order of equal scores open, the
    lower column index comes first. *)

Module ClassErrorMeter.

(** The object: the sorted k values, the dictionary [sum] (k to number of
    samples whose label was not among the k best), and the sample count. *)
Record t : Type := {
  topk : list nat;
  sum : list (nat * Z);
  n : Z
}.

Fixpoint insert_sorted (k : nat) (ks : list nat) : list nat :=
  match ks with
  | [] => [k]
  | k' :: rest => if k <=? k' then k :: ks else k' :: insert_sorted k rest
  end.

(** [np.sort] *)
Definition np_sort (ks : list nat) : list nat :=
  fold_right insert_sorted [] ks.

(** [d[k] = v] *)
Fixpoint dict_set (k : nat) (v : Z) (d : list (nat * Z)) : list (nat * Z) :=
  match d with
  | [] => [(k, v)]
  | (k', v') :: rest =>
      if k =? k' then (k, v) :: rest else (k', v') :: dict_set k v rest
  end.

(** [d[k]], when present *)
Fixpoint dict_get (k : nat) (d : list (nat * Z)) : option Z :=
  match d with
  | [] => None
  | (k', v') :: rest => if k =? k' then Some v' else dict_get k rest
  end.

(** [reset] *)
Definition reset (m : t) : t :=
  {| topk := topk m;
     sum := fold_left (fun d v => dict_set v 0%Z d) (topk m) [];
     n := 0%Z |}.

(** [__init__] *)
Definition init (ks : list nat) : t :=
  reset {| topk := np_sort ks; sum := []; n := 0%Z |}.

(** Column indices of one row by decreasing score. *)
Fixpoint insert_desc (row : list Q) (i : nat) (js : list nat) : list nat :=
  match js with
  | [] => [i]
  | j :: rest =>
      if Qltb (nth i row 0%Q) (nth j row 0%Q) then j :: insert_desc row i rest
      else i :: js
  end.

Definition argsort_desc (row : list Q) : list nat :=
  fold_right (insert_desc row) [] (seq 0 (length row)).

(** [output.topk(maxk, 1, True, True)[1]]: per row, the columns of the
    [maxk] largest scores. *)
Definition topk_indices (maxk : nat) (output : Tensor) : list (list nat) :=
  map (fun row => firstn maxk (argsort_desc row)) (rows output).

(** [correct[:, 0:k].sum()]: the entries among the first [k] predicted
    columns of each row that equal the row's label. *)
Fixpoint correct_sum (k : nat) (pred : list (list nat)) (target : list nat)
  : Z :=
  match pred, target with
  | p :: pred', y :: target' =>
      (Z.of_nat (count_occ Nat.eq_dec (firstn k p) y)
       + correct_sum k pred' target')%Z
  | _, _ => 0%Z
  end.

(** [for k in topk: self.sum[k] += no - correct[:, 0:k].sum()] *)
Fixpoint add_sums (ks : list nat) (no : Z) (pred : list (list nat))
    (target : list nat) (d : list (nat * Z)) : res (list (nat * Z)) :=
  match ks with
  | [] => Ok d
  | k :: ks' =>
      match dict_get k d with
      | None => Raise KeyError
      | Some s =>
          add_sums ks' no pred target
            (dict_set k (s + (no - correct_sum k pred target))%Z d)
      end
  end.

(** [add] *)
Definition add (output : Tensor) (target : list nat) (m : t) : res t :=
  if negb (length target =? nrows output) then Raise AssertionError
  else
    match rev (topk m) with
    | [] => Raise IndexError
    | maxk :: _ =>
        if ncols output <? maxk then Raise RuntimeError
        else
          let no := Z.of_nat (nrows output) in
          let pred := topk_indices maxk output in
          match add_sums (topk m) no pred target (sum m) with
          | Raise e => Raise e
          | Ok d => Ok {| topk := topk m; sum := d; n := (n m + no)%Z |}
          end
    end.

(** [value(k)] for a given [k] *)
Definition value_at (m : t) (k : nat) : res Q :=
  match dict_get k (sum m) with
  | None => Raise AssertionError
  | Some s =>
      if (n m =? 0)%Z then Raise ZeroDivisionError
      else Ok (inject_Z s / inject_Z (n m) * 100)%Q
  end.

Fixpoint values (m : t) (ks : list nat) : res (list Q) :=
  match ks with
  | [] => Ok []
  | k :: ks' =>
      match value_at m k with
      | Raise e => Raise e
      | Ok v =>
          match values m ks' with
          | Raise e => Raise e
          | Ok vs => Ok (v :: vs)
          end
      end
  end.

(** [value()]: one error percentage per k, in the order of [topk] *)
Definition value (m : t) : res (list Q) := values m (topk m).

End ClassErrorMeter.

(** ** Files and the console *)

Module Ckpt.

(** The dictionary that [save_model] builds. *)
Record t (P : Type) : Type := {
  args : Args.t;
  epoch : nat;
  accuracy : Q;
  errors : list Q;
  state_dict : StateDict P
}.

End Ckpt.

(** What this file writes: a pickled checkpoint ([torch.save]) or the JSON
    record of the run ([json.dump]). *)
Inductive Blob (P : Type) : Type :=
  | Pickle (c : Ckpt.t P)
  | Json (error_history : list (list Q)) (args : Args.t).
Arguments Pickle {P} c.
Arguments Json {P} error_history args.

(** The file system: the content of each path, and whether a path can be
    opened for writing. *)
Record FS (P : Type) : Type := {
  files : string -> option (Blob P);
  writable : string -> bool
}.

(** Lines printed by [print]. *)
Inductive Msg : Type :=
  | MsgPerformingEval
  | MsgEval (report : list (nat * Q))
  | MsgEpoch (epoch_idx : nat)
  | MsgBest (old new : Q)
  | MsgFinished
  | MsgSummary (error accuracy : Q)
  | MsgRule.

(** What the process did to the outside, in order. *)
Inductive Event (P : Type) : Type :=
  | Printed (m : Msg)
  | Wrote (path : string) (b : Blob P).
Arguments Printed {P} m.
Arguments Wrote {P} path b.

(** The checkpoints written, oldest first. *)
Fixpoint checkpoints {P} (tr : list (Event P)) : list (Ckpt.t P) :=
  match tr with
  | [] => []
  | Wrote _ (Pickle c) :: rest => c :: checkpoints rest
  | _ :: rest => checkpoints rest
  end.

(** ** [class Manager] *)

Module Manager.

(** The object. *)
Record t (X : Type) : Type := {
  args : Args.t;
  cuda : bool;
  model : Model;
  train_data_loader : Loader X;
  test_data_loader : Loader X;
  criterion : Criterion
}.

(** What a method sees: its object, the [Optimizers] object that [train]
    is given, the torch runtime, the file system, and what has been printed
    and written so far. *)
Record state (P X : Type) : Type := {
  self : t X;
  optimizer : Optimizers.t;
  torch : Torch P;
  fs : FS P;
  trace : list (Event P)
}.

Section Methods.
Context {P X : Type} {ext : Collaborators P X}.

Definition set_self (f : t X -> t X) (s : state P X) : state P X :=
  {| self := f (self s); optimizer := optimizer s; torch := torch s;
     fs := fs s; trace := trace s |}.

Definition set_torch (tc : Torch P) (s : state P X) : state P X :=
  {| self := self s; optimizer := optimizer s; torch := tc;
     fs := fs s; trace := trace s |}.

Definition set_params_of (p : P) (s : state P X) : state P X :=
  set_torch (set_params (fun _ => p) (torch s)) s.

Definition set_model (f : Model -> Model) (m : t X) : t X :=
  {| args := args m; cuda := cuda m; model := f (model m);
     train_data_loader := train_data_loader m;
     test_data_loader := test_data_loader m;
     criterion := criterion m |}.

Definition set_args (a : Args.t) (m : t X) : t X :=
  {| args := a; cuda := cuda m; model := model m;
     train_data_loader := train_data_loader m;
     test_data_loader := test_data_loader m;
     criterion := criterion m |}.

(** The [Optimizers] object and the torch runtime, as the methods of
    [Optimizers] see them. *)
Definition optimizers_view (s : state P X) : Optimizers.state P :=
  {| Optimizers.self := optimizer s; Optimizers.torch := torch s |}.

Definition optimizers_put (o : Optimizers.state P) (s : state P X)
  : state P X :=
  {| self := self s; optimizer := Optimizers.self o;
     torch := Optimizers.torch o; fs := fs s; trace := trace s |}.

(** The parameters, as the collaborators see them. *)
Definition on_params {A} (m : M P A) : M (state P X) A :=
  zoom (fun s : state P X => params (torch s)) set_params_of m.

(** [print] *)
Definition print (m : Msg) : M (state P X) unit :=
  modify (fun s =>
    {| self := self s; optimizer := optimizer s; torch := torch s;
       fs := fs s; trace := trace s ++ [Printed m] |}).

(** Writing a whole file, by [torch.save] or by [open(path, 'w')] and
    [json.dump]: fails when the path cannot be opened for writing. *)
Definition write_file (path : string) (b : Blob P) : M (state P X) unit :=
  fun s =>
    if writable (fs s) path then
      (Ok tt,
       {| self := self s; optimizer := optimizer s; torch := torch s;
          fs := {| files := fun p => if String.eqb p path then Some b
                                     else files (fs s) p;
                   writable := writable (fs s) |};
          trace := trace s ++ [Wrote path b] |})
    else (Raise IOError, s).

(** [torch.save] *)
Definition torch_save (c : Ckpt.t P) (path : string) : M (state P X) unit :=
  write_file path (Pickle c).

(** [torch.load] *)
Definition torch_load (path : string) : M (state P X) (Ckpt.t P) :=
  f <- gets (fun s : state P X => files (fs s) path) ;;
  match f with
  | None => raise IOError
  | Some (Json _ _) => raise UnpicklingError
  | Some (Pickle c) => ret c
  end.

(** [self.model.eval()], [self.model.train()], [self.model.cpu()],
    [self.model.cuda()], [self.model.state_dict()] *)
Definition model_eval : M (state P X) unit :=
  modify (set_self (set_model (fun m =>
    {| training := false; device := device m |}))).

Definition model_train : M (state P X) unit :=
  modify (set_self (set_model (fun m =>
    {| training := true; device := device m |}))).

Definition model_cpu : M (state P X) unit :=
  modify (set_self (set_model (fun m =>
    {| training := training m; device := CPU |}))).

Definition model_cuda : M (state P X) unit :=
  modify (set_self (set_model (fun m =>
    {| training := training m; device := GPU |}))).

Definition model_state_dict : M (state P X) (StateDict P) :=
  gets (fun s : state P X =>
    {| tensors := params (torch s); location := device (model (self s)) |}).

(** [__init__] *)
Definition init (a : Args.t) (m : Model) : t X :=
  {| args := a;
     cuda := Args.cuda a;
     model := m;
     train_data_loader :=
       train_loader_cubs (Args.train_path a) (Args.batch_size a)
                         (Args.cuda a) true;
     test_data_loader :=
       test_loader_cubs (Args.test_path a) (Args.batch_size a)
                        (Args.cuda a) true;
     criterion := CrossEntropyLoss |}.

(** The locals of [eval] that the loop assigns. *)
Record eval_locals : Type := {
  error_meter : option ClassErrorMeter.t;
  topk : option (list nat)
}.

(** The body of the loop of [eval]. *)
Definition eval_batch (l : eval_locals) (item : X * list nat)
  : M (state P X) eval_locals :=
  let '(batch, label) := item in
  c <- gets (fun s : state P X => cuda (self s)) ;;
  let batch := {| data := batch; on := if c then GPU else CPU;
                  volatile := true |} in
  m <- gets (fun s : state P X => model (self s)) ;;
  scores <- on_params (forward m batch) ;;
  let outputs := scores in   (* [scores.data.view(-1, scores.size(1))] *)
  let label := label in      (* [label.view(-1)] *)
  l <- match error_meter l with
       | None =>
           let topk := [1] in
           let topk := if 5 <? ncols outputs then topk ++ [5] else topk in
           ret {| error_meter := Some (ClassErrorMeter.init topk);
                  topk := Some topk |}
       | Some _ => ret l
       end ;;
  match error_meter l with
  | None => raise AttributeError
  | Some em =>
      em <- of_res (ClassErrorMeter.add outputs label em) ;;
      ret {| error_meter := Some em; topk := topk l |}
  end.

(** [eval] *)
Definition eval : M (state P X) (list Q) :=
  model_eval ;;
  let l := {| error_meter := None; topk := None |} in
  print MsgPerformingEval ;;
  loader <- gets (fun s : state P X => test_data_loader (self s)) ;;
  l <- for_locals loader eval_batch l ;;
  error <- match error_meter l with
           | None => raise AttributeError
           | Some em => of_res (ClassErrorMeter.value em)
           end ;;
  match topk l with
  | None => raise UnboundLocalError
  | Some topk => print (MsgEval (combine topk error))
  end ;;
  model_train ;;
  ret error.

(** [do_batch] *)
Definition do_batch (batch : X) (label : list nat) : M (state P X) unit :=
  c <- gets (fun s : state P X => cuda (self s)) ;;
  let dev := if c then GPU else CPU in
  let batch := {| data := batch; on := dev; volatile := false |} in
  let label := {| data := label; on := dev; volatile := false |} in
  on_params zero_grad ;;
  m <- gets (fun s : state P X => model (self s)) ;;
  scores <- on_params (forward m batch) ;;
  crit <- gets (fun s : state P X => criterion (self s)) ;;
  on_params (loss_backward crit scores label) ;;
  zoom optimizers_view optimizers_put Optimizers.step.

(** [do_epoch] *)
Definition do_epoch (epoch_idx : nat) : M (state P X) unit :=
  loader <- gets (fun s : state P X => train_data_loader (self s)) ;;
  for_ loader (fun '(batch, label) => do_batch batch label).

(** [save_model] *)
Definition save_model (epoch : nat) (best_accuracy : Q) (errors : list Q)
    (savename : string) : M (state P X) unit :=
  model_cpu ;;
  a <- gets (fun s : state P X => args (self s)) ;;
  sd <- model_state_dict ;;
  let ckpt := {| Ckpt.args := a; Ckpt.epoch := epoch;
                 Ckpt.accuracy := best_accuracy; Ckpt.errors := errors;
                 Ckpt.state_dict := sd |} in
  c <- gets (fun s : state P X => cuda (self s)) ;;
  (if c then model_cuda else ret tt) ;;
  torch_save ckpt (String.append savename ".pt").

(** [load_model] *)
Definition load_model (savename : string) : M (state P X) unit :=
  ckpt <- torch_load (String.append savename ".pt") ;;
  on_params (load_state_dict (Ckpt.state_dict ckpt)) ;;
  modify (set_self (set_args (Ckpt.args ckpt))).

(** The locals of [train] that the loop assigns. *)
Record train_locals : Type := {
  best_accuracy : Q;
  error_history : list (list Q)
}.

(** [errors[0]] *)
Definition first_of (errors : list Q) : M (state P X) Q :=
  match errors with
  | [] => raise IndexError
  | e :: _ => ret e
  end.

(** The body of the loop of [train], for [i] in [range(epochs)]. *)
Definition train_epoch (savename : string) (l : train_locals) (i : nat)
  : M (state P X) train_locals :=
  let epoch_idx := i + 1 in
  print (MsgEpoch epoch_idx) ;;
  zoom optimizers_view optimizers_put
       (Optimizers.update_lr (Z.of_nat epoch_idx)) ;;
  model_train ;;
  do_epoch epoch_idx ;;
  errors <- eval ;;
  e0 <- first_of errors ;;
  let accuracy := (100 - e0)%Q in
  let error_history := error_history l ++ [errors] in
  a <- gets (fun s : state P X => args (self s)) ;;
  write_file (String.append savename ".json") (Json error_history a) ;;
  if Qltb (best_accuracy l) accuracy then
    print (MsgBest (best_accuracy l) accuracy) ;;
    let best_accuracy := accuracy in
    save_model epoch_idx best_accuracy errors savename ;;
    ret {| best_accuracy := best_accuracy; error_history := error_history |}
  else
    ret {| best_accuracy := best_accuracy l;
           error_history := error_history |}.

(** [range(epochs)] *)
Definition range (epochs : Z) : list nat := seq 0 (Z.to_nat epochs).

(** The loop of [train]. *)
Definition train_loop (savename : string) (epochs : Z) (l : train_locals)
  : M (state P X) train_locals :=
  for_locals (range epochs) (train_epoch savename) l.

(** [train]; [None] for an argument left to its default. *)
Definition train (epochs : Z) (savename : option string)
    (best_accuracy : option Q) : M (state P X) unit :=
  let savename := match savename with Some n => n | None => EmptyString end in
  let best_accuracy := match best_accuracy with Some b => b | None => 0%Q end in
  let l := {| best_accuracy := best_accuracy; error_history := [] |} in
  a <- gets (fun s : state P X => args (self s)) ;;
  (if Args.cuda a then model_cuda else ret tt) ;;
  l <- train_loop savename epochs l ;;
  let (best_accuracy, _) := l in
  print MsgFinished ;;
  print (MsgSummary (100 - best_accuracy)%Q best_accuracy) ;;
  print MsgRule.

End Methods.

End Manager.

(** ** Registration and shape checks used in the statements *)

(** A sequence of [add] calls on a fresh [Optimizers] object. *)
Definition register {P} (regs : list (ref * Q * Z))
  : M (Optimizers.state P) unit :=
  for_ regs (fun '(optimizer, learning_rate, decay) =>
    Optimizers.add optimizer learning_rate decay).

Definition fresh_optimizers {P} (a : Args.t) (tc : Torch P)
  : Optimizers.state P :=
  {| Optimizers.self := Optimizers.init a; Optimizers.torch := tc |}.

(** The call that [update_lr] makes for one registration. *)
Definition call_for (epoch : Z) (factor : Q) (reg : ref * Q * Z) : LrCall :=
  let '(optimizer, learning_rate, decay) := reg in
  {| call_epoch := epoch; call_init_lr := learning_rate;
     call_decay_every := decay; call_factor := factor;
     call_optimizer := optimizer |}.

(** What that call does to the optimizer objects. *)
Definition scheduled (epoch : Z) (factor : Q) (h : Heap) (reg : ref * Q * Z)
  : Heap :=
  let '(optimizer, learning_rate, decay) := reg in
  heap_set h optimizer
    {| lr := Utils.rate epoch learning_rate decay factor;
       steps_taken := steps_taken (h optimizer) |}.

(** Top-1 accuracy of one error record, as [train] derives it. *)
Definition top1_accuracy (errors : list Q) : Q :=
  (100 - hd 0 errors)%Q.

(** [x] is the largest element of [xs]. *)
Definition is_max (x : Q) (xs : list Q) : Prop :=
  (exists y, In y xs /\ (x == y)%Q) /\ forall y, In y xs -> (y <= x)%Q.

(** A value is a percentage. *)
Definition percentage (v : Q) : Prop := (0 <= v)%Q /\ (v <= 100)%Q.

(** The invariant of a meter: distinct k values, and under every k a count
    between zero and the number of samples seen. *)
Definition meter_ok (m : ClassErrorMeter.t) : Prop :=
  NoDup (ClassErrorMeter.topk m)
  /\ (0 <= ClassErrorMeter.n m)%Z
  /\ forall k, In k (ClassErrorMeter.topk m) ->
       exists v, ClassErrorMeter.dict_get k (ClassErrorMeter.sum m) = Some v
                 /\ (0 <= v <= ClassErrorMeter.n m)%Z.

(** The k values that [eval] chooses for an output of the given width. *)
Definition k_values (width : nat) : list nat :=
  if 5 <? width then [1; 5] else [1].

(** The locals of the loop of [eval] once a first batch of the given width
    has been added: a sound meter over the k values of that width, with at
    least [seen] samples. *)
Definition ready (width : nat) (seen : Z) (l : Manager.eval_locals) : Prop :=
  exists em,
    Manager.error_meter l = Some em
    /\ Manager.topk l = Some (k_values width)
    /\ ClassErrorMeter.topk em = k_values width
    /\ meter_ok em
    /\ (seen <= ClassErrorMeter.n em)%Z.

(** The checkpoints written so far. *)
Definition saved {P X} (s : Manager.state P X) : list (Ckpt.t P) :=
  checkpoints (Manager.trace s).

(** A checkpoint carries the largest top-1 accuracy of the epochs up to
    the one it names, which is one of the epochs of the history. *)
Definition holds_max {P} (history : list (list Q)) (ck : Ckpt.t P) : Prop :=
  1 <= Ckpt.epoch ck <= length history
  /\ is_max (Ckpt.accuracy ck)
       (map top1_accuracy (firstn (Ckpt.epoch ck) history)).

(** The invariant of the loop of [train], started in state [s0] with best
    accuracy [b0]. *)
Definition train_inv {P X} (s0 : Manager.state P X) (b0 : Q)
    (l : Manager.train_locals) (s : Manager.state P X) : Prop :=
  (b0 <= Manager.best_accuracy l)%Q
  /\ (forall e, In e (Manager.error_history l) ->
        (top1_accuracy e <= Manager.best_accuracy l)%Q)
  /\ exists new,
       saved s = saved s0 ++ new
       /\ Forall (holds_max (Manager.error_history l)) new.

(** The locals of [train] before the loop. *)
Definition start_locals (b0 : Q) : Manager.train_locals :=
  {| Manager.best_accuracy := b0; Manager.error_history := [] |}.

(** The state in which the loop of [train] starts. *)
Definition train_entered {P X} (s : Manager.state P X) : Manager.state P X :=
  if Args.cuda (Manager.args (Manager.self s))
  then snd (Manager.model_cuda s) else s.

(** The locals of [eval] before the loop. *)
Definition no_locals : Manager.eval_locals :=
  {| Manager.error_meter := None; Manager.topk := None |}.

(** The state in which the loop of [eval] starts. *)
Definition eval_entered {P X} (s : Manager.state P X) : Manager.state P X :=
  snd (Manager.print MsgPerformingEval (snd (Manager.model_eval s))).

(** ** A small network for the scenarios

    The parameters are the number of optimizer steps taken so far.  A batch
    is a list of sample numbers; every label is class 0 of two classes, and
    the network puts sample [i] in class 0 exactly when [i] is below the
    accuracy that the table gives for its parameters. *)

Module Scenario.

Definition accuracy_table : list nat := [70; 72; 71; 75].

Definition correct_upto (p : nat) : nat := nth (p - 1) accuracy_table 0.

Definition toy_forward (m : Model) (v : Var (list nat)) : M nat Tensor :=
  fun p =>
    (Ok {| rows := map (fun i => if i <? correct_upto p
                                 then [1; 0]%Q else [0; 1]%Q) (data v);
           ncols := 2 |}, p).

#[global] Instance toy : Collaborators nat (list nat) := {|
  forward := toy_forward;
  zero_grad := ret tt;
  loss_backward := fun _ _ _ => ret tt;
  optimizer_step := fun _ _ => modify S;
  load_state_dict := fun sd => modify (fun _ => tensors sd);
  train_loader_cubs := fun _ _ _ _ => [([0], [0])];
  test_loader_cubs := fun _ _ _ _ => [(seq 0 100, repeat 0 100)]
|}.

Definition toy_args : Args.t :=
  {| Args.cuda := true; Args.train_path := "train"; Args.test_path := "test";
     Args.batch_size := 100; Args.lr_decay_factor := (1 # 10)%Q |}.

Definition blank_heap : Heap := fun _ => {| lr := 0%Q; steps_taken := 0 |}.

Definition blank_torch : Torch nat :=
  {| params := 0; heap := blank_heap; calls := [] |}.

Definition empty_fs : FS nat :=
  {| files := fun _ => None; writable := fun _ => true |}.

(** One optimizer, registered with rate 1/100 and decay every 2 epochs. *)
Definition toy_optimizers : Optimizers.t :=
  Optimizers.self
    (snd (register [(0, (1 # 100)%Q, 2%Z)]
            (fresh_optimizers toy_args blank_torch))).

Definition toy_manager : Manager.t (list nat) :=
  Manager.init toy_args {| training := true; device := CPU |}.

Definition toy_state : Manager.state nat (list nat) :=
  {| Manager.self := toy_manager;
     Manager.optimizer := toy_optimizers;
     Manager.torch := blank_torch;
     Manager.fs := empty_fs;
     Manager.trace := [] |}.

(** The same manager with another evaluation stream. *)
Definition with_test_loader (loader : Loader (list nat))
  : Manager.state nat (list nat) :=
  Manager.set_self (fun m =>
    {| Manager.args := Manager.args m; Manager.cuda := Manager.cuda m;
       Manager.model := Manager.model m;
       Manager.train_data_loader := Manager.train_data_loader m;
       Manager.test_data_loader := loader;
       Manager.criterion := Manager.criterion m |}) toy_state.

(** The second batch has two samples and one label. *)
Definition broken_stream : Loader (list nat) :=
  [([0; 1], [0; 0]); ([2; 3], [0])].

(** The model is on the GPU and no path can be written. *)
Definition read_only_state : Manager.state nat (list nat) :=
  {| Manager.self := Manager.init toy_args {| training := true; device := GPU |};
     Manager.optimizer := toy_optimizers;
     Manager.torch := blank_torch;
     Manager.fs := {| files := fun _ => None; writable := fun _ => false |};
     Manager.trace := [] |}.

(** A checkpoint saved by a run without CUDA, stored as [best.pt]. *)
Definition cpu_checkpoint : Ckpt.t nat :=
  {| Ckpt.args :=
       {| Args.cuda := false; Args.train_path := "other/train";
          Args.test_path := "other/test"; Args.batch_size := 8;
          Args.lr_decay_factor := 0.5%Q |};
     Ckpt.epoch := 3;
     Ckpt.accuracy := 71%Q;
     Ckpt.errors := [29%Q];
     Ckpt.state_dict := {| tensors := 3; location := CPU |} |}.

Definition with_checkpoint : Manager.state nat (list nat) :=
  {| Manager.self := toy_manager;
     Manager.optimizer := toy_optimizers;
     Manager.torch := blank_torch;
     Manager.fs :=
       {| files := fun p => if String.eqb p "best.pt"
                            then Some (Pickle cpu_checkpoint) else None;
          writable := fun _ => true |};
     Manager.trace := [] |}.

(** The three optimizers of the schedule scenario. *)
Definition three_regs : list (ref * Q * Z) :=
  [(0, 0.1%Q, 2%Z); (1, 0.01%Q, 3%Z); (2, 0.001%Q, 0%Z)].

End Scenario.

(** ** Further notions used in the statements *)

(** From a state satisfying [pre], the computation ends, by a return or a
    raise, with an outcome and a state satisfying [post]. *)
Definition triple {S A} (pre : S -> Prop) (m : M S A)
    (post : res A -> S -> Prop) : Prop :=
  forall s, pre s -> post (fst (m s)) (snd (m s)).

(** The file system after a whole file has been written. *)
Definition fs_write {P} (path : string) (b : Blob P) (f : FS P) : FS P :=
  {| files := fun p => if String.eqb p path then Some b else files f p;
     writable := writable f |}.

(** Every element is strictly above the one before it, the first one
    strictly above [lo]. *)
Fixpoint climbs (lo : Q) (xs : list Q) : Prop :=
  match xs with
  | [] => True
  | x :: rest => (lo < x)%Q /\ climbs x rest
  end.

(** In a meter the count under 5 is at most the count under 1. *)
Definition ordered (m : ClassErrorMeter.t) : Prop :=
  forall v1 v5,
    ClassErrorMeter.dict_get 1 (ClassErrorMeter.sum m) = Some v1 ->
    ClassErrorMeter.dict_get 5 (ClassErrorMeter.sum m) = Some v5 ->
    (v5 <= v1)%Z.

(** ** A network with six classes

    Every label is class 0; the network gives sample [i] its highest score
    in column [i mod 6]. *)

Module SixClasses.

Definition six_forward (m : Model) (v : Var (list nat)) : M nat Tensor :=
  fun p =>
    (Ok {| rows := map (fun i =>
                     map (fun c => if c =? i mod 6 then 1%Q else 0%Q)
                         (seq 0 6)) (data v);
           ncols := 6 |}, p).

Definition six : Collaborators nat (list nat) := {|
  forward := six_forward;
  zero_grad := ret tt;
  loss_backward := fun _ _ _ => ret tt;
  optimizer_step := fun _ _ => modify S;
  load_state_dict := fun sd => modify (fun _ => tensors sd);
  train_loader_cubs := fun _ _ _ _ => [([0], [0])];
  test_loader_cubs := fun _ _ _ _ => [(seq 0 6, repeat 0 6); (seq 6 6, repeat 0 6)]
|}.

Definition six_state : Manager.state nat (list nat) :=
  {| Manager.self :=
       @Manager.init nat (list nat) six Scenario.toy_args
         {| training := true; device := CPU |};
     Manager.optimizer := Scenario.toy_optimizers;
     Manager.torch := Scenario.blank_torch;
     Manager.fs := Scenario.empty_fs;
     Manager.trace := [] |}.

End SixClasses.

(** The state in which an epoch of [train] starts its pass over the
    training data: the heading is printed, the learning rates are set for
    the epoch, the model is in training mode. *)
Definition epoch_started {P X} (i : nat) (s : Manager.state P X)
  : Manager.state P X :=
  snd (Manager.model_train
         (snd (zoom Manager.optimizers_view Manager.optimizers_put
                 (Optimizers.update_lr (Z.of_nat (i + 1)))
                 (snd (Manager.print (MsgEpoch (i + 1)) s))))).

(** The triples that [update_lr] zips, and the decay factor it reads. *)
Definition registered {P X} (s : Manager.state P X) : list (ref * Q * Z) :=
  zip3 (Optimizers.optimizers (Manager.optimizer s))
       (Optimizers.lrs (Manager.optimizer s))
       (Optimizers.decay_every (Manager.optimizer s)).

Definition decay_factor {P X} (s : Manager.state P X) : Q :=
  Args.lr_decay_factor (Optimizers.args (Manager.optimizer s)).

(** A checkpoint written by a run of [epochs] epochs that started with the
    given args and left the given history: its accuracy is at most 100, it
    names one of the epochs and carries the error record of that epoch, the
    args of the run, and a state dict in host memory. *)
Definition checkpoint_of_run {P} (a : Args.t) (epochs : nat)
    (history : list (list Q)) (ck : Ckpt.t P) : Prop :=
  (Ckpt.accuracy ck <= 100)%Q
  /\ 1 <= Ckpt.epoch ck <= epochs
  /\ nth_error history (Ckpt.epoch ck - 1) = Some (Ckpt.errors ck)
  /\ Ckpt.accuracy ck = top1_accuracy (Ckpt.errors ck)
  /\ Ckpt.args ck = a
  /\ location (Ckpt.state_dict ck) = CPU.

(** The toy manager with its CUDA flag off while its args ask for CUDA, as
    [load_model] leaves a manager that was built without CUDA once it has
    read the checkpoint of a CUDA run. *)
Definition flag_off_state : Manager.state nat (list nat) :=
  Manager.set_self (fun m =>
    {| Manager.args := Manager.args m; Manager.cuda := false;
       Manager.model := Manager.model m;
       Manager.train_data_loader := Manager.train_data_loader m;
       Manager.test_data_loader := Manager.test_data_loader m;
       Manager.criterion := Manager.criterion m |}) Scenario.toy_state.

(** ** The top-k error of an evaluation pass, stated on the scores *)

(** Column [j] comes before column [y] when the columns of a row are put in
    order of decreasing score: its score is higher, or the same with a lower
    index. *)
Definition comes_before (row : list Q) (j y : nat) : bool :=
  Qltb (nth y row 0%Q) (nth j row 0%Q)
  || (Qeq_bool (nth j row 0%Q) (nth y row 0%Q) && (j <? y)).

(** Label [y] is among the [k] best columns of a row: it is a column of the
    row and fewer than [k] columns come before it. *)
Definition among_best (k : nat) (row : list Q) (y : nat) : bool :=
  (y <? length row)
  && (length (filter (fun j => comes_before row j y) (seq 0 (length row)))
      <? k).

(** The samples of a batch whose label is not among the [k] best columns
    of their row. *)
Fixpoint misses (k : nat) (rows : list (list Q)) (labels : list nat) : Z :=
  match rows, labels with
  | row :: rows', y :: labels' =>
      ((if among_best k row y then 0 else 1) + misses k rows' labels')%Z
  | _, _ => 0%Z
  end.

(** The same over the batches of a pass, and the samples of the pass. *)
Definition pass_misses (k : nat) (outs : list (Tensor * list nat)) : Z :=
  fold_right (fun out acc => (misses k (rows (fst out)) (snd out) + acc)%Z)
    0%Z outs.

Definition pass_samples (outs : list (Tensor * list nat)) : Z :=
  fold_right (fun out acc => (Z.of_nat (nrows (fst out)) + acc)%Z) 0%Z outs.

(** The top-[k] error of a pass, in percent. *)
Definition topk_error (outs : list (Tensor * list nat)) (k : nat) : Q :=
  (inject_Z (pass_misses k outs) / inject_Z (pass_samples outs) * 100)%Q.

(** What the network answers on the batches of an evaluation stream, in
    order and with the labels of each batch; the parameters go from one
    forward pass to the next. *)
Fixpoint pass_outputs {P X} {ext : Collaborators P X} (m : Model) (c : bool)
    (loader : Loader X) : M P (list (Tensor * list nat)) :=
  match loader with
  | [] => ret []
  | (batch, label) :: rest =>
      scores <- forward m {| data := batch; on := if c then GPU else CPU;
                             volatile := true |} ;;
      outs <- pass_outputs m c rest ;;
      ret ((scores, label) :: outs)
  end.

(** An output that the meter can add when its largest k is [maxk]: one row
    per label and at least [maxk] columns. *)
Definition fits (maxk : nat) (out : Tensor * list nat) : bool :=
  (length (snd out) =? nrows (fst out)) && (maxk <=? ncols (fst out)).

(** The outputs of a pass from which [eval] gets its errors: there is a
    first batch, every output fits the largest k chosen from the width of
    the first, and there is at least one sample. *)
Definition evaluable (outs : list (Tensor * list nat)) : bool :=
  match outs with
  | [] => false
  | (first, _) :: _ =>
      forallb (fits (if 5 <? ncols first then 5 else 1)) outs
      && (0 <? pass_samples outs)%Z
  end.

(** The meter hands its output to [squeeze()], which drops the dimensions
    of size one; an output of at least two rows and two columns is left as
    it is. *)
Definition kept_by_squeeze (out : Tensor * list nat) : bool :=
  (2 <=? nrows (fst out)) && (2 <=? ncols (fst out)).

(** The locals of the loop of [eval] after the outputs [done] of a pass
    whose first output had the given width: the meter has the k values of
    that width, has seen the samples of [done] and holds under every k the
    misses of [done]. *)
Definition tracks (width : nat) (done : list (Tensor * list nat))
    (l : Manager.eval_locals) : Prop :=
  exists em,
    Manager.error_meter l = Some em
    /\ Manager.topk l = Some (k_values width)
    /\ ClassErrorMeter.topk em = k_values width
    /\ ClassErrorMeter.n em = pass_samples done
    /\ forall k, In k (k_values width) ->
         ClassErrorMeter.dict_get k (ClassErrorMeter.sum em)
         = Some (pass_misses k done).

(** ** A network whose output narrows

    Every label is class 0 and the network gives column 0 the highest
    score; the first ten samples get eight columns, the later ones three. *)

Module Narrowing.

Definition narrowing_forward (m : Model) (v : Var (list nat))
  : M nat Tensor :=
  fun p =>
    let width := if hd 0 (data v) <? 10 then 8 else 3 in
    (Ok {| rows := map (fun _ =>
                     map (fun c => if c =? 0 then 1%Q else 0%Q)
                         (seq 0 width)) (data v);
           ncols := width |}, p).

Definition narrowing : Collaborators nat (list nat) := {|
  forward := narrowing_forward;
  zero_grad := ret tt;
  loss_backward := fun _ _ _ => ret tt;
  optimizer_step := fun _ _ => modify S;
  load_state_dict := fun sd => modify (fun _ => tensors sd);
  train_loader_cubs := fun _ _ _ _ => [([0], [0])];
  test_loader_cubs := fun _ _ _ _ =>
    [(seq 0 10, repeat 0 10); (seq 10 10, repeat 0 10)]
|}.

Definition narrowing_state : Manager.state nat (list nat) :=
  {| Manager.self :=
       @Manager.init nat (list nat) narrowing Scenario.toy_args
         {| training := true; device := CPU |};
     Manager.optimizer := Scenario.toy_optimizers;
     Manager.torch := Scenario.blank_torch;
     Manager.fs := Scenario.empty_fs;
     Manager.trace := [] |}.

(** The same manager with the first batch alone. *)
Definition first_batch_state : Manager.state nat (list nat) :=
  Manager.set_self (fun m =>
    {| Manager.args := Manager.args m; Manager.cuda := Manager.cuda m;
       Manager.model := Manager.model m;
       Manager.train_data_loader := Manager.train_data_loader m;
       Manager.test_data_loader := firstn 1 (Manager.test_data_loader m);
       Manager.criterion := Manager.criterion m |}) narrowing_state.

End Narrowing.

(** ** A model on the GPU under a manager whose CUDA flag is off

    [train] has moved the model to the GPU because the args ask for CUDA;
    the manager's own flag is off. *)
Definition gpu_flag_off_state : Manager.state nat (list nat) :=
  train_entered flag_off_state.

(** The same with no path that can be written. *)
Definition gpu_flag_off_read_only : Manager.state nat (list nat) :=
  {| Manager.self := Manager.self gpu_flag_off_state;
     Manager.optimizer := Manager.optimizer gpu_flag_off_state;
     Manager.torch := Manager.torch gpu_flag_off_state;
     Manager.fs := {| files := fun _ => None; writable := fun _ => false |};
     Manager.trace := Manager.trace gpu_flag_off_state |}.

(** * Properties *)

(** ** The monad *)

Lemma bind_ok {S A B} (m : M S A) (k : A -> M S B) s a s1 :
  m s = (Ok a, s1) -> bind m k s = k a s1.
Proof. unfold bind; intros ->; reflexivity. Qed.

Lemma bind_ok_inv {S A B} (m : M S A) (k : A -> M S B) s b s' :
  bind m k s = (Ok b, s') ->
  exists a s1, m s = (Ok a, s1) /\ k a s1 = (Ok b, s').
Proof.
  unfold bind; destruct (m s) as [[a | e] s1]; intros H.
  - exists a, s1; split; [reflexivity | exact H].
  - discriminate H.
Qed.

Lemma keeps_ret {S A B} (f : S -> B) (a : A) : keeps f (ret a).
Proof. intros s; reflexivity. Qed.

Lemma keeps_gets {S A B} (f : S -> B) (g : S -> A) : keeps f (gets g).
Proof. intros s; reflexivity. Qed.

Lemma keeps_bind {S A B C} (f : S -> C) (m : M S A) (k : A -> M S B) :
  keeps f m -> (forall a, keeps f (k a)) -> keeps f (bind m k).
Proof.
  intros Hm Hk s; unfold bind.
  specialize (Hm s); destruct (m s) as [[a | e] s1]; simpl in *.
  - rewrite Hk; exact Hm.
  - exact Hm.
Qed.

Lemma keeps_for_ {S A B} (f : S -> B) (xs : list A) body :
  (forall x, keeps f (body x)) -> keeps f (@for_ S A xs body).
Proof.
  intros Hb; induction xs as [| x xs IH]; simpl.
  - apply keeps_ret.
  - apply keeps_bind; auto.
Qed.

Lemma keeps_for_locals {S A L B} (f : S -> B) (xs : list A) body :
  (forall l x, keeps f (body l x)) ->
  forall l, keeps f (@for_locals S A L xs body l).
Proof.
  intros Hb; induction xs as [| x xs IH]; intros l; simpl.
  - apply keeps_ret.
  - apply keeps_bind; auto.
Qed.

Lemma keeps_zoom {S T A B} (f : T -> B) (get : T -> S) set (m : M S A) :
  (forall x t, f (set x t) = f t) -> keeps f (zoom get set m).
Proof.
  intros H t; unfold zoom; destruct (m (get t)) as [r x]; simpl; apply H.
Qed.

Lemma for_locals_app {S A L} (xs ys : list A) (body : L -> A -> M S L) l s :
  for_locals (xs ++ ys) body l s
  = bind (for_locals xs body l) (for_locals ys body) s.
Proof.
  revert l s; induction xs as [| x xs IH]; intros l s; simpl.
  - reflexivity.
  - unfold bind in *. destruct (body l x s) as [[l1 | e] s1].
    + apply IH.
    + reflexivity.
Qed.

(** ** [Optimizers] *)

Lemma zip3_regs (regs : list (ref * Q * Z)) :
  zip3 (map (fun r => fst (fst r)) regs) (map (fun r => snd (fst r)) regs)
       (map snd regs) = regs.
Proof.
  induction regs as [| [[h b] d] regs IH]; simpl; [| rewrite IH]; reflexivity.
Qed.

Lemma register_run {P} (regs : list (ref * Q * Z)) (s : Optimizers.state P) :
  register regs s
  = (Ok tt,
     {| Optimizers.self :=
          {| Optimizers.optimizers :=
               Optimizers.optimizers (Optimizers.self s)
               ++ map (fun r => fst (fst r)) regs;
             Optimizers.lrs :=
               Optimizers.lrs (Optimizers.self s)
               ++ map (fun r => snd (fst r)) regs;
             Optimizers.decay_every :=
               Optimizers.decay_every (Optimizers.self s) ++ map snd regs;
             Optimizers.args := Optimizers.args (Optimizers.self s) |};
        Optimizers.torch := Optimizers.torch s |}).
Proof.
  unfold register.
  revert s; induction regs as [| [[h b] d] regs IH]; intros [[os ls ds a] tc].
  - simpl. unfold ret. rewrite !app_nil_r. reflexivity.
  - cbn [for_]. unfold bind at 1, Optimizers.add, modify. cbn [fst snd].
    rewrite IH. cbn. rewrite <- !app_assoc. reflexivity.
Qed.

(** The loop of [update_lr] in closed form: the object is untouched, every
    element of the zipped lists gives one call, in order. *)
Lemma update_loop_run {P} (epoch : Z) (zs : list (ref * Q * Z))
    (s : Optimizers.state P) :
  for_ zs (fun '(optimizer, init_lr, decay) =>
       factor <- gets (fun s : Optimizers.state P =>
                   Args.lr_decay_factor (Optimizers.args (Optimizers.self s))) ;;
       optimizer <- zoom (@Optimizers.torch P) Optimizers.set_torch
                      (Utils.step_lr epoch init_lr decay factor optimizer) ;;
       ret tt) s
  = (Ok tt,
     let f := Args.lr_decay_factor (Optimizers.args (Optimizers.self s)) in
     {| Optimizers.self := Optimizers.self s;
        Optimizers.torch :=
          {| params := params (Optimizers.torch s);
             heap := fold_left (scheduled epoch f) zs
                       (heap (Optimizers.torch s));
             calls := calls (Optimizers.torch s)
                      ++ map (call_for epoch f) zs |} |}).
Proof.
  revert s; induction zs as [| [[h b] d] zs IH]; intros [o [p hp cs]].
  - simpl. unfold ret. rewrite app_nil_r. reflexivity.
  - cbn [for_]. unfold bind at 1.
    unfold bind at 1, gets, zoom, Utils.step_lr, bind, modify, ret. cbn.
    rewrite IH. cbn. rewrite <- app_assoc. reflexivity.
Qed.

Lemma update_lr_run {P} (epoch : Z) (s : Optimizers.state P) :
  Optimizers.update_lr epoch s
  = (Ok tt,
     let o := Optimizers.self s in
     let f := Args.lr_decay_factor (Optimizers.args o) in
     let zs := zip3 (Optimizers.optimizers o) (Optimizers.lrs o)
                    (Optimizers.decay_every o) in
     {| Optimizers.self := o;
        Optimizers.torch :=
          {| params := params (Optimizers.torch s);
             heap := fold_left (scheduled epoch f) zs
                       (heap (Optimizers.torch s));
             calls := calls (Optimizers.torch s)
                      ++ map (call_for epoch f) zs |} |}).
Proof.
  unfold Optimizers.update_lr. unfold bind at 1, gets at 1.
  apply update_loop_run.
Qed.

Lemma scheduled_other epoch f (zs : list (ref * Q * Z)) (h : Heap) r :
  ~ In r (map (fun z => fst (fst z)) zs) ->
  fold_left (scheduled epoch f) zs h r = h r.
Proof.
  revert h; induction zs as [| [[o b] d] zs IH]; intros h Hr; simpl.
  - reflexivity.
  - simpl in Hr. rewrite IH by tauto.
    unfold heap_set. destruct (Nat.eqb_spec r o); [| reflexivity].
    subst; tauto.
Qed.

Lemma scheduled_at epoch f (zs : list (ref * Q * Z)) (h : Heap) o b d :
  NoDup (map (fun z => fst (fst z)) zs) ->
  In (o, b, d) zs ->
  fold_left (scheduled epoch f) zs h o
  = {| lr := Utils.rate epoch b d f; steps_taken := steps_taken (h o) |}.
Proof.
  revert h; induction zs as [| [[o' b'] d'] zs IH]; intros h Hnd Hin.
  - destruct Hin.
  - simpl in Hnd. inversion Hnd as [| ? ? Hnotin Hnd']; subst.
    destruct Hin as [Heq | Hin].
    + inversion Heq; subst. simpl.
      rewrite scheduled_other by assumption.
      unfold heap_set. rewrite Nat.eqb_refl. reflexivity.
    + simpl. rewrite IH by assumption.
      assert (o <> o') as Hne.
      { intros ->. apply Hnotin.
        exact (in_map (fun z : ref * Q * Z => fst (fst z)) zs (o', b, d) Hin). }
      unfold heap_set. destruct (Nat.eqb_spec o o'); [contradiction |].
      reflexivity.
Qed.

Lemma registered_update_run {P} (regs : list (ref * Q * Z)) (a : Args.t)
    (tc : Torch P) (epoch : Z) :
  Optimizers.update_lr epoch (snd (register regs (fresh_optimizers a tc)))
  = (Ok tt,
     {| Optimizers.self :=
          Optimizers.self (snd (register regs (fresh_optimizers a tc)));
        Optimizers.torch :=
          {| params := params tc;
             heap := fold_left (scheduled epoch (Args.lr_decay_factor a))
                       regs (heap tc);
             calls := calls tc
                      ++ map (call_for epoch (Args.lr_decay_factor a))
                           regs |} |}).
Proof.
  rewrite update_lr_run, register_run. cbn. rewrite zip3_regs. reflexivity.
Qed.

(** C9: [update_lr] leaves the object as it was: after the call the lists
    [optimizers], [lrs] and [decay_every] hold the same elements in the same
    order as before, for every state and epoch, and what [utils.step_lr]
    hands back is not stored. *)
Theorem update_lr_keeps_collections {P} (epoch_idx : Z)
    (s : Optimizers.state P) :
  let s' := snd (Optimizers.update_lr epoch_idx s) in
  Optimizers.optimizers (Optimizers.self s')
    = Optimizers.optimizers (Optimizers.self s)
  /\ Optimizers.lrs (Optimizers.self s') = Optimizers.lrs (Optimizers.self s)
  /\ Optimizers.decay_every (Optimizers.self s')
     = Optimizers.decay_every (Optimizers.self s)
  /\ Optimizers.self s' = Optimizers.self s.
Proof.
  rewrite update_lr_run. cbn. repeat split; reflexivity.
Qed.

(** C7: after any [n] registrations, one call of [update_lr] returns
    normally and invokes the schedule once per registration, in registration
    order, each time with that registration's own base rate and decay
    interval and with the shared decay factor; so it makes [n] calls.  With
    distinct optimizers each one ends with the rate scheduled for it, also
    when its decay interval has not been reached, and no other optimizer is
    touched. *)
Theorem update_lr_calls_each_once {P} (regs : list (ref * Q * Z))
    (a : Args.t) (tc : Torch P) (epoch_idx : Z) :
  let s := snd (register regs (fresh_optimizers a tc)) in
  let r := Optimizers.update_lr epoch_idx s in
  let f := Args.lr_decay_factor a in
  let made := map (call_for epoch_idx f) regs in
  fst r = Ok tt
  /\ calls (Optimizers.torch (snd r)) = calls tc ++ made
  /\ length made = length regs
  /\ map call_optimizer made = map (fun z => fst (fst z)) regs
  /\ (NoDup (map (fun z => fst (fst z)) regs) ->
      forall o b d, In (o, b, d) regs ->
        heap (Optimizers.torch (snd r)) o
        = {| lr := Utils.rate epoch_idx b d f;
             steps_taken := steps_taken (heap tc o) |})
  /\ (forall o, ~ In o (map (fun z => fst (fst z)) regs) ->
      heap (Optimizers.torch (snd r)) o = heap tc o).
Proof.
  cbv zeta. rewrite registered_update_run.
  cbn [fst snd Optimizers.torch heap calls].
  split; [reflexivity |]. split; [reflexivity |].
  split; [apply length_map |].
  split.
  { rewrite map_map. apply map_ext. intros [[o b] d]. reflexivity. }
  split.
  - intros Hnd o b d Hin. apply scheduled_at; assumption.
  - intros o Hout. apply scheduled_other; assumption.
Qed.

Lemma update_lr_calls_each_once_witness :
  NoDup (map (fun z : ref * Q * Z => fst (fst z)) Scenario.three_regs)
  /\ lr (heap (Optimizers.torch
            (snd (Optimizers.update_lr 4
               (snd (register Scenario.three_regs
                  (fresh_optimizers Scenario.toy_args
                     Scenario.blank_torch)))))) 1)
     = Utils.rate 4 0.01 3 (Args.lr_decay_factor Scenario.toy_args).
Proof.
  assert (NoDup (map (fun z : ref * Q * Z => fst (fst z))
                   Scenario.three_regs)) as Hnd.
  { repeat constructor; simpl; intuition discriminate. }
  split; [exact Hnd |].
  destruct (update_lr_calls_each_once Scenario.three_regs Scenario.toy_args
              Scenario.blank_torch 4) as (_ & _ & _ & _ & Hat & _).
  rewrite (Hat Hnd 1 0.01%Q 3%Z); [reflexivity |].
  simpl; auto.
Defined.

(** C2: for optimizers registered under distinct references, after
    [update_lr e] with [e >= 1] the optimizer registered with base rate
    [base] and decay interval [d] has the rate
    [base * factor ^ floor (e / d)] when [d > 0], and the rate [base] when
    [d <= 0], [factor] being the shared decay factor.  For base rates 0.1,
    0.01, 0.001 with intervals 2, 3, 0 and [e = 4] the rates are
    [0.1 * f^2], [0.01 * f^1] and [0.001]. *)
Theorem update_lr_applies_step_decay {P} :
  (forall (regs : list (ref * Q * Z)) (a : Args.t) (tc : Torch P)
          (e : Z) (o : ref) (base : Q) (d : Z),
      (1 <= e)%Z ->
      NoDup (map (fun z => fst (fst z)) regs) ->
      In (o, base, d) regs ->
      let s' := snd (Optimizers.update_lr e
                       (snd (register regs (fresh_optimizers a tc)))) in
      let f := Args.lr_decay_factor a in
      ((0 < d)%Z ->
       lr (heap (Optimizers.torch s') o)
       = (base * f ^ Qfloor (inject_Z e / inject_Z d))%Q)
      /\ ((d <= 0)%Z -> lr (heap (Optimizers.torch s') o) = base))
  /\ (forall (a : Args.t) (tc : Torch P),
      let s' := snd (Optimizers.update_lr 4
                       (snd (register Scenario.three_regs
                               (fresh_optimizers a tc)))) in
      let f := Args.lr_decay_factor a in
      map (fun o => lr (heap (Optimizers.torch s') o)) [0; 1; 2]
      = [0.1 * f ^ 2; 0.01 * f ^ 1; 0.001]%Q).
Proof.
  split.
  - intros regs a tc e o base d _ Hnd Hin. cbv zeta.
    rewrite registered_update_run. cbn [snd Optimizers.torch heap].
    rewrite scheduled_at with (b := base) (d := d) by assumption.
    cbn [lr]. unfold Utils.rate.
    split; intros Hd.
    + rewrite <- Zdiv_Qdiv.
      destruct (Z.ltb_spec 0 d); [reflexivity | lia].
    + destruct (Z.ltb_spec 0 d); [lia | reflexivity].
  - intros a tc. cbv zeta. rewrite registered_update_run. reflexivity.
Qed.

Lemma update_lr_applies_step_decay_witness :
  (1 <= 4)%Z
  /\ NoDup (map (fun z : ref * Q * Z => fst (fst z)) Scenario.three_regs)
  /\ In (0, 0.1%Q, 2%Z) Scenario.three_regs
  /\ lr (heap (Optimizers.torch
            (snd (Optimizers.update_lr 4
               (snd (register Scenario.three_regs
                  (fresh_optimizers Scenario.toy_args
                     Scenario.blank_torch)))))) 0)
     = (0.1 * Args.lr_decay_factor Scenario.toy_args
              ^ Qfloor (inject_Z 4 / inject_Z 2))%Q.
Proof.
  assert (NoDup (map (fun z : ref * Q * Z => fst (fst z))
                   Scenario.three_regs)) as Hnd.
  { repeat constructor; simpl; intuition discriminate. }
  assert (In (0, 0.1%Q, 2%Z) Scenario.three_regs) as Hin.
  { simpl; auto. }
  split; [lia |]. split; [exact Hnd |]. split; [exact Hin |].
  apply (proj1 (@update_lr_applies_step_decay nat) Scenario.three_regs
           Scenario.toy_args Scenario.blank_torch 4%Z 0 0.1%Q 2%Z
           ltac:(lia) Hnd Hin).
  lia.
Defined.

(** ** Comparison of rationals *)

Lemma Qltb_lt (x y : Q) : Qltb x y = true <-> (x < y)%Q.
Proof.
  unfold Qltb. rewrite negb_true_iff. split.
  - intros H. apply Qnot_le_lt. intros Hle.
    apply Qle_bool_iff in Hle. congruence.
  - intros H. destruct (Qle_bool y x) eqn:E; [| reflexivity].
    apply Qle_bool_iff in E. exfalso. exact (Qlt_not_le _ _ H E).
Qed.

Lemma Qltb_ge (x y : Q) : Qltb x y = false <-> (y <= x)%Q.
Proof.
  unfold Qltb. rewrite negb_false_iff. apply Qle_bool_iff.
Qed.

(** ** [ClassErrorMeter] *)

Module MeterFacts.
Import ClassErrorMeter.

Lemma insert_desc_In row i js x :
  In x (insert_desc row i js) <-> x = i \/ In x js.
Proof.
  induction js as [| j js IH]; simpl.
  - intuition.
  - destruct (Qltb (nth i row 0%Q) (nth j row 0%Q)); simpl.
    + rewrite IH. intuition.
    + intuition.
Qed.

Lemma insert_desc_NoDup row i js :
  NoDup js -> ~ In i js -> NoDup (insert_desc row i js).
Proof.
  induction js as [| j js IH]; simpl; intros Hnd Hi.
  - constructor; [intros [] | constructor].
  - inversion Hnd as [| ? ? Hj Hnd']; subst.
    destruct (Qltb (nth i row 0%Q) (nth j row 0%Q)).
    + constructor.
      * rewrite insert_desc_In. intros [-> | Hin]; tauto.
      * apply IH; tauto.
    + constructor; assumption.
Qed.

Lemma sorted_indices row (l : list nat) :
  NoDup l ->
  NoDup (fold_right (insert_desc row) [] l)
  /\ forall x, In x (fold_right (insert_desc row) [] l) <-> In x l.
Proof.
  induction l as [| i l IH]; simpl; intros Hnd.
  - split; [constructor | tauto].
  - inversion Hnd as [| ? ? Hi Hnd']; subst.
    destruct (IH Hnd') as [IHnd IHin]. split.
    + apply insert_desc_NoDup; [assumption | rewrite IHin; assumption].
    + intros x. rewrite insert_desc_In, IHin. intuition.
Qed.

Lemma argsort_desc_NoDup row : NoDup (argsort_desc row).
Proof. apply sorted_indices, seq_NoDup. Qed.

Lemma firstn_In_of {A} (k : nat) (l : list A) x :
  In x (firstn k l) -> In x l.
Proof.
  revert k; induction l as [| a l IH]; intros [| k]; simpl; intuition eauto.
Qed.

Lemma firstn_NoDup_of {A} (k : nat) (l : list A) :
  NoDup l -> NoDup (firstn k l).
Proof.
  revert k; induction l as [| a l IH]; intros [| k] Hnd; simpl;
    try constructor.
  - inversion Hnd; subst. intros Hin. apply firstn_In_of in Hin. tauto.
  - inversion Hnd; subst. auto.
Qed.

(** Per row, the label is met at most once among the predicted columns. *)
Lemma correct_sum_bounds k pred target :
  Forall (fun p => NoDup p) pred ->
  (0 <= correct_sum k pred target <= Z.of_nat (length pred))%Z.
Proof.
  revert target; induction pred as [| p pred IH]; intros target Hp.
  - simpl. lia.
  - destruct target as [| y target]; [simpl; lia |].
    inversion Hp as [| ? ? Hnd Hp']; subst.
    specialize (IH target Hp').
    assert (count_occ Nat.eq_dec (firstn k p) y <= 1) as Hc.
    { apply NoDup_count_occ, firstn_NoDup_of, Hnd. }
    cbn [correct_sum length]. lia.
Qed.

Lemma topk_indices_rows maxk output :
  length (topk_indices maxk output) = nrows output
  /\ Forall (fun p => NoDup p) (topk_indices maxk output).
Proof.
  unfold topk_indices, nrows. split; [apply length_map |].
  apply Forall_forall. intros p Hin. apply in_map_iff in Hin.
  destruct Hin as (row & <- & _).
  apply firstn_NoDup_of, argsort_desc_NoDup.
Qed.

Lemma dict_get_set k k' v d :
  dict_get k (dict_set k' v d)
  = if k =? k' then Some v else dict_get k d.
Proof.
  induction d as [| [k0 v0] d IH]; simpl.
  - destruct (Nat.eqb_spec k k'); reflexivity.
  - destruct (Nat.eqb_spec k' k0) as [-> | Hne]; simpl.
    + destruct (Nat.eqb_spec k k0); reflexivity.
    + rewrite IH. destruct (Nat.eqb_spec k k0) as [-> | Hne'].
      * destruct (Nat.eqb_spec k0 k'); [congruence | reflexivity].
      * reflexivity.
Qed.

(** [add_sums] adds to the count of every listed k the misses of the batch
    at that k and leaves the other counts alone; it raises exactly when a
    listed k has no entry. *)
Lemma add_sums_ok ks no pred target d d' :
  NoDup ks ->
  add_sums ks no pred target d = Ok d' ->
  (forall k, In k ks ->
     exists v, dict_get k d = Some v
               /\ dict_get k d' = Some (v + (no - correct_sum k pred target))%Z)
  /\ (forall k, ~ In k ks -> dict_get k d' = dict_get k d).
Proof.
  revert d; induction ks as [| k0 ks IH]; intros d Hnd Hrun.
  - simpl in Hrun. inversion Hrun; subst. split; [intros k [] | reflexivity].
  - simpl in Hrun. inversion Hnd as [| ? ? Hk0 Hnd']; subst.
    destruct (dict_get k0 d) as [s |] eqn:Hget; [| discriminate].
    destruct (IH _ Hnd' Hrun) as [Hin Hout]. split.
    + intros k [<- | Hk].
      * exists s. split; [assumption |].
        rewrite (Hout _ Hk0), dict_get_set, Nat.eqb_refl. reflexivity.
      * destruct (Hin k Hk) as (v & Hv & Hv').
        rewrite dict_get_set in Hv.
        destruct (Nat.eqb_spec k k0) as [-> | Hne]; [contradiction |].
        exists v. split; assumption.
    + intros k Hk. simpl in Hk.
      rewrite (Hout k) by tauto. rewrite dict_get_set.
      destruct (Nat.eqb_spec k k0); [subst; tauto | reflexivity].
Qed.

Lemma add_sums_runs ks no pred target d :
  (forall k, In k ks -> exists v, dict_get k d = Some v) ->
  exists d', add_sums ks no pred target d = Ok d'.
Proof.
  revert d; induction ks as [| k0 ks IH]; intros d Hd; simpl.
  - eauto.
  - destruct (Hd k0 (or_introl eq_refl)) as (v & ->).
    apply IH. intros k Hk. rewrite dict_get_set.
    destruct (k =? k0); [eauto | apply Hd; right; assumption].
Qed.

Lemma add_keeps_ok output target m m' :
  meter_ok m ->
  add output target m = Ok m' ->
  meter_ok m'
  /\ topk m' = topk m
  /\ n m' = (n m + Z.of_nat (nrows output))%Z.
Proof.
  intros (Hnd & Hn & Hsum). unfold add.
  destruct (length target =? nrows output); [| discriminate]. simpl.
  destruct (rev (topk m)) as [| maxk ?]; [discriminate |].
  destruct (ncols output <? maxk); [discriminate |].
  destruct (add_sums _ _ _ _ _) as [d |] eqn:Hrun; [| discriminate].
  intros Hm'; inversion Hm'; subst; clear Hm'.
  unfold meter_ok. cbn [topk sum n].
  split; [| split; reflexivity].
  destruct (add_sums_ok _ _ _ _ Hnd Hrun) as [Hin _].
  split; [assumption |]. split; [lia |].
  intros k Hk. destruct (Hin k Hk) as (v & Hv & Hv').
  destruct (Hsum k Hk) as (v0 & Hv0 & Hb). rewrite Hv in Hv0.
  inversion Hv0; subst. eexists; split; [eassumption |].
  destruct (topk_indices_rows maxk output) as [Hlen Hrows].
  pose proof (correct_sum_bounds k target Hrows) as Hc.
  rewrite Hlen in Hc. lia.
Qed.

(** A count between zero and a positive total is a percentage. *)
Lemma percentage_of_counts (s total : Z) :
  (0 <= s <= total)%Z -> (0 < total)%Z ->
  percentage (inject_Z s / inject_Z total * 100)%Q.
Proof.
  intros Hs Ht. destruct total as [| t | t]; try lia.
  unfold percentage, Qle, Qdiv, Qmult, Qinv, inject_Z. simpl. split; nia.
Qed.

Lemma values_ok m ks vs :
  (0 <= n m)%Z ->
  (forall k, In k ks ->
     exists v, dict_get k (sum m) = Some v /\ (0 <= v <= n m)%Z) ->
  values m ks = Ok vs ->
  length vs = length ks /\ Forall percentage vs.
Proof.
  intros Hn. revert vs; induction ks as [| k ks IH]; intros vs Hks Hrun.
  - simpl in Hrun. inversion Hrun; subst. split; [reflexivity | constructor].
  - simpl in Hrun. unfold value_at in Hrun.
    destruct (Hks k (or_introl eq_refl)) as (v & Hv & Hb). rewrite Hv in Hrun.
    destruct (Z.eqb_spec (n m) 0) as [| Hnz]; [discriminate |].
    destruct (values m ks) as [vs' |]; [| discriminate].
    inversion Hrun; subst.
    destruct (IH vs') as [Hl Hp]; [intros; apply Hks; right; assumption
                                  | reflexivity |].
    split; [simpl; congruence |].
    constructor; [apply percentage_of_counts; lia | assumption].
Qed.

Lemma value_ok m vs :
  meter_ok m -> value m = Ok vs ->
  length vs = length (topk m) /\ Forall percentage vs.
Proof.
  intros (_ & Hn & Hsum). apply values_ok; assumption.
Qed.

Lemma init_ok_1 : meter_ok (init [1]).
Proof.
  split; [repeat constructor; simpl; tauto |]. split; [simpl; lia |].
  intros k [<- | []]. exists 0%Z. split; [reflexivity | simpl; lia].
Qed.

Lemma init_ok_1_5 : meter_ok (init [1; 5]).
Proof.
  split; [repeat constructor; simpl; intuition discriminate |].
  split; [simpl; lia |].
  intros k [<- | [<- | []]]; exists 0%Z; (split; [reflexivity | simpl; lia]).
Qed.

End MeterFacts.

(** ** The order of the predicted columns *)

Module RankFacts.
Import ClassErrorMeter.

Lemma comes_before_spec row a b :
  comes_before row a b = true
  <-> (nth b row 0 < nth a row 0)%Q
      \/ ((nth a row 0 == nth b row 0)%Q /\ a < b).
Proof.
  unfold comes_before. rewrite orb_true_iff, andb_true_iff, Qltb_lt,
    Qeq_bool_iff, Nat.ltb_lt. reflexivity.
Qed.

Lemma comes_before_irrefl row a : comes_before row a a = false.
Proof.
  apply not_true_is_false. rewrite comes_before_spec.
  intros [H | [_ H]]; [exact (Qlt_irrefl _ H) | lia].
Qed.

Lemma comes_before_asym row a b :
  comes_before row a b = true -> comes_before row b a = false.
Proof.
  intros Hab. apply not_true_is_false. intros Hba.
  apply comes_before_spec in Hab, Hba.
  destruct Hab as [Hab | [Hab Hlt]], Hba as [Hba | [Hba Hlt']].
  - exact (Qlt_irrefl _ (Qlt_trans _ _ _ Hab Hba)).
  - rewrite Hba in Hab. exact (Qlt_irrefl _ Hab).
  - rewrite Hab in Hba. exact (Qlt_irrefl _ Hba).
  - lia.
Qed.

Lemma comes_before_trans row a b c :
  comes_before row a b = true -> comes_before row b c = true ->
  comes_before row a c = true.
Proof.
  intros Hab Hbc. apply comes_before_spec in Hab, Hbc.
  apply comes_before_spec.
  destruct Hab as [Hab | [Hab Hlt]], Hbc as [Hbc | [Hbc Hlt']].
  - left. exact (Qlt_trans _ _ _ Hbc Hab).
  - left. rewrite <- Hbc. exact Hab.
  - left. rewrite Hab. exact Hbc.
  - right. split; [rewrite Hab; exact Hbc | lia].
Qed.

(** Inserting a column of lower index than those present keeps the order. *)
Lemma insert_desc_sorted row i js :
  Forall (fun j => i < j) js ->
  StronglySorted (fun a b => comes_before row a b = true) js ->
  StronglySorted (fun a b => comes_before row a b = true)
    (insert_desc row i js).
Proof.
  induction js as [| j js IH]; intros Hlow Hsorted; simpl.
  - constructor; constructor.
  - inversion Hlow as [| ? ? Hij Hlow']; subst.
    inversion Hsorted as [| ? ? Hs Hall]; subst.
    destruct (Qltb (nth i row 0%Q) (nth j row 0%Q)) eqn:Hlt.
    + constructor; [apply IH; assumption |].
      apply Forall_forall. intros x Hx.
      apply MeterFacts.insert_desc_In in Hx. destruct Hx as [-> | Hx].
      * apply comes_before_spec. left. apply Qltb_lt. exact Hlt.
      * rewrite Forall_forall in Hall. apply Hall, Hx.
    + assert (comes_before row i j = true) as Hbefore.
      { apply comes_before_spec. apply Qltb_ge in Hlt.
        apply Qle_lt_or_eq in Hlt. destruct Hlt as [Hlt | Heq].
        - left. exact Hlt.
        - right. split; [symmetry; exact Heq | exact Hij]. }
      constructor; [exact Hsorted |].
      constructor; [exact Hbefore |].
      apply Forall_forall. intros x Hx.
      rewrite Forall_forall in Hall.
      exact (comes_before_trans _ _ _ _ Hbefore (Hall x Hx)).
Qed.

Lemma sorted_from row start len :
  StronglySorted (fun a b => comes_before row a b = true)
    (fold_right (insert_desc row) [] (seq start len)).
Proof.
  revert start; induction len as [| len IH]; intros start; simpl.
  - constructor.
  - apply insert_desc_sorted; [| apply IH].
    apply Forall_forall. intros x Hx.
    apply (MeterFacts.sorted_indices row (seq_NoDup len (S start))) in Hx.
    apply in_seq in Hx. lia.
Qed.

Lemma argsort_desc_sorted row :
  StronglySorted (fun a b => comes_before row a b = true) (argsort_desc row).
Proof. apply sorted_from. Qed.

Lemma argsort_desc_In row x : In x (argsort_desc row) <-> x < length row.
Proof.
  unfold argsort_desc.
  rewrite (proj2 (MeterFacts.sorted_indices row (seq_NoDup (length row) 0))).
  rewrite in_seq. lia.
Qed.

(** In an ordered list without repetition, a member is among the first [k]
    exactly when fewer than [k] members come before it. *)
Lemma count_in_prefix row y (l : list nat) :
  StronglySorted (fun a b => comes_before row a b = true) l ->
  NoDup l -> In y l ->
  forall k,
    count_occ Nat.eq_dec (firstn k l) y
    = if length (filter (fun j => comes_before row j y) l) <? k
      then 1 else 0.
Proof.
  induction l as [| a l IH]; intros Hsorted Hnd Hin k; [destruct Hin |].
  inversion Hsorted as [| ? ? Hs Hall]; subst.
  inversion Hnd as [| ? ? Ha Hnd']; subst.
  rewrite Forall_forall in Hall.
  destruct k as [| k].
  { reflexivity. }
  cbn [firstn filter].
  destruct (Nat.eq_dec a y) as [-> | Hne].
  - rewrite count_occ_cons_eq by reflexivity.
    rewrite comes_before_irrefl.
    assert (count_occ Nat.eq_dec (firstn k l) y = 0) as ->.
    { apply count_occ_not_In. intros Hx.
      apply MeterFacts.firstn_In_of in Hx. contradiction. }
    assert (filter (fun j => comes_before row j y) l = []) as ->.
    { clear IH Hs Hnd' Ha Hsorted Hnd Hin.
      induction l as [| x l IHl]; [reflexivity |]. simpl.
      rewrite (comes_before_asym _ _ _ (Hall x (or_introl eq_refl))).
      apply IHl. intros z Hz. apply Hall. right. exact Hz. }
    reflexivity.
  - rewrite count_occ_cons_neq by exact Hne.
    destruct Hin as [Heq | Hin]; [contradiction |].
    rewrite (Hall y Hin). cbn [length].
    rewrite (IH Hs Hnd' Hin k). reflexivity.
Qed.

Lemma filter_length_perm {A} (f : A -> bool) (l l' : list A) :
  Permutation l l' -> length (filter f l) = length (filter f l').
Proof.
  induction 1 as [| x l l' _ IH | x y l | l l' l'' _ IH1 _ IH2]; simpl.
  - reflexivity.
  - destruct (f x); simpl; congruence.
  - destruct (f x), (f y); reflexivity.
  - congruence.
Qed.

(** The meter's test, whether the label is among the first [k] predicted
    columns, is the test on the scores. *)
Lemma topk_hit row k y :
  count_occ Nat.eq_dec (firstn k (argsort_desc row)) y
  = if among_best k row y then 1 else 0.
Proof.
  unfold among_best. destruct (Nat.ltb_spec y (length row)) as [Hy | Hy].
  - rewrite (@count_in_prefix row y (argsort_desc row)
               (argsort_desc_sorted row)
               (MeterFacts.argsort_desc_NoDup row)
               (proj2 (argsort_desc_In row y) Hy) k).
    rewrite (@filter_length_perm nat (fun j => comes_before row j y)
               (argsort_desc row) (seq 0 (length row))).
    + reflexivity.
    + apply NoDup_Permutation;
        [apply MeterFacts.argsort_desc_NoDup | apply seq_NoDup |].
      intros x. rewrite argsort_desc_In, in_seq. lia.
  - cbn [andb]. apply count_occ_not_In. intros Hx.
    apply MeterFacts.firstn_In_of, argsort_desc_In in Hx. lia.
Qed.

(** What [add] puts on the count under [k] for one batch. *)
Lemma misses_correct_sum k maxk (rs : list (list Q)) (target : list nat) :
  k <= maxk -> length target = length rs ->
  (Z.of_nat (length rs)
   - correct_sum k (map (fun row => firstn maxk (argsort_desc row)) rs)
       target)%Z
  = misses k rs target.
Proof.
  intros Hk. revert target; induction rs as [| row rs IH];
    intros [| y target] Hlen; try discriminate; [reflexivity |].
  cbn [map correct_sum misses length].
  rewrite firstn_firstn, Nat.min_l by exact Hk.
  rewrite topk_hit. rewrite <- (IH target) by (simpl in Hlen; lia).
  destruct (among_best k row y); lia.
Qed.

Lemma misses_bounds k (rs : list (list Q)) (target : list nat) :
  (0 <= misses k rs target <= Z.of_nat (length rs))%Z.
Proof.
  revert target; induction rs as [| row rs IH]; intros [| y target];
    cbn [misses length]; try lia.
  specialize (IH target). destruct (among_best k row y); lia.
Qed.

Lemma pass_misses_app k outs out :
  pass_misses k (outs ++ [out])
  = (pass_misses k outs + misses k (rows (fst out)) (snd out))%Z.
Proof.
  unfold pass_misses. induction outs as [| o outs IH]; simpl; [lia |].
  rewrite IH. lia.
Qed.

Lemma pass_samples_app outs out :
  pass_samples (outs ++ [out])
  = (pass_samples outs + Z.of_nat (nrows (fst out)))%Z.
Proof.
  unfold pass_samples. induction outs as [| o outs IH]; simpl; [lia |].
  rewrite IH. lia.
Qed.

Lemma pass_misses_bounds k outs :
  (0 <= pass_misses k outs <= pass_samples outs)%Z.
Proof.
  unfold pass_misses, pass_samples.
  induction outs as [| [scores label] outs IH]; cbn [fold_right fst snd];
    [lia |].
  pose proof (misses_bounds k (rows scores) label) as Hb.
  unfold nrows in *. lia.
Qed.

(** One [add] on a meter that holds the misses of the outputs so far: it
    returns exactly when the output fits, and then holds the misses of the
    outputs with the new one. *)
Lemma add_tracked width done em output target :
  topk em = k_values width ->
  n em = pass_samples done ->
  (forall k, In k (k_values width) ->
     dict_get k (sum em) = Some (pass_misses k done)) ->
  if fits (if 5 <? width then 5 else 1) (output, target)
  then exists em',
         add output target em = Ok em'
         /\ topk em' = k_values width
         /\ n em' = pass_samples (done ++ [(output, target)])
         /\ forall k, In k (k_values width) ->
              dict_get k (sum em')
              = Some (pass_misses k (done ++ [(output, target)]))
  else exists e, add output target em = Raise e.
Proof.
  intros Htopk Hn Hsum. unfold fits, add. cbn [fst snd].
  destruct (length target =? nrows output) eqn:Hlen; cbn [negb andb];
    [| eauto].
  apply Nat.eqb_eq in Hlen.
  assert (NoDup (k_values width)
          /\ rev (k_values width)
             = (if 5 <? width then 5 else 1)
               :: (if 5 <? width then [1] else [])
          /\ forall k, In k (k_values width) ->
               k <= if 5 <? width then 5 else 1)
    as (Hnd & Hrev & Hmax).
  { unfold k_values. destruct (5 <? width).
    - split; [repeat constructor; simpl; intuition discriminate |].
      split; [reflexivity |]. intros k [<- | [<- | []]]; lia.
    - split; [repeat constructor; simpl; tauto |].
      split; [reflexivity |]. intros k [<- | []]; lia. }
  rewrite Htopk, Hrev.
  set (maxk := if 5 <? width then 5 else 1) in *.
  destruct (Nat.leb_spec maxk (ncols output)) as [Hw | Hw];
    destruct (Nat.ltb_spec (ncols output) maxk) as [Hw' | Hw']; try lia;
    [| eauto].
  cbv zeta.
  destruct (MeterFacts.add_sums_runs (k_values width)
              (Z.of_nat (nrows output)) (topk_indices maxk output) target
              (sum em)) as (d & Hrun).
  { intros k Hk. rewrite (Hsum k Hk). eauto. }
  rewrite Hrun. eexists. split; [reflexivity |]. cbn [topk n sum].
  split; [reflexivity |].
  split; [rewrite pass_samples_app, Hn; reflexivity |].
  intros k Hk.
  destruct (MeterFacts.add_sums_ok _ _ _ _ Hnd Hrun) as [Hin _].
  destruct (Hin k Hk) as (v & Hv & Hv').
  rewrite (Hsum k Hk) in Hv. inversion Hv; subst v.
  rewrite Hv', pass_misses_app. cbn [fst snd].
  unfold topk_indices, nrows.
  rewrite (@misses_correct_sum k maxk (rows output) target (Hmax k Hk) Hlen).
  reflexivity.
Qed.

Lemma init_tracked width :
  topk (init (k_values width)) = k_values width
  /\ n (init (k_values width)) = pass_samples []
  /\ forall k, In k (k_values width) ->
       dict_get k (sum (init (k_values width))) = Some (pass_misses k []).
Proof.
  unfold k_values. destruct (5 <? width).
  - split; [reflexivity |]. split; [reflexivity |].
    intros k [<- | [<- | []]]; reflexivity.
  - split; [reflexivity |]. split; [reflexivity |].
    intros k [<- | []]; reflexivity.
Qed.

(** The errors that a meter holding the misses of a pass reports. *)
Lemma value_tracked width outs em :
  topk em = k_values width ->
  n em = pass_samples outs ->
  (forall k, In k (k_values width) ->
     dict_get k (sum em) = Some (pass_misses k outs)) ->
  value em
  = if (0 <? pass_samples outs)%Z
    then Ok (if 5 <? width
             then [topk_error outs 1; topk_error outs 5]
             else [topk_error outs 1])
    else Raise ZeroDivisionError.
Proof.
  intros Htopk Hn Hsum. unfold value. rewrite Htopk.
  pose proof (pass_misses_bounds 1 outs) as Hb.
  unfold k_values in *. unfold topk_error.
  destruct (5 <? width); cbn [values]; unfold value_at.
  - rewrite (Hsum 1) by (simpl; auto). rewrite (Hsum 5) by (simpl; auto).
    rewrite Hn.
    destruct (Z.eqb_spec (pass_samples outs) 0) as [Hz | Hz];
      destruct (Z.ltb_spec 0 (pass_samples outs)); try lia; reflexivity.
  - rewrite (Hsum 1) by (simpl; auto). rewrite Hn.
    destruct (Z.eqb_spec (pass_samples outs) 0) as [Hz | Hz];
      destruct (Z.ltb_spec 0 (pass_samples outs)); try lia; reflexivity.
Qed.

Lemma topk_error_percentage outs k :
  (0 < pass_samples outs)%Z -> percentage (topk_error outs k).
Proof.
  intros Hpos. apply MeterFacts.percentage_of_counts;
    [apply pass_misses_bounds | exact Hpos].
Qed.

End RankFacts.

(** ** [Manager.eval] *)

Section EvalFacts.
Context {P X : Type} {ext : Collaborators P X}.

(** [eval], one outcome at a time. *)
Lemma eval_cases (s : Manager.state P X) :
  Manager.eval s
  = match for_locals (Manager.test_data_loader (Manager.self s))
            Manager.eval_batch no_locals (eval_entered s) with
    | (Raise e, s2) => (Raise e, s2)
    | (Ok l, s2) =>
        match Manager.error_meter l with
        | None => (Raise AttributeError, s2)
        | Some em =>
            match ClassErrorMeter.value em with
            | Raise e => (Raise e, s2)
            | Ok error =>
                match Manager.topk l with
                | None => (Raise UnboundLocalError, s2)
                | Some ks =>
                    (Ok error,
                     snd (Manager.model_train
                            (snd (Manager.print
                                    (MsgEval (combine ks error)) s2))))
                end
            end
        end
    end.
Proof.
  unfold Manager.eval, eval_entered.
  unfold bind at 1. cbn [Manager.model_eval modify].
  unfold bind at 1. cbn [Manager.print modify].
  unfold bind at 1. cbn [gets fst snd].
  unfold bind at 1. cbn [Manager.set_self Manager.set_model Manager.self
                         Manager.test_data_loader].
  fold no_locals.
  destruct (for_locals _ _ _ _) as [[l | e] s2]; [| reflexivity].
  unfold bind at 1.
  destruct (Manager.error_meter l) as [em |]; [| reflexivity].
  unfold of_res. destruct (ClassErrorMeter.value em) as [error | e];
    [| reflexivity].
  unfold bind at 1.
  destruct (Manager.topk l) as [ks |]; [| reflexivity].
  reflexivity.
Qed.

(** A batch of the loop of [eval], one outcome at a time. *)
Lemma eval_batch_cases (l : Manager.eval_locals) (batch : X)
    (label : list nat) (s : Manager.state P X) :
  Manager.eval_batch l (batch, label) s
  = match forward (Manager.model (Manager.self s))
            {| data := batch;
               on := if Manager.cuda (Manager.self s) then GPU else CPU;
               volatile := true |}
            (params (Manager.torch s)) with
    | (Raise e, p') => (Raise e, Manager.set_params_of p' s)
    | (Ok scores, p') =>
        let em := match Manager.error_meter l with
                  | None => ClassErrorMeter.init (k_values (ncols scores))
                  | Some em => em
                  end in
        let ks := match Manager.error_meter l with
                  | None => Some (k_values (ncols scores))
                  | Some _ => Manager.topk l
                  end in
        match ClassErrorMeter.add scores label em with
        | Raise e => (Raise e, Manager.set_params_of p' s)
        | Ok em' =>
            (Ok {| Manager.error_meter := Some em'; Manager.topk := ks |},
             Manager.set_params_of p' s)
        end
    end.
Proof.
  unfold Manager.eval_batch.
  unfold bind at 1. cbn [gets].
  unfold bind at 1. cbn [gets].
  unfold bind at 1. unfold Manager.on_params at 1, zoom.
  destruct (forward _ _ _) as [[scores | e] p']; [| reflexivity].
  unfold k_values.
  destruct (Manager.error_meter l) as [em |] eqn:Hem.
  - unfold bind at 1, ret at 1. rewrite Hem.
    unfold bind, of_res, ret.
    destruct (ClassErrorMeter.add scores label em); reflexivity.
  - unfold bind at 1, ret at 1. cbn [Manager.error_meter Manager.topk].
    unfold bind, of_res, ret.
    destruct (5 <? ncols scores);
      destruct (ClassErrorMeter.add scores label _); reflexivity.
Qed.

(** The loop of [eval] changes nothing but the parameters. *)
Lemma eval_loop_keeps {B} (f : Manager.state P X -> B) loader l :
  (forall p s, f (Manager.set_params_of p s) = f s) ->
  keeps f (for_locals loader Manager.eval_batch l).
Proof.
  intros Hf. apply keeps_for_locals. clear l.
  intros l [batch label] s. rewrite eval_batch_cases.
  destruct (forward _ _ _) as [[scores | e] p']; [| apply Hf].
  cbv zeta. destruct (ClassErrorMeter.add _ _ _); apply Hf.
Qed.

Lemma k_values_ok width : meter_ok (ClassErrorMeter.init (k_values width)).
Proof.
  unfold k_values. destruct (5 <? width);
    [apply MeterFacts.init_ok_1_5 | apply MeterFacts.init_ok_1].
Qed.

Lemma k_values_topk width :
  ClassErrorMeter.topk (ClassErrorMeter.init (k_values width))
  = k_values width.
Proof. unfold k_values. destruct (5 <? width); reflexivity. Qed.

Lemma k_values_length width :
  length (k_values width) = if 5 <? width then 2 else 1.
Proof. unfold k_values. destruct (5 <? width); reflexivity. Qed.

(** A successful first batch fixes the k values from its width. *)
Lemma eval_batch_first batch label (s : Manager.state P X) l' s' :
  Manager.eval_batch no_locals (batch, label) s = (Ok l', s') ->
  exists scores p',
    forward (Manager.model (Manager.self s))
      {| data := batch;
         on := if Manager.cuda (Manager.self s) then GPU else CPU;
         volatile := true |}
      (params (Manager.torch s)) = (Ok scores, p')
    /\ ready (ncols scores) 0 l'.
Proof.
  rewrite eval_batch_cases.
  destruct (forward _ _ _) as [[scores | e] p']; [| discriminate].
  cbn [no_locals Manager.error_meter Manager.topk].
  destruct (ClassErrorMeter.add _ _ _) as [em' |] eqn:Hadd; [| discriminate].
  intros H; inversion H; subst; clear H.
  exists scores, p'. split; [reflexivity |].
  destruct (MeterFacts.add_keeps_ok _ _ (k_values_ok _) Hadd)
    as (Hok & Htopk & Hn).
  exists em'. cbn [Manager.error_meter Manager.topk].
  rewrite Htopk, k_values_topk.
  split; [reflexivity |]. split; [reflexivity |]. split; [reflexivity |].
  split; [exact Hok |].
  destruct Hok as (_ & Hn0 & _). exact Hn0.
Qed.

(** Later batches keep them. *)
Lemma eval_batch_next width seen l item (s : Manager.state P X) l' s' :
  ready width seen l ->
  Manager.eval_batch l item s = (Ok l', s') ->
  ready width seen l'.
Proof.
  intros (em & Hem & Hks & Htopk & Hok & Hseen). destruct item as [batch label].
  rewrite eval_batch_cases.
  destruct (forward _ _ _) as [[scores | e] p']; [| discriminate].
  rewrite Hem. cbv zeta.
  destruct (ClassErrorMeter.add _ _ _) as [em' |] eqn:Hadd; [| discriminate].
  intros H; inversion H; subst; clear H.
  destruct (MeterFacts.add_keeps_ok _ _ Hok Hadd) as (Hok' & Htopk' & Hn).
  exists em'. cbn [Manager.error_meter Manager.topk].
  split; [reflexivity |]. split; [assumption |]. split; [congruence |].
  split; [exact Hok' | lia].
Qed.

Lemma eval_loop_next width seen loader l (s : Manager.state P X) l' s' :
  ready width seen l ->
  for_locals loader Manager.eval_batch l s = (Ok l', s') ->
  ready width seen l'.
Proof.
  revert l s; induction loader as [| item loader IH]; intros l s Hl Hrun.
  - simpl in Hrun. inversion Hrun; subst. exact Hl.
  - simpl in Hrun. apply bind_ok_inv in Hrun.
    destruct Hrun as (l1 & s1 & Hb & Hrest).
    eapply IH; [| exact Hrest]. eapply eval_batch_next; eassumption.
Qed.

Lemma eval_entered_trace (s : Manager.state P X) :
  Manager.trace (eval_entered s)
  = Manager.trace s ++ [Printed MsgPerformingEval].
Proof. reflexivity. Qed.

(** What a normal return of [eval] tells. *)
Lemma eval_ok_inv (s : Manager.state P X) errs s' :
  Manager.eval s = (Ok errs, s') ->
  exists batch label rest scores p' em,
    Manager.test_data_loader (Manager.self s) = (batch, label) :: rest
    /\ forward {| training := false;
                  device := device (Manager.model (Manager.self s)) |}
         {| data := batch;
            on := if Manager.cuda (Manager.self s) then GPU else CPU;
            volatile := true |}
         (params (Manager.torch s)) = (Ok scores, p')
    /\ meter_ok em
    /\ ClassErrorMeter.topk em = k_values (ncols scores)
    /\ ClassErrorMeter.value em = Ok errs
    /\ Manager.trace s'
       = Manager.trace s
         ++ [Printed MsgPerformingEval;
             Printed (MsgEval (combine (k_values (ncols scores)) errs))].
Proof.
  rewrite eval_cases.
  destruct (for_locals _ _ _ _) as [[l | e] s2] eqn:Hloop; [| discriminate].
  destruct (Manager.error_meter l) as [em |] eqn:Hem; [| discriminate].
  destruct (ClassErrorMeter.value em) as [error |] eqn:Hval; [| discriminate].
  destruct (Manager.topk l) as [ks |] eqn:Hks; [| discriminate].
  intros H; inversion H; subst; clear H.
  pose proof (eval_loop_keeps (@Manager.trace P X)
                (Manager.test_data_loader (Manager.self s)) no_locals
                (fun p s => eq_refl) (eval_entered s)) as Htrace.
  rewrite Hloop, eval_entered_trace in Htrace. cbn [snd] in Htrace.
  destruct (Manager.test_data_loader (Manager.self s))
    as [| [batch label] rest] eqn:Hloader.
  { simpl in Hloop. inversion Hloop; subst. discriminate Hem. }
  cbn [for_locals] in Hloop. apply bind_ok_inv in Hloop.
  destruct Hloop as (l1 & s1 & Hfirst & Hrest).
  apply eval_batch_first in Hfirst.
  destruct Hfirst as (scores & p' & Hfw & Hready).
  destruct (eval_loop_next _ _ Hready Hrest)
    as (em' & Hem' & Hks' & Htopk & Hok & _).
  rewrite Hem in Hem'. inversion Hem'; subst em'.
  rewrite Hks in Hks'. inversion Hks'; subst ks.
  exists batch, label, rest, scores, p', em.
  split; [reflexivity |]. split; [exact Hfw |].
  split; [exact Hok |]. split; [exact Htopk |]. split; [exact Hval |].
  cbn [Manager.model_train Manager.print modify snd Manager.set_self
       Manager.trace].
  rewrite Htrace, <- app_assoc. reflexivity.
Qed.

(** The outputs of a pass, one batch at a time. *)
Lemma pass_outputs_cons m c batch label rest (p : P) :
  pass_outputs m c ((batch, label) :: rest) p
  = match forward m {| data := batch; on := if c then GPU else CPU;
                       volatile := true |} p with
    | (Raise e, p1) => (Raise e, p1)
    | (Ok scores, p1) =>
        match pass_outputs m c rest p1 with
        | (Raise e, p2) => (Raise e, p2)
        | (Ok outs, p2) => (Ok ((scores, label) :: outs), p2)
        end
    end.
Proof.
  cbn [pass_outputs]. unfold bind, ret.
  destruct (forward _ _ _) as [[scores | e] p1]; [| reflexivity].
  destruct (pass_outputs _ _ _ _) as [[outs | e] p2]; reflexivity.
Qed.

Lemma pass_outputs_labels m c loader (p : P) outs p' :
  pass_outputs m c loader p = (Ok outs, p') ->
  map snd outs = map snd loader.
Proof.
  revert p outs; induction loader as [| [batch label] rest IH];
    intros p outs Hrun.
  - inversion Hrun; reflexivity.
  - rewrite pass_outputs_cons in Hrun.
    destruct (forward _ _ _) as [[scores | e] p1]; [| discriminate].
    destruct (pass_outputs _ _ _ _) as [[outs1 | e] p2] eqn:Hrest;
      [| discriminate].
    inversion Hrun; subst. simpl. rewrite (IH _ _ Hrest). reflexivity.
Qed.

Lemma eval_loop_cons item rest l (s : Manager.state P X) :
  for_locals (item :: rest) Manager.eval_batch l s
  = match Manager.eval_batch l item s with
    | (Ok l1, s1) => for_locals rest Manager.eval_batch l1 s1
    | (Raise e, s1) => (Raise e, s1)
    end.
Proof. reflexivity. Qed.

(** The loop of [eval] after the first batch: it goes through the rest of
    the stream exactly when the network answers every batch with an output
    that fits, and then the meter holds the misses of the whole pass. *)
Lemma eval_loop_tracked width loader :
  forall done l (s : Manager.state P X),
    tracks width done l ->
    match pass_outputs (Manager.model (Manager.self s))
            (Manager.cuda (Manager.self s)) loader
            (params (Manager.torch s)) with
    | (Ok outs, p') =>
        if forallb (fits (if 5 <? width then 5 else 1)) outs
        then exists l',
               for_locals loader Manager.eval_batch l s
               = (Ok l', Manager.set_params_of p' s)
               /\ tracks width (done ++ outs) l'
        else exists e s',
               for_locals loader Manager.eval_batch l s = (Raise e, s')
    | (Raise _, _) =>
        exists e s', for_locals loader Manager.eval_batch l s = (Raise e, s')
    end.
Proof.
  induction loader as [| [batch label] rest IH]; intros done l s Hl.
  - cbn [pass_outputs for_locals forallb]. unfold ret.
    exists l. split; [| rewrite app_nil_r; exact Hl].
    destruct s as [? ? [? ? ?] ? ?]; reflexivity.
  - rewrite pass_outputs_cons, eval_loop_cons, eval_batch_cases.
    destruct (forward _ _ _) as [[scores | e] p1]; [| eauto].
    destruct Hl as (em & Hem & Hks & T1 & T2 & T3). rewrite Hem. cbv zeta.
    pose proof (@RankFacts.add_tracked width done em scores label T1 T2 T3)
      as Hadd.
    specialize (IH (done ++ [(scores, label)])).
    destruct (fits (if 5 <? width then 5 else 1) (scores, label)) eqn:Hfit.
    + destruct Hadd as (em1 & Hadd & A1 & A2 & A3). rewrite Hadd.
      specialize (IH {| Manager.error_meter := Some em1;
                        Manager.topk := Manager.topk l |}
                     (Manager.set_params_of p1 s)).
      change (Manager.model (Manager.self (Manager.set_params_of p1 s)))
        with (Manager.model (Manager.self s)) in IH.
      change (Manager.cuda (Manager.self (Manager.set_params_of p1 s)))
        with (Manager.cuda (Manager.self s)) in IH.
      change (params (Manager.torch (Manager.set_params_of p1 s)))
        with p1 in IH.
      assert (tracks width (done ++ [(scores, label)])
                {| Manager.error_meter := Some em1;
                   Manager.topk := Manager.topk l |}) as Hl1.
      { exists em1. cbn [Manager.error_meter Manager.topk].
        split; [reflexivity |]. split; [exact Hks |].
        split; [exact A1 |]. split; [exact A2 | exact A3]. }
      specialize (IH Hl1).
      destruct (pass_outputs _ _ rest p1) as [[outs | e] p2]; [| exact IH].
      cbn [forallb]. rewrite Hfit. cbn [andb].
      destruct (forallb _ outs); [| exact IH].
      destruct IH as (l' & Hrun & Hl').
      exists l'. split; [exact Hrun |].
      rewrite <- app_assoc in Hl'. exact Hl'.
    + destruct Hadd as (e & Hadd). rewrite Hadd.
      destruct (pass_outputs _ _ rest p1) as [[outs | e'] p2]; [| eauto].
      cbn [forallb]. rewrite Hfit. cbn [andb]. eauto.
Qed.

(** [eval], by the outputs of the pass: it returns exactly when the network
    answers every batch and the outputs can be evaluated, and then with the
    top-1 error of the pass, followed by its top-5 error when the first
    output has more than five columns. *)
Lemma eval_by_pass (s : Manager.state P X) :
  match pass_outputs {| training := false;
                        device := device (Manager.model (Manager.self s)) |}
          (Manager.cuda (Manager.self s))
          (Manager.test_data_loader (Manager.self s))
          (params (Manager.torch s)) with
  | (Ok [], _) => exists e s', Manager.eval s = (Raise e, s')
  | (Ok ((first, label) :: rest), p') =>
      let outs := (first, label) :: rest in
      let errs := if 5 <? ncols first
                  then [topk_error outs 1; topk_error outs 5]
                  else [topk_error outs 1] in
      if evaluable outs
      then exists s',
             Manager.eval s = (Ok errs, s')
             /\ Manager.trace s'
                = Manager.trace s
                  ++ [Printed MsgPerformingEval;
                      Printed (MsgEval
                        (combine (if 5 <? ncols first then [1; 5] else [1])
                                 errs))]
             /\ params (Manager.torch s') = p'
             /\ training (Manager.model (Manager.self s')) = true
      else exists e s', Manager.eval s = (Raise e, s')
  | (Raise _, _) => exists e s', Manager.eval s = (Raise e, s')
  end.
Proof.
  rewrite eval_cases.
  destruct (Manager.test_data_loader (Manager.self s))
    as [| [batch label] rest].
  { cbn [pass_outputs for_locals]. unfold ret.
    cbn [no_locals Manager.error_meter]. eauto. }
  rewrite pass_outputs_cons, eval_loop_cons, eval_batch_cases.
  change (Manager.model (Manager.self (eval_entered s)))
    with {| training := false;
            device := device (Manager.model (Manager.self s)) |}.
  change (Manager.cuda (Manager.self (eval_entered s)))
    with (Manager.cuda (Manager.self s)).
  change (params (Manager.torch (eval_entered s)))
    with (params (Manager.torch s)).
  destruct (forward _ _ _) as [[scores | e] p1]; [| eauto].
  cbn [no_locals Manager.error_meter Manager.topk]. cbv zeta.
  destruct (RankFacts.init_tracked (ncols scores)) as (I1 & I2 & I3).
  pose proof (@RankFacts.add_tracked (ncols scores) [] _ scores label
                I1 I2 I3) as Hadd.
  destruct (fits (if 5 <? ncols scores then 5 else 1) (scores, label))
    eqn:Hfit.
  - destruct Hadd as (em1 & Hadd & A1 & A2 & A3). rewrite Hadd.
    pose proof (@eval_loop_tracked (ncols scores) rest [(scores, label)]
                  {| Manager.error_meter := Some em1;
                     Manager.topk := Some (k_values (ncols scores)) |}
                  (Manager.set_params_of p1 (eval_entered s))) as Hloop.
    change (Manager.model (Manager.self
              (Manager.set_params_of p1 (eval_entered s))))
      with {| training := false;
              device := device (Manager.model (Manager.self s)) |} in Hloop.
    change (Manager.cuda (Manager.self
              (Manager.set_params_of p1 (eval_entered s))))
      with (Manager.cuda (Manager.self s)) in Hloop.
    change (params (Manager.torch
              (Manager.set_params_of p1 (eval_entered s))))
      with p1 in Hloop.
    assert (tracks (ncols scores) [(scores, label)]
              {| Manager.error_meter := Some em1;
                 Manager.topk := Some (k_values (ncols scores)) |}) as Hl1.
    { exists em1. cbn [Manager.error_meter Manager.topk].
      split; [reflexivity |]. split; [reflexivity |].
      split; [exact A1 |]. split; [exact A2 | exact A3]. }
    specialize (Hloop Hl1).
    destruct (pass_outputs _ _ rest p1) as [[outs | e] p2].
    + cbv zeta. cbn [evaluable forallb]. rewrite Hfit. cbn [andb].
      destruct (forallb _ outs).
      * destruct Hloop as (l' & Hrun & em & Hem & Hks & T1 & T2 & T3).
        rewrite Hrun, Hem.
        rewrite (@RankFacts.value_tracked (ncols scores)
                   ([(scores, label)] ++ outs) em T1 T2 T3).
        cbn [app andb].
        destruct (0 <? pass_samples ((scores, label) :: outs))%Z;
          [| eauto].
        rewrite Hks. eexists. split; [reflexivity |].
        unfold k_values.
        cbn [Manager.model_train Manager.print modify snd Manager.set_self
             Manager.set_model Manager.trace Manager.torch Manager.self
             Manager.model training Manager.set_params_of Manager.set_torch
             set_params params].
        split; [| split; reflexivity].
        rewrite eval_entered_trace, <- app_assoc. reflexivity.
      * cbn [andb]. destruct Hloop as (e & s' & ->). eauto.
    + destruct Hloop as (e' & s' & ->). eauto.
  - destruct Hadd as (e & Hadd). rewrite Hadd.
    destruct (pass_outputs _ _ rest p1) as [[outs | e'] p2]; [| eauto].
    cbv zeta. cbn [evaluable forallb]. rewrite Hfit. cbn [andb]. eauto.
Qed.

(** C5, as the code has it: whenever [eval] returns, the network has
    answered every batch of a stream that is not empty, and [eval] returns
    the top-1 error of the whole pass followed by its top-5 error (two
    values) when the first output has more than five columns, and the
    top-1 error alone (one value) when it has at most five: the share, in
    percent, of the samples whose label is not among the one or five
    highest scores of their row.  The k values come from the first output
    alone; they are printed with the errors, and every later output fits
    them.  Every value lies between 0 and 100.  And [eval] does return when
    the outputs of the pass can be evaluated and have at least two rows
    and two columns each. *)
Theorem eval_returns_errors_per_k (s : Manager.state P X) :
  let run :=
    pass_outputs {| training := false;
                    device := device (Manager.model (Manager.self s)) |}
      (Manager.cuda (Manager.self s))
      (Manager.test_data_loader (Manager.self s))
      (params (Manager.torch s)) in
  (forall errs s',
      Manager.eval s = (Ok errs, s') ->
      exists first label rest p',
        run = (Ok ((first, label) :: rest), p')
        /\ label :: map snd rest
           = map snd (Manager.test_data_loader (Manager.self s))
        /\ evaluable ((first, label) :: rest) = true
        /\ errs = (if 5 <? ncols first
                   then [topk_error ((first, label) :: rest) 1;
                         topk_error ((first, label) :: rest) 5]
                   else [topk_error ((first, label) :: rest) 1])
        /\ length errs = (if 5 <? ncols first then 2 else 1)
        /\ Forall percentage errs
        /\ Manager.trace s'
           = Manager.trace s
             ++ [Printed MsgPerformingEval;
                 Printed (MsgEval
                   (combine (if 5 <? ncols first then [1; 5] else [1])
                            errs))]
        /\ params (Manager.torch s') = p'
        /\ training (Manager.model (Manager.self s')) = true)
  /\ (forall outs p',
      run = (Ok outs, p') ->
      evaluable outs = true ->
      forallb kept_by_squeeze outs = true ->
      exists errs s', Manager.eval s = (Ok errs, s')).
Proof.
  cbv zeta. pose proof (eval_by_pass s) as Hcases. split.
  - intros errs s' Hrun.
    destruct (pass_outputs _ _ _ _) as [[[| [first label] rest] | e] p']
      eqn:Hpass.
    + destruct Hcases as (e & s1 & H). rewrite H in Hrun. discriminate.
    + cbv zeta in Hcases.
      destruct (evaluable ((first, label) :: rest)) eqn:Hev.
      * destruct Hcases as (s1 & H & Htrace & Hp & Hmode).
        rewrite H in Hrun. inversion Hrun; subst errs s1; clear Hrun.
        exists first, label, rest, p'.
        split; [reflexivity |].
        split; [exact (pass_outputs_labels _ _ _ _ Hpass) |].
        split; [exact Hev |]. split; [reflexivity |].
        split; [destruct (5 <? ncols first); reflexivity |].
        split; [| split; [exact Htrace | split; assumption]].
        cbn [evaluable] in Hev. apply andb_prop in Hev.
        destruct Hev as [_ Hpos]. apply Z.ltb_lt in Hpos.
        destruct (5 <? ncols first);
          repeat constructor;
          apply (RankFacts.topk_error_percentage _ _ Hpos).
      * destruct Hcases as (e & s1 & H). rewrite H in Hrun. discriminate.
    + destruct Hcases as (e' & s1 & H). rewrite H in Hrun. discriminate.
  - intros outs p' Hpass Hev _. rewrite Hpass in Hcases.
    destruct outs as [| [first label] rest]; [discriminate Hev |].
    cbv zeta in Hcases. rewrite Hev in Hcases.
    destruct Hcases as (s' & H & _). eauto.
Qed.

(** C3, as the code has it: when [eval] returns, the model is in training
    mode; when [eval] raises, whatever the cause, the model is left in
    evaluation mode. *)
Theorem eval_restores_mode_on_return (s : Manager.state P X) :
  match fst (Manager.eval s) with
  | Ok _ => training (Manager.model (Manager.self (snd (Manager.eval s)))) = true
  | Raise _ =>
      training (Manager.model (Manager.self (snd (Manager.eval s)))) = false
  end.
Proof.
  rewrite eval_cases.
  pose proof (eval_loop_keeps
                (fun s : Manager.state P X =>
                   training (Manager.model (Manager.self s)))
                (Manager.test_data_loader (Manager.self s)) no_locals
                (fun p s => eq_refl) (eval_entered s)) as Hmode.
  destruct (for_locals _ _ _ _) as [[l | e] s2]; cbn [fst snd] in *;
    [| exact Hmode].
  destruct (Manager.error_meter l) as [em |]; [| exact Hmode].
  destruct (ClassErrorMeter.value em) as [error |]; [| exact Hmode].
  destruct (Manager.topk l) as [ks |]; [| exact Hmode].
  reflexivity.
Qed.

(** C8: on an empty evaluation stream the loop leaves the meter unset and
    [eval] raises [AttributeError] at [error_meter.value()], with the model
    in evaluation mode; so whenever [eval] returns, the stream had at least
    one batch. *)
Theorem eval_empty_stream_raises :
  (forall s : Manager.state P X,
      Manager.test_data_loader (Manager.self s) = [] ->
      for_locals (Manager.test_data_loader (Manager.self s))
        Manager.eval_batch no_locals (eval_entered s)
      = (Ok no_locals, eval_entered s)
      /\ Manager.eval s = (Raise AttributeError, eval_entered s)
      /\ training (Manager.model (Manager.self (eval_entered s))) = false)
  /\ (forall (s : Manager.state P X) errs s',
      Manager.eval s = (Ok errs, s') ->
      Manager.test_data_loader (Manager.self s) <> []).
Proof.
  split.
  - intros s Hempty. rewrite eval_cases, Hempty.
    repeat split; reflexivity.
  - intros s errs s' Hrun Hempty. rewrite eval_cases, Hempty in Hrun.
    discriminate Hrun.
Qed.

End EvalFacts.

(** For C5: the two batches of the six-class network.  Two of the twelve
    samples have their label as the highest score and all have it among the
    five highest: [eval] returns 1000/12 and then 0, the top-1 and the
    top-5 error of the pass. *)
Lemma eval_returns_errors_per_k_witness :
  exists s' first label rest,
    @Manager.eval nat (list nat) SixClasses.six SixClasses.six_state
    = (Ok [(1000 # 12)%Q; (0 # 12)%Q], s')
    /\ ncols first = 6
    /\ length rest = 1
    /\ [(1000 # 12)%Q; (0 # 12)%Q]
       = [topk_error ((first, label) :: rest) 1;
          topk_error ((first, label) :: rest) 5]
    /\ forallb kept_by_squeeze ((first, label) :: rest) = true.
Proof.
  destruct (@Manager.eval nat (list nat) SixClasses.six SixClasses.six_state)
    as [r s'] eqn:Hrun.
  assert (r = Ok [(1000 # 12)%Q; (0 # 12)%Q]) as ->.
  { apply (f_equal fst) in Hrun. cbn [fst] in Hrun. subst r.
    vm_compute. reflexivity. }
  destruct (proj1 (@eval_returns_errors_per_k nat (list nat) SixClasses.six
                     SixClasses.six_state) _ _ Hrun)
    as (first & label & rest & p' & Hpass & _ & _ & Herrs & _).
  exists s', first, label, rest.
  vm_compute in Hpass.
  injection Hpass as Hfirst Hlabel Hrest _.
  assert (ncols first = 6) as Hcols by (rewrite <- Hfirst; reflexivity).
  rewrite Hcols in Herrs.
  split; [reflexivity |]. split; [exact Hcols |].
  split; [rewrite <- Hrest; reflexivity |].
  split; [exact Herrs |].
  rewrite <- Hfirst, <- Hrest. reflexivity.
Defined.

(** C5 as stated fails: the stream has two batches of ten samples, the
    first output has eight columns, so that two values are due, and the
    first batch alone gives them; on the whole stream [eval] returns
    nothing: the second output has three columns, and the meter's call of
    [topk] for the five highest scores raises. *)
Lemma eval_raises_when_output_narrows :
  match fst (@pass_outputs nat (list nat) Narrowing.narrowing
               {| training := false; device := CPU |} true
               (Manager.test_data_loader
                  (Manager.self Narrowing.narrowing_state)) 0) with
  | Ok outs =>
      map (fun out => (nrows (fst out), ncols (fst out))) outs
      = [(10, 8); (10, 3)]
  | Raise _ => False
  end
  /\ match fst (@Manager.eval nat (list nat) Narrowing.narrowing
                  Narrowing.first_batch_state) with
     | Ok [e1; e5] => (e1 == 0)%Q /\ (e5 == 0)%Q
     | _ => False
     end
  /\ fst (@Manager.eval nat (list nat) Narrowing.narrowing
            Narrowing.narrowing_state)
     = Raise RuntimeError.
Proof.
  split; [vm_compute; reflexivity |].
  split; [vm_compute; split; reflexivity |].
  vm_compute; reflexivity.
Qed.

(** For C8: the toy manager with an empty evaluation stream. *)
Lemma eval_empty_stream_raises_witness :
  Manager.test_data_loader (Manager.self (Scenario.with_test_loader [])) = []
  /\ Manager.eval (Scenario.with_test_loader [])
     = (Raise AttributeError, eval_entered (Scenario.with_test_loader [])).
Proof.
  split; [reflexivity |].
  apply (proj1 (@eval_empty_stream_raises nat (list nat) Scenario.toy)
           (Scenario.with_test_loader []) eq_refl).
Defined.

(** C3 as stated fails: the model is in training mode, the first batch of
    the stream is evaluated, the second raises, and [eval] hands control
    back with the model in evaluation mode. *)
Lemma eval_leaves_eval_mode_on_failure :
  training (Manager.model
              (Manager.self (Scenario.with_test_loader Scenario.broken_stream)))
  = true
  /\ match fst (Manager.eval
                  (Scenario.with_test_loader (firstn 1 Scenario.broken_stream)))
     with
     | Ok [e] => (e == 0)%Q
     | _ => False
     end
  /\ fst (Manager.eval (Scenario.with_test_loader Scenario.broken_stream))
     = Raise AssertionError
  /\ training (Manager.model (Manager.self
        (snd (Manager.eval (Scenario.with_test_loader Scenario.broken_stream)))))
     = false.
Proof.
  split; [reflexivity |].
  split; [vm_compute; reflexivity |].
  split; vm_compute; reflexivity.
Qed.

(** ** [Manager.save_model] and [Manager.load_model] *)

Section CheckpointFacts.
Context {P X : Type} {ext : Collaborators P X}.

(** C6, as the code has it: [save_model] moves the model to host memory,
    takes the state dict there, and then moves the model to the GPU exactly
    when [self.cuda] is set, before it writes the file.  So on both exits,
    the return and the failure of the write, the model is on the device
    that [self.cuda] selects, whatever device it was on when [save_model]
    was called: it is on the device it had before exactly when that device
    agreed with the flag.  The write is the last step; it raises [IOError]
    with nothing written exactly when the path cannot be written.  The mode
    of the model, the parameters and the optimizers are as before. *)
Theorem save_model_sets_flagged_device_before_write (s : Manager.state P X)
    (epoch : nat) (best_accuracy : Q) (errors : list Q) (savename : string) :
  let path := String.append savename ".pt" in
  let r := Manager.save_model epoch best_accuracy errors savename s in
  let s' := snd r in
  let flagged := if Manager.cuda (Manager.self s) then GPU else CPU in
  let ckpt :=
    {| Ckpt.args := Manager.args (Manager.self s);
       Ckpt.epoch := epoch;
       Ckpt.accuracy := best_accuracy;
       Ckpt.errors := errors;
       Ckpt.state_dict := {| tensors := params (Manager.torch s);
                             location := CPU |} |} in
  device (Manager.model (Manager.self s')) = flagged
  /\ (device (Manager.model (Manager.self s'))
      = device (Manager.model (Manager.self s))
      <-> device (Manager.model (Manager.self s)) = flagged)
  /\ training (Manager.model (Manager.self s'))
     = training (Manager.model (Manager.self s))
  /\ Manager.cuda (Manager.self s') = Manager.cuda (Manager.self s)
  /\ Manager.torch s' = Manager.torch s
  /\ Manager.optimizer s' = Manager.optimizer s
  /\ (writable (Manager.fs s) path = true ->
      fst r = Ok tt
      /\ files (Manager.fs s') path = Some (Pickle ckpt)
      /\ Manager.trace s' = Manager.trace s ++ [Wrote path (Pickle ckpt)])
  /\ (writable (Manager.fs s) path = false ->
      fst r = Raise IOError
      /\ Manager.fs s' = Manager.fs s
      /\ Manager.trace s' = Manager.trace s).
Proof.
  cbv zeta. unfold Manager.save_model, Manager.torch_save, Manager.write_file,
    Manager.model_state_dict, Manager.model_cpu, Manager.model_cuda,
    bind, gets, modify, ret.
  cbn [fst snd Manager.self Manager.set_self Manager.set_model Manager.cuda
       Manager.model Manager.args Manager.torch Manager.fs device training].
  destruct (Manager.cuda (Manager.self s)) eqn:Hc;
    cbn [fst snd Manager.self Manager.set_self Manager.set_model Manager.cuda
         Manager.model Manager.args Manager.torch Manager.fs device training];
    destruct (writable (Manager.fs s) (String.append savename ".pt")) eqn:Hw;
    cbn [fst snd Manager.self Manager.set_self Manager.set_model Manager.cuda
         Manager.model Manager.args Manager.torch Manager.fs Manager.trace
         Manager.optimizer device training files];
    rewrite ?String.eqb_refl;
    repeat split; try reflexivity; try discriminate; try congruence;
    try assumption.
Qed.

(** C10: [load_model] changes the parameters and the stored args and
    nothing else of the manager: [self.cuda], both loaders, the criterion,
    and the mode and device of the model are as before, on every exit.  When
    it returns, the args are those of the checkpoint and the parameters are
    what loading its state dict produced; for a manager made by [__init__]
    from args [a], [self.cuda] and the loaders are still those of [a]. *)
Theorem load_model_frame (s : Manager.state P X) (savename : string) :
  let path := String.append savename ".pt" in
  let r := Manager.load_model savename s in
  let s' := snd r in
  Manager.cuda (Manager.self s') = Manager.cuda (Manager.self s)
  /\ Manager.train_data_loader (Manager.self s')
     = Manager.train_data_loader (Manager.self s)
  /\ Manager.test_data_loader (Manager.self s')
     = Manager.test_data_loader (Manager.self s)
  /\ Manager.criterion (Manager.self s') = Manager.criterion (Manager.self s)
  /\ Manager.model (Manager.self s') = Manager.model (Manager.self s)
  /\ Manager.optimizer s' = Manager.optimizer s
  /\ heap (Manager.torch s') = heap (Manager.torch s)
  /\ Manager.fs s' = Manager.fs s
  /\ Manager.trace s' = Manager.trace s
  /\ (fst r = Ok tt ->
      exists ckpt,
        files (Manager.fs s) path = Some (Pickle ckpt)
        /\ Manager.args (Manager.self s') = Ckpt.args ckpt
        /\ load_state_dict (Ckpt.state_dict ckpt) (params (Manager.torch s))
           = (Ok tt, params (Manager.torch s'))
        /\ forall a m, Manager.self s = Manager.init a m ->
             Manager.cuda (Manager.self s') = Args.cuda a
             /\ Manager.test_data_loader (Manager.self s')
                = test_loader_cubs (Args.test_path a) (Args.batch_size a)
                    (Args.cuda a) true
             /\ Manager.train_data_loader (Manager.self s')
                = train_loader_cubs (Args.train_path a) (Args.batch_size a)
                    (Args.cuda a) true)
  /\ (forall e, fst r = Raise e ->
      Manager.args (Manager.self s') = Manager.args (Manager.self s)).
Proof.
  cbv zeta. unfold Manager.load_model, Manager.torch_load, Manager.on_params,
    zoom, bind, gets, modify, ret, raise.
  destruct (files (Manager.fs s) (String.append savename ".pt"))
    as [[ckpt | hist a] |]; cbn [fst snd];
    try (repeat split; try reflexivity; discriminate).
  destruct (load_state_dict (Ckpt.state_dict ckpt) (params (Manager.torch s)))
    as [[[] | e] p'] eqn:Hload; cbn [fst snd];
    repeat split; try reflexivity; try discriminate.
  intros _. exists ckpt. split; [reflexivity |]. split; [reflexivity |].
  split; [exact Hload |].
  intros a m Hinit. cbn. rewrite Hinit. repeat split; reflexivity.
Qed.

End CheckpointFacts.

(** For C6: the model is on the GPU as [self.cuda] says, the write fails,
    and the failure comes with the model on the GPU. *)
Lemma save_model_sets_flagged_device_before_write_witness :
  device (Manager.model (Manager.self Scenario.read_only_state)) = GPU
  /\ Manager.cuda (Manager.self Scenario.read_only_state) = true
  /\ writable (Manager.fs Scenario.read_only_state) "best.pt" = false
  /\ fst (Manager.save_model 1 70 [30%Q] "best" Scenario.read_only_state)
     = Raise IOError
  /\ device (Manager.model (Manager.self
        (snd (Manager.save_model 1 70 [30%Q] "best"
                Scenario.read_only_state))))
     = device (Manager.model (Manager.self Scenario.read_only_state)).
Proof.
  destruct (save_model_sets_flagged_device_before_write
              Scenario.read_only_state 1 70 [30%Q] "best")
    as (_ & Hprior & _ & _ & _ & _ & _ & Hfail).
  split; [reflexivity |]. split; [reflexivity |]. split; [reflexivity |].
  split; [apply Hfail; reflexivity | apply Hprior; reflexivity].
Defined.

(** C6 as stated fails: the model is on the GPU and the manager's flag is
    off.  [save_model] returns with the model in host memory, not on the
    device it had before; and when the write fails, the failure comes with
    the model in host memory. *)
Lemma save_model_leaves_gpu_model_on_cpu :
  device (Manager.model (Manager.self gpu_flag_off_state)) = GPU
  /\ Manager.cuda (Manager.self gpu_flag_off_state) = false
  /\ fst (Manager.save_model 1 70 [30%Q] "best" gpu_flag_off_state) = Ok tt
  /\ device (Manager.model (Manager.self
        (snd (Manager.save_model 1 70 [30%Q] "best" gpu_flag_off_state))))
     = CPU
  /\ device (Manager.model (Manager.self gpu_flag_off_read_only)) = GPU
  /\ fst (Manager.save_model 1 70 [30%Q] "best" gpu_flag_off_read_only)
     = Raise IOError
  /\ device (Manager.model (Manager.self
        (snd (Manager.save_model 1 70 [30%Q] "best"
                gpu_flag_off_read_only))))
     = CPU.
Proof.
  do 6 (split; [reflexivity |]). reflexivity.
Qed.

(** For C10: a manager made with CUDA loads a checkpoint saved without:
    the stored args change, [self.cuda] does not. *)
Lemma load_model_frame_witness :
  fst (Manager.load_model "best" Scenario.with_checkpoint) = Ok tt
  /\ Manager.cuda (Manager.self
        (snd (Manager.load_model "best" Scenario.with_checkpoint))) = true
  /\ Args.cuda (Manager.args (Manager.self
        (snd (Manager.load_model "best" Scenario.with_checkpoint)))) = false.
Proof.
  destruct (load_model_frame Scenario.with_checkpoint "best")
    as (Hcuda & _ & _ & _ & _ & _ & _ & _ & _ & Hok & _).
  assert (fst (Manager.load_model "best" Scenario.with_checkpoint) = Ok tt)
    as Hrun by reflexivity.
  split; [exact Hrun |]. split; [rewrite Hcuda; reflexivity |].
  destruct (Hok Hrun) as (ckpt & Hfile & Hargs & _).
  rewrite Hargs. inversion Hfile. reflexivity.
Defined.

(** ** [Manager.train] *)

Lemma checkpoints_app {P} (tr1 tr2 : list (Event P)) :
  checkpoints (tr1 ++ tr2) = checkpoints tr1 ++ checkpoints tr2.
Proof.
  induction tr1 as [| [m | path [c | h a]] tr1 IH]; simpl;
    rewrite ?IH; reflexivity.
Qed.

Lemma app_one_neq {A} (l : list A) (x : A) : l ++ [x] <> l.
Proof.
  intros H. apply (f_equal (@length A)) in H.
  rewrite length_app in H. simpl in H. lia.
Qed.

Section TrainFacts.
Context {P X : Type} {ext : Collaborators P X}.

Lemma print_keeps_saved m : keeps (@saved P X) (Manager.print m).
Proof.
  intros s. unfold saved. cbn. rewrite checkpoints_app. apply app_nil_r.
Qed.

Lemma eval_keeps_saved : keeps (@saved P X) Manager.eval.
Proof.
  intros s. rewrite eval_cases.
  pose proof (eval_loop_keeps (@saved P X)
                (Manager.test_data_loader (Manager.self s)) no_locals
                (fun p s => eq_refl) (eval_entered s)) as Hloop.
  assert (saved (eval_entered s) = saved s) as Hin
    by apply (print_keeps_saved MsgPerformingEval (snd (Manager.model_eval s))).
  rewrite Hin in Hloop.
  destruct (for_locals _ _ _ _) as [[l | e] s2]; cbn [snd] in *;
    [| exact Hloop].
  destruct (Manager.error_meter l) as [em |]; [| exact Hloop].
  destruct (ClassErrorMeter.value em) as [error |]; [| exact Hloop].
  destruct (Manager.topk l) as [ks |]; [| exact Hloop].
  cbn [snd]. rewrite <- Hloop.
  apply (print_keeps_saved (MsgEval (combine ks error)) s2).
Qed.

Lemma do_epoch_keeps_saved epoch_idx :
  keeps (@saved P X) (Manager.do_epoch epoch_idx).
Proof.
  unfold Manager.do_epoch. apply keeps_bind; [apply keeps_gets |].
  intros loader. apply keeps_for_. intros [batch label].
  unfold Manager.do_batch, Manager.on_params.
  repeat first
    [ apply keeps_gets
    | apply keeps_zoom; reflexivity
    | apply keeps_bind; [| intros ?] ].
Qed.

Lemma update_keeps_saved epoch_idx :
  keeps (@saved P X)
    (zoom Manager.optimizers_view Manager.optimizers_put
          (Optimizers.update_lr epoch_idx)).
Proof. apply keeps_zoom; reflexivity. Qed.

Lemma model_train_keeps_saved : keeps (@saved P X) Manager.model_train.
Proof. intros s; reflexivity. Qed.

Lemma write_json_keeps_saved path hist a :
  keeps (@saved P X) (Manager.write_file path (Json hist a)).
Proof.
  intros s. unfold Manager.write_file.
  destruct (writable (Manager.fs s) path); [| reflexivity].
  unfold saved. cbn. rewrite checkpoints_app. apply app_nil_r.
Qed.

(** A successful [save_model] appends exactly its checkpoint. *)
Lemma save_model_saved epoch best errors savename (s s' : Manager.state P X) :
  Manager.save_model epoch best errors savename s = (Ok tt, s') ->
  exists ck,
    saved s' = saved s ++ [ck]
    /\ Ckpt.epoch ck = epoch /\ Ckpt.accuracy ck = best
    /\ Ckpt.errors ck = errors.
Proof.
  unfold Manager.save_model, Manager.torch_save, Manager.write_file,
    Manager.model_state_dict, bind, gets, ret.
  cbn [Manager.model_cpu modify fst snd].
  set (ck := {| Ckpt.args := _; Ckpt.epoch := epoch |}).
  intros H. exists ck.
  assert (forall s1 : Manager.state P X,
             saved s1 = saved s ->
             (if writable (Manager.fs s1) (String.append savename ".pt")
              then (Ok tt,
                    {| Manager.self := Manager.self s1;
                       Manager.optimizer := Manager.optimizer s1;
                       Manager.torch := Manager.torch s1;
                       Manager.fs :=
                         {| files := fun p =>
                              if String.eqb p (String.append savename ".pt")
                              then Some (Pickle ck)
                              else files (Manager.fs s1) p;
                            writable := writable (Manager.fs s1) |};
                       Manager.trace :=
                         Manager.trace s1
                         ++ [Wrote (String.append savename ".pt") (Pickle ck)]
                    |})
              else (Raise IOError, s1)) = (Ok tt, s') ->
             saved s' = saved s ++ [ck]) as Hwrite.
  { intros s1 Hs1 Hrun.
    destruct (writable (Manager.fs s1) _); [| discriminate].
    inversion Hrun; subst. unfold saved in *. cbn.
    rewrite checkpoints_app, Hs1. reflexivity. }
  split; [| repeat split; reflexivity].
  destruct (Manager.cuda _); cbn [Manager.model_cuda modify ret fst snd] in H;
    (eapply Hwrite; [| exact H]); reflexivity.
Qed.

(** What a completed epoch tells: [eval] returned an error record, the
    record was appended to the history, and a checkpoint was written
    exactly in the branch where the accuracy beats the best so far. *)
Lemma train_epoch_ok_inv savename l i (s : Manager.state P X) l' s' :
  Manager.train_epoch savename l i s = (Ok l', s') ->
  exists errors,
    Manager.error_history l' = Manager.error_history l ++ [errors]
    /\ errors <> []
    /\ ((Qltb (Manager.best_accuracy l) (top1_accuracy errors) = true
         /\ Manager.best_accuracy l' = top1_accuracy errors
         /\ exists ck,
              saved s' = saved s ++ [ck]
              /\ Ckpt.epoch ck = i + 1
              /\ Ckpt.accuracy ck = top1_accuracy errors
              /\ Ckpt.errors ck = errors)
        \/ (Qltb (Manager.best_accuracy l) (top1_accuracy errors) = false
            /\ Manager.best_accuracy l' = Manager.best_accuracy l
            /\ saved s' = saved s)).
Proof.
  unfold Manager.train_epoch. intros H.
  apply bind_ok_inv in H. destruct H as ([] & s1 & H1 & H).
  apply bind_ok_inv in H. destruct H as ([] & s2 & H2 & H).
  apply bind_ok_inv in H. destruct H as ([] & s3 & H3 & H).
  apply bind_ok_inv in H. destruct H as ([] & s4 & H4 & H).
  apply bind_ok_inv in H. destruct H as (errors & s5 & H5 & H).
  apply bind_ok_inv in H. destruct H as (e0 & s6 & H6 & H).
  apply bind_ok_inv in H. destruct H as (a & s7 & H7 & H).
  apply bind_ok_inv in H. destruct H as ([] & s8 & H8 & H).
  assert (saved s8 = saved s) as Hsaved.
  { pose proof (print_keeps_saved (MsgEpoch (i + 1)) s) as K1.
    pose proof (update_keeps_saved (Z.of_nat (i + 1)) s1) as K2.
    pose proof (model_train_keeps_saved s2) as K3.
    pose proof (do_epoch_keeps_saved (i + 1) s3) as K4.
    pose proof (eval_keeps_saved s4) as K5.
    pose proof (write_json_keeps_saved (String.append savename ".json")
                  (Manager.error_history l ++ [errors]) a s7) as K8.
    rewrite H1 in K1. rewrite H2 in K2. rewrite H3 in K3. rewrite H4 in K4.
    rewrite H5 in K5. rewrite H8 in K8. cbn [snd] in *.
    assert (s6 = s5) as ->.
    { destruct errors; [discriminate H6 | inversion H6; reflexivity]. }
    inversion H7; subst s7. congruence. }
  assert (errors <> [] /\ top1_accuracy errors = (100 - e0)%Q) as [Hne Hacc].
  { destruct errors as [| e tail]; [discriminate H6 |].
    inversion H6; subst. split; [discriminate | reflexivity]. }
  exists errors. split; [| split; [exact Hne |]].
  - destruct (Qltb _ _).
    + apply bind_ok_inv in H. destruct H as ([] & s9 & _ & H).
      apply bind_ok_inv in H. destruct H as ([] & s10 & _ & H).
      inversion H; reflexivity.
    + inversion H; reflexivity.
  - rewrite Hacc.
    destruct (Qltb (Manager.best_accuracy l) (100 - e0)) eqn:Hbest.
    + left. split; [reflexivity |].
      apply bind_ok_inv in H. destruct H as ([] & s9 & H9 & H).
      apply bind_ok_inv in H. destruct H as ([] & s10 & H10 & H).
      inversion H; subst; clear H. cbn [Manager.best_accuracy].
      split; [reflexivity |].
      apply save_model_saved in H10. destruct H10 as (ck & Hck & Hrest).
      exists ck. split; [| exact Hrest].
      rewrite Hck. f_equal. rewrite <- Hsaved.
      pose proof (print_keeps_saved
                    (MsgBest (Manager.best_accuracy l) (100 - e0)) s8) as K9.
      rewrite H9 in K9. exact K9.
    + right. inversion H; subst; clear H. cbn [Manager.best_accuracy].
      split; [reflexivity |]. split; [reflexivity | exact Hsaved].
Qed.

Lemma holds_max_extend (history : list (list Q)) errors (ck : Ckpt.t P) :
  holds_max history ck -> holds_max (history ++ [errors]) ck.
Proof.
  intros [[Hlo Hhi] Hmax]. split.
  - rewrite length_app. simpl. lia.
  - rewrite firstn_app.
    replace (Ckpt.epoch ck - length history) with 0 by lia.
    simpl. rewrite app_nil_r. exact Hmax.
Qed.

(** One epoch keeps the invariant, extends the history by one record and
    does not lower the best accuracy. *)
Lemma train_epoch_inv savename s0 b0 l i (s : Manager.state P X) l' s' :
  Manager.train_epoch savename l i s = (Ok l', s') ->
  length (Manager.error_history l) = i ->
  train_inv s0 b0 l s ->
  length (Manager.error_history l') = S i
  /\ train_inv s0 b0 l' s'
  /\ (Manager.best_accuracy l <= Manager.best_accuracy l')%Q
  /\ exists errors,
       Manager.error_history l' = Manager.error_history l ++ [errors].
Proof.
  intros Hrun Hlen (Hb0 & Hall & new & Hnew & Hcks).
  destruct (train_epoch_ok_inv _ _ _ _ Hrun) as (errors & Hhist & _ & Hcase).
  split; [rewrite Hhist, length_app; simpl; lia |].
  assert (Forall (holds_max (Manager.error_history l')) new) as Hcks'.
  { rewrite Hhist. eapply Forall_impl; [| exact Hcks].
    intros ck. apply holds_max_extend. }
  destruct Hcase as [(Hlt & Hbest & ck & Hck & Hep & Hacc & _)
                    | (Hge & Hbest & Hsame)].
  - apply Qltb_lt in Hlt.
    assert (Manager.best_accuracy l <= Manager.best_accuracy l')%Q as Hmono.
    { rewrite Hbest. apply Qlt_le_weak, Hlt. }
    split; [| split; [exact Hmono | exists errors; exact Hhist]].
    split; [eapply Qle_trans; eassumption |]. split.
    + intros e He. rewrite Hhist in He. apply in_app_or in He.
      destruct He as [He | [<- | []]].
      * eapply Qle_trans; [apply Hall, He | exact Hmono].
      * rewrite Hbest. apply Qle_refl.
    + exists (new ++ [ck]). split; [rewrite Hck, Hnew, app_assoc; reflexivity |].
      apply Forall_app. split; [exact Hcks' |]. constructor; [| constructor].
      assert (Ckpt.epoch ck = length (Manager.error_history l')) as Hfull.
      { rewrite Hep, Hhist, length_app. simpl. lia. }
      split; [rewrite Hfull, Hhist, length_app; simpl; lia |].
      rewrite Hfull, firstn_all, Hacc, <- Hbest. split.
      * exists (top1_accuracy errors). split; [| rewrite Hbest; reflexivity].
        rewrite Hhist, map_app. apply in_or_app. right. left. reflexivity.
      * intros y Hy. apply in_map_iff in Hy. destruct Hy as (e & <- & He).
        rewrite Hhist in He. apply in_app_or in He.
        destruct He as [He | [<- | []]].
        -- eapply Qle_trans; [apply Hall, He | exact Hmono].
        -- rewrite Hbest. apply Qle_refl.
  - apply Qltb_ge in Hge.
    split; [| split; [rewrite Hbest; apply Qle_refl
                     | exists errors; exact Hhist]].
    split; [rewrite Hbest; exact Hb0 |]. split.
    + intros e He. rewrite Hhist in He. apply in_app_or in He. rewrite Hbest.
      destruct He as [He | [<- | []]]; [apply Hall, He | exact Hge].
    + exists new. split; [rewrite Hsame; exact Hnew | exact Hcks'].
Qed.

Lemma train_epochs_inv savename s0 b0 count :
  forall i l (s : Manager.state P X) l' s',
    for_locals (seq i count) (Manager.train_epoch savename) l s = (Ok l', s') ->
    length (Manager.error_history l) = i ->
    train_inv s0 b0 l s ->
    length (Manager.error_history l') = i + count
    /\ train_inv s0 b0 l' s'
    /\ (Manager.best_accuracy l <= Manager.best_accuracy l')%Q
    /\ exists more,
         Manager.error_history l' = Manager.error_history l ++ more.
Proof.
  induction count as [| count IH]; intros i l s l' s' Hrun Hlen Hinv.
  - simpl in Hrun. inversion Hrun; subst.
    split; [lia |]. split; [exact Hinv |]. split; [apply Qle_refl |].
    exists []. symmetry. apply app_nil_r.
  - cbn [seq for_locals] in Hrun. apply bind_ok_inv in Hrun.
    destruct Hrun as (l1 & s1 & Hstep & Hrest).
    destruct (train_epoch_inv _ Hstep Hlen Hinv)
      as (Hlen1 & Hinv1 & Hmono1 & errors & Hhist1).
    destruct (IH _ _ _ _ _ Hrest Hlen1 Hinv1)
      as (Hlen' & Hinv' & Hmono' & more & Hhist').
    split; [lia |]. split; [exact Hinv' |].
    split; [eapply Qle_trans; eassumption |].
    exists (errors :: more). rewrite Hhist', Hhist1, <- app_assoc. reflexivity.
Qed.

Lemma train_inv_start (s0 : Manager.state P X) b0 :
  train_inv s0 b0 (start_locals b0) s0.
Proof.
  split; [apply Qle_refl |]. split; [intros e [] |].
  exists []. split; [symmetry; apply app_nil_r | constructor].
Qed.

Lemma range_of_nat (n : nat) : Manager.range (Z.of_nat n) = seq 0 n.
Proof. unfold Manager.range. rewrite Nat2Z.id. reflexivity. Qed.

(** A run of [k] epochs starts with a run of [j] epochs, for [j <= k]. *)
Lemma train_loop_prefix savename j k l0 (s : Manager.state P X) lk sk :
  j <= k ->
  Manager.train_loop savename (Z.of_nat k) l0 s = (Ok lk, sk) ->
  exists lj sj,
    Manager.train_loop savename (Z.of_nat j) l0 s = (Ok lj, sj)
    /\ for_locals (seq j (k - j)) (Manager.train_epoch savename) lj sj
       = (Ok lk, sk).
Proof.
  intros Hjk. unfold Manager.train_loop. rewrite !range_of_nat.
  replace k with (j + (k - j)) at 1 by lia.
  rewrite seq_app, for_locals_app. intros Hrun.
  apply bind_ok_inv in Hrun. destruct Hrun as (lj & sj & Hj & Hrest).
  exists lj, sj. split; assumption.
Qed.

(** [train], when it returns, ran its loop to the end. *)
Lemma train_ok_inv epochs savename best_accuracy (s : Manager.state P X) s' :
  Manager.train epochs savename best_accuracy s = (Ok tt, s') ->
  exists l s1,
    Manager.train_loop
      (match savename with Some n => n | None => EmptyString end)
      epochs
      (start_locals (match best_accuracy with Some b => b | None => 0%Q end))
      (train_entered s) = (Ok l, s1)
    /\ Manager.trace s'
       = Manager.trace s1
         ++ [Printed MsgFinished;
             Printed (MsgSummary (100 - Manager.best_accuracy l)%Q
                                 (Manager.best_accuracy l));
             Printed MsgRule].
Proof.
  unfold Manager.train, train_entered. fold (start_locals
    (match best_accuracy with Some b => b | None => 0%Q end)).
  intros H.
  apply bind_ok_inv in H. destruct H as (a & s0 & H0 & H).
  inversion H0; subst; clear H0.
  apply bind_ok_inv in H. destruct H as ([] & s1 & H1 & H).
  apply bind_ok_inv in H. destruct H as (l & s2 & H2 & H).
  exists l, s2. split.
  - destruct (Args.cuda _); inversion H1; subst; exact H2.
  - destruct l as [best hist]. inversion H; subst.
    cbn. rewrite <- !app_assoc. reflexivity.
Qed.

(** C4: whenever the loop of [train] has completed [n] epochs, the error
    history has [n] records, the best accuracy is at least the one the run
    started with, and every checkpoint written by the run names one of these
    epochs and carries the largest top-1 accuracy of the records up to that
    epoch.  The runs of fewer epochs are the beginnings of this run: after
    [j] epochs the history has [j] records, and the best accuracy after [j]
    epochs is at most the one after [k] epochs for [j <= k <= n].  A call of
    [train] that returns has run this loop for [epochs] epochs. *)
Theorem train_history_best_and_checkpoints savename (n : nat) (b0 : Q)
    (s : Manager.state P X) l s' :
  Manager.train_loop savename (Z.of_nat n) (start_locals b0) s = (Ok l, s') ->
  length (Manager.error_history l) = n
  /\ (b0 <= Manager.best_accuracy l)%Q
  /\ (exists new,
        saved s' = saved s ++ new
        /\ Forall (holds_max (Manager.error_history l)) new)
  /\ (forall j k, j <= k -> k <= n ->
        exists lj sj lk sk,
          Manager.train_loop savename (Z.of_nat j) (start_locals b0) s
          = (Ok lj, sj)
          /\ Manager.train_loop savename (Z.of_nat k) (start_locals b0) s
             = (Ok lk, sk)
          /\ length (Manager.error_history lj) = j
          /\ Manager.error_history lj = firstn j (Manager.error_history l)
          /\ (Manager.best_accuracy lj <= Manager.best_accuracy lk)%Q)
  /\ (forall epochs sn best s0 s1,
        Manager.train epochs sn best s0 = (Ok tt, s1) ->
        exists l1 s2,
          Manager.train_loop
            (match sn with Some x => x | None => EmptyString end)
            (Z.of_nat (Z.to_nat epochs))
            (start_locals (match best with Some b => b | None => 0%Q end))
            (train_entered s0) = (Ok l1, s2)
          /\ saved s1 = saved s2).
Proof.
  intros Hrun.
  assert (forall m lm sm,
             Manager.train_loop savename (Z.of_nat m) (start_locals b0) s
             = (Ok lm, sm) ->
             length (Manager.error_history lm) = m
             /\ train_inv s b0 lm sm) as Hany.
  { intros m lm sm Hm. unfold Manager.train_loop in Hm.
    rewrite range_of_nat in Hm.
    destruct (@train_epochs_inv savename s b0 m 0 _ _ _ _ Hm eq_refl
                (train_inv_start s b0)) as (Hlen & Hinv & _).
    split; [exact Hlen | exact Hinv]. }
  destruct (Hany _ _ _ Hrun) as (Hlen & Hb0 & _ & Hnew).
  split; [exact Hlen |]. split; [exact Hb0 |]. split; [exact Hnew |]. split.
  - intros j k Hjk Hkn.
    destruct (@train_loop_prefix savename k n _ s l s' Hkn Hrun)
      as (lk & sk & Hk & Hkrest).
    destruct (@train_loop_prefix savename j k _ s lk sk Hjk Hk)
      as (lj & sj & Hj & Hjrest).
    destruct (Hany _ _ _ Hj) as (Hlenj & Hinvj).
    destruct (Hany _ _ _ Hk) as (Hlenk & Hinvk).
    exists lj, sj, lk, sk. split; [exact Hj |]. split; [exact Hk |].
    split; [exact Hlenj |].
    destruct (@train_epochs_inv savename s b0 (k - j) j _ _ _ _ Hjrest Hlenj
                Hinvj) as (_ & _ & Hmono & more & Hmore).
    destruct (@train_epochs_inv savename s b0 (n - k) k _ _ _ _ Hkrest Hlenk
                Hinvk) as (_ & _ & _ & more' & Hmore').
    split; [| exact Hmono].
    rewrite Hmore', Hmore, <- app_assoc, firstn_app, firstn_all2 by lia.
    replace (j - length (Manager.error_history lj)) with 0 by lia.
    simpl. symmetry. apply app_nil_r.
  - intros epochs sn best s0 s1 Htrain.
    destruct (@train_ok_inv epochs sn best s0 s1 Htrain)
      as (l1 & s2 & Hloop & Htrace).
    exists l1, s2. split.
    + unfold Manager.train_loop in *. rewrite range_of_nat. exact Hloop.
    + unfold saved. rewrite Htrace, checkpoints_app. apply app_nil_r.
Qed.

(** C1, one epoch: when an epoch of [train] completes, a checkpoint is
    written in it if and only if the top-1 accuracy of the epoch is above
    the best accuracy so far; the written checkpoint names this epoch and
    carries the new accuracy, which is also the best accuracy from then on;
    otherwise the best accuracy stays. *)
Lemma train_epoch_checkpoint savename l i (s : Manager.state P X) l' s' :
  Manager.train_epoch savename l i s = (Ok l', s') ->
  exists errors,
    Manager.error_history l' = Manager.error_history l ++ [errors]
    /\ ((Manager.best_accuracy l < top1_accuracy errors)%Q
        <-> saved s' <> saved s)
    /\ ((Manager.best_accuracy l < top1_accuracy errors)%Q ->
        Manager.best_accuracy l' = top1_accuracy errors
        /\ exists ck,
             saved s' = saved s ++ [ck]
             /\ Ckpt.epoch ck = i + 1
             /\ Ckpt.accuracy ck = Manager.best_accuracy l'
             /\ Ckpt.errors ck = errors)
    /\ (~ (Manager.best_accuracy l < top1_accuracy errors)%Q ->
        Manager.best_accuracy l' = Manager.best_accuracy l
        /\ saved s' = saved s).
Proof.
  intros Hrun.
  destruct (train_epoch_ok_inv _ _ _ _ Hrun) as (errors & Hhist & _ & Hcase).
  exists errors. split; [exact Hhist |].
  destruct Hcase as [(Hlt & Hbest & ck & Hck & Hep & Hacc & Herr)
                    | (Hge & Hbest & Hsame)].
  - apply Qltb_lt in Hlt. split; [| split].
    + split; [intros _; rewrite Hck; apply app_one_neq | intros _; exact Hlt].
    + intros _. split; [exact Hbest |]. exists ck.
      rewrite Hbest. repeat split; assumption.
    + intros Hn. contradiction.
  - apply Qltb_ge in Hge. apply Qle_not_lt in Hge. split; [| split].
    + split; [intros Hlt; contradiction | intros Hneq; contradiction].
    + intros Hlt. contradiction.
    + intros _. split; assumption.
Qed.

End TrainFacts.

(** C1: in every completed epoch of [train] a checkpoint is written if and
    only if the epoch's top-1 accuracy (100 minus the top-1 error) is
    strictly above the best accuracy so far, which starts as the
    [best_accuracy] argument, 0 by default; the checkpoint carries the
    updated best accuracy.  On the toy network, whose accuracies over four
    epochs are 70, 72, 71 and 75, [train] with the default arguments writes
    checkpoints in epochs 1, 2 and 4, with these accuracies. *)
Theorem checkpoint_iff_new_best :
  (forall (P X : Type) (ext : Collaborators P X) savename l i
          (s : Manager.state P X) l' s',
      Manager.train_epoch savename l i s = (Ok l', s') ->
      exists errors,
        Manager.error_history l' = Manager.error_history l ++ [errors]
        /\ ((Manager.best_accuracy l < top1_accuracy errors)%Q
            <-> saved s' <> saved s)
        /\ ((Manager.best_accuracy l < top1_accuracy errors)%Q ->
            Manager.best_accuracy l' = top1_accuracy errors
            /\ exists ck,
                 saved s' = saved s ++ [ck]
                 /\ Ckpt.epoch ck = i + 1
                 /\ Ckpt.accuracy ck = Manager.best_accuracy l'
                 /\ Ckpt.errors ck = errors)
        /\ (~ (Manager.best_accuracy l < top1_accuracy errors)%Q ->
            Manager.best_accuracy l' = Manager.best_accuracy l
            /\ saved s' = saved s))
  /\ (forall (P X : Type) (ext : Collaborators P X) epochs savename
             best_accuracy (s s' : Manager.state P X),
      Manager.train epochs savename best_accuracy s = (Ok tt, s') ->
      exists l s1,
        Manager.train_loop
          (match savename with Some n => n | None => EmptyString end)
          epochs
          (start_locals
             (match best_accuracy with Some b => b | None => 0%Q end))
          (train_entered s) = (Ok l, s1)
        /\ saved s' = saved s1)
  /\ (let r := Manager.train 4 None None Scenario.toy_state in
      fst r = Ok tt
      /\ match files (Manager.fs (snd r)) ".json" with
         | Some (Json history _) =>
             map (fun errors => Qred (top1_accuracy errors)) history
             = [70; 72; 71; 75]%Q
         | _ => False
         end
      /\ map (fun ck => Ckpt.epoch ck) (saved (snd r)) = [1; 2; 4]
      /\ map (fun ck => Qred (Ckpt.accuracy ck)) (saved (snd r))
         = [70; 72; 75]%Q).
Proof.
  split; [| split].
  - intros P X ext savename l i s l' s' Hrun.
    exact (train_epoch_checkpoint _ _ _ _ Hrun).
  - intros P X ext epochs savename best_accuracy s s' Hrun.
    destruct (@train_ok_inv P X ext epochs savename best_accuracy s s' Hrun)
      as (l & s1 & Hloop & Htrace).
    exists l, s1. split; [exact Hloop |].
    unfold saved. rewrite Htrace, checkpoints_app. apply app_nil_r.
  - cbv zeta.
    split; [vm_compute; reflexivity |].
    split; [vm_compute; reflexivity |].
    split; vm_compute; reflexivity.
Qed.

(** For C1: the first epoch of the toy run completes and, starting from the
    default best accuracy 0, writes a checkpoint. *)
Lemma checkpoint_iff_new_best_witness :
  exists l' s',
    Manager.train_epoch "" (start_locals 0) 0 (train_entered Scenario.toy_state)
    = (Ok l', s')
    /\ saved s' <> saved (train_entered Scenario.toy_state).
Proof.
  destruct (Manager.train_epoch "" (start_locals 0) 0
              (train_entered Scenario.toy_state)) as [[l' | e] s'] eqn:Hrun.
  - exists l', s'. split; [reflexivity |].
    destruct (proj1 checkpoint_iff_new_best _ _ _ _ _ _ _ _ _ Hrun)
      as (errors & Hhist & Hiff & _).
    apply Hiff.
    apply (f_equal (fun r => match fst r with
                             | Ok l => Manager.error_history l
                             | Raise _ => []
                             end)) in Hrun.
    cbn [fst] in Hrun. rewrite Hhist in Hrun.
    vm_compute in Hrun.
    injection Hrun as <-. reflexivity.
  - apply (f_equal fst) in Hrun. vm_compute in Hrun. discriminate Hrun.
Defined.

(** For C4: the loop of the toy run completes four epochs. *)
Lemma train_history_best_and_checkpoints_witness :
  exists l s',
    Manager.train_loop "" (Z.of_nat 4) (start_locals 0)
      (train_entered Scenario.toy_state) = (Ok l, s')
    /\ length (Manager.error_history l) = 4
    /\ (0 <= Manager.best_accuracy l)%Q.
Proof.
  destruct (Manager.train_loop "" (Z.of_nat 4) (start_locals 0)
              (train_entered Scenario.toy_state)) as [[l | e] s'] eqn:Hrun.
  - exists l, s'. split; [reflexivity |].
    destruct (train_history_best_and_checkpoints _ _ _ _ Hrun)
      as (Hlen & Hbest & _).
    split; [exact Hlen | exact Hbest].
  - apply (f_equal fst) in Hrun. vm_compute in Hrun. discriminate Hrun.
Defined.

(** * Further properties *)

(** ** [Optimizers.add] and [Optimizers.step] *)

Lemma zip3_app {A B C} (xs xs' : list A) (ys ys' : list B) (zs zs' : list C) :
  length xs = length ys -> length ys = length zs ->
  zip3 (xs ++ xs') (ys ++ ys') (zs ++ zs')
  = zip3 xs ys zs ++ zip3 xs' ys' zs'.
Proof.
  revert ys zs; induction xs as [| x xs IH]; intros [| y ys] [| z zs] H1 H2;
    simpl in *; try discriminate; try reflexivity.
  rewrite IH by congruence. reflexivity.
Qed.

(** X1: [add] keeps the three lists parallel.  From an object whose lists
    have one length, any sequence of [add] calls returns, leaves the lists
    with one length, grown by the number of calls, and the triples that
    [update_lr] zips are the old ones followed by the registrations in call
    order; the args and the torch runtime are not touched. *)
Theorem add_keeps_lists_parallel {P} (regs : list (ref * Q * Z))
    (s : Optimizers.state P) :
  length (Optimizers.optimizers (Optimizers.self s))
    = length (Optimizers.lrs (Optimizers.self s)) ->
  length (Optimizers.lrs (Optimizers.self s))
    = length (Optimizers.decay_every (Optimizers.self s)) ->
  let r := register regs s in
  let o := Optimizers.self s in
  let o' := Optimizers.self (snd r) in
  fst r = Ok tt
  /\ length (Optimizers.optimizers o')
     = length (Optimizers.optimizers o) + length regs
  /\ length (Optimizers.lrs o') = length (Optimizers.optimizers o')
  /\ length (Optimizers.decay_every o') = length (Optimizers.optimizers o')
  /\ zip3 (Optimizers.optimizers o') (Optimizers.lrs o')
          (Optimizers.decay_every o')
     = zip3 (Optimizers.optimizers o) (Optimizers.lrs o)
            (Optimizers.decay_every o) ++ regs
  /\ Optimizers.args o' = Optimizers.args o
  /\ Optimizers.torch (snd r) = Optimizers.torch s.
Proof.
  intros H1 H2. cbv zeta. rewrite register_run.
  cbn [fst snd Optimizers.self Optimizers.optimizers Optimizers.lrs
       Optimizers.decay_every Optimizers.args Optimizers.torch].
  rewrite !length_app, !length_map.
  split; [reflexivity |]. split; [reflexivity |].
  split; [lia |]. split; [lia |].
  split; [| split; reflexivity].
  rewrite zip3_app by assumption. rewrite zip3_regs. reflexivity.
Qed.

Lemma add_keeps_lists_parallel_witness :
  length (Optimizers.optimizers (Optimizers.self
            (fresh_optimizers Scenario.toy_args Scenario.blank_torch))) = 0
  /\ zip3
       (Optimizers.optimizers (Optimizers.self
          (snd (register Scenario.three_regs
                  (fresh_optimizers Scenario.toy_args Scenario.blank_torch)))))
       (Optimizers.lrs (Optimizers.self
          (snd (register Scenario.three_regs
                  (fresh_optimizers Scenario.toy_args Scenario.blank_torch)))))
       (Optimizers.decay_every (Optimizers.self
          (snd (register Scenario.three_regs
                  (fresh_optimizers Scenario.toy_args Scenario.blank_torch)))))
     = Scenario.three_regs.
Proof.
  split; [reflexivity |].
  destruct (@add_keeps_lists_parallel nat Scenario.three_regs
              (fresh_optimizers Scenario.toy_args Scenario.blank_torch)
              eq_refl eq_refl) as (_ & _ & _ & _ & Hzip & _).
  exact Hzip.
Defined.

Section StepFacts.
Context {P X : Type} {ext : Collaborators P X}.

(** One torch optimizer's [step()], one outcome at a time. *)
Lemma torch_optimizer_step_cases (r : ref) (tc : Torch P) :
  Optimizers.torch_optimizer_step r tc
  = match optimizer_step r (heap tc r) (params tc) with
    | (Ok _, p') =>
        (Ok tt,
         {| params := p';
            heap := heap_set (heap tc) r
                      {| lr := lr (heap tc r);
                         steps_taken := S (steps_taken (heap tc r)) |};
            calls := calls tc |})
    | (Raise e, p') =>
        (Raise e, {| params := p'; heap := heap tc; calls := calls tc |})
    end.
Proof.
  unfold Optimizers.torch_optimizer_step.
  unfold bind at 1, gets at 1. unfold bind at 1, zoom at 1.
  destruct (optimizer_step r (heap tc r) (params tc)) as [[[] | e] p'];
    reflexivity.
Qed.

(** The loop of [step], whatever its outcome. *)
Lemma step_loop (refs : list ref) :
  forall (s : Optimizers.state P) r s',
    for_ refs (fun optimizer =>
      zoom (@Optimizers.torch P) Optimizers.set_torch
           (Optimizers.torch_optimizer_step optimizer)) s = (r, s') ->
    Optimizers.self s' = Optimizers.self s
    /\ calls (Optimizers.torch s') = calls (Optimizers.torch s)
    /\ (forall x, lr (heap (Optimizers.torch s') x)
                  = lr (heap (Optimizers.torch s) x))
    /\ (forall x,
          steps_taken (heap (Optimizers.torch s) x)
          <= steps_taken (heap (Optimizers.torch s') x)
          <= steps_taken (heap (Optimizers.torch s) x)
             + count_occ Nat.eq_dec refs x)
    /\ (forall x, ~ In x refs ->
          heap (Optimizers.torch s') x = heap (Optimizers.torch s) x)
    /\ (r = Ok tt ->
        forall x,
          steps_taken (heap (Optimizers.torch s') x)
          = steps_taken (heap (Optimizers.torch s) x)
            + count_occ Nat.eq_dec refs x)
    /\ ((forall o st p, exists p', optimizer_step o st p = (Ok tt, p')) ->
        r = Ok tt).
Proof.
  induction refs as [| o refs IH]; intros s r s' Hrun.
  - cbn [for_] in Hrun. unfold ret in Hrun. inversion Hrun; subst.
    cbn [count_occ]. repeat split; try reflexivity; intros; lia.
  - cbn [for_] in Hrun. unfold bind at 1, zoom at 1 in Hrun.
    rewrite torch_optimizer_step_cases in Hrun.
    destruct (optimizer_step o (heap (Optimizers.torch s) o)
                (params (Optimizers.torch s))) as [[[] | e] p'] eqn:Hstep.
    + set (s1 := Optimizers.set_torch _ s) in Hrun.
      destruct (IH s1 r s' Hrun) as (H1 & H2 & H3 & H4 & H5 & H6 & H7).
      assert (forall x,
                 steps_taken (heap (Optimizers.torch s1) x)
                 = steps_taken (heap (Optimizers.torch s) x)
                   + (if Nat.eq_dec o x then 1 else 0)) as Hs1.
      { intros x. subst s1. cbn. unfold heap_set.
        destruct (Nat.eq_dec o x) as [<- | Hne].
        - rewrite Nat.eqb_refl. cbn. lia.
        - destruct (Nat.eqb_spec x o); [congruence | lia]. }
      assert (forall x, lr (heap (Optimizers.torch s1) x)
                        = lr (heap (Optimizers.torch s) x)) as Hl1.
      { intros x. subst s1. cbn. unfold heap_set.
        destruct (Nat.eqb_spec x o); [subst; reflexivity | reflexivity]. }
      split; [exact H1 |]. split; [exact H2 |].
      split; [intros x; rewrite H3; apply Hl1 |].
      split.
      { intros x. specialize (H4 x). specialize (Hs1 x). cbn [count_occ].
        destruct (Nat.eq_dec o x); lia. }
      split.
      { intros x Hx. cbn [In] in Hx. rewrite H5 by tauto.
        subst s1. cbn. unfold heap_set.
        destruct (Nat.eqb_spec x o); [subst; tauto | reflexivity]. }
      split.
      { intros Hok x. rewrite (H6 Hok x), Hs1. cbn [count_occ].
        destruct (Nat.eq_dec o x); lia. }
      exact H7.
    + inversion Hrun; subst.
      cbn [Optimizers.set_torch Optimizers.self Optimizers.torch heap calls].
      split; [reflexivity |]. split; [reflexivity |].
      split; [reflexivity |]. split; [intros; lia |].
      split; [reflexivity |]. split; [discriminate |].
      intros Hall. destruct (Hall o (heap (Optimizers.torch s) o)
                               (params (Optimizers.torch s))) as (p2 & Hp2).
      congruence.
Qed.

Lemma step_as_loop (s : Optimizers.state P) :
  Optimizers.step s
  = for_ (Optimizers.optimizers (Optimizers.self s)) (fun optimizer =>
      zoom (@Optimizers.torch P) Optimizers.set_torch
           (Optimizers.torch_optimizer_step optimizer)) s.
Proof. reflexivity. Qed.

(** X2: [step] changes nothing but the parameters and the step counts of
    the registered optimizers: whether it returns or raises, the object and
    its lists, the learning rates and the record of schedule calls are as
    before, an optimizer that is not registered is untouched, and no
    optimizer is stepped more often than it is registered. *)
Theorem step_leaves_rates_and_registrations (s : Optimizers.state P) :
  let s' := snd (Optimizers.step s) in
  let refs := Optimizers.optimizers (Optimizers.self s) in
  Optimizers.self s' = Optimizers.self s
  /\ calls (Optimizers.torch s') = calls (Optimizers.torch s)
  /\ (forall x, lr (heap (Optimizers.torch s') x)
                = lr (heap (Optimizers.torch s) x))
  /\ (forall x, ~ In x refs ->
        heap (Optimizers.torch s') x = heap (Optimizers.torch s) x)
  /\ (forall x,
        steps_taken (heap (Optimizers.torch s) x)
        <= steps_taken (heap (Optimizers.torch s') x)
        <= steps_taken (heap (Optimizers.torch s) x)
           + count_occ Nat.eq_dec refs x).
Proof.
  cbv zeta. rewrite step_as_loop.
  destruct (for_ _ _ s) as [r s'] eqn:Hrun. cbn [snd].
  destruct (step_loop _ _ Hrun) as (H1 & H2 & H3 & H4 & H5 & _).
  split; [exact H1 |]. split; [exact H2 |]. split; [exact H3 |].
  split; [exact H5 | exact H4].
Qed.

(** X3: when [step] returns, every optimizer has been stepped once for each
    time it is registered; and [step] returns whenever no optimizer's own
    [step()] raises. *)
Theorem step_steps_each_registration_once (s : Optimizers.state P) :
  let r := Optimizers.step s in
  let refs := Optimizers.optimizers (Optimizers.self s) in
  (fst r = Ok tt ->
   forall x,
     steps_taken (heap (Optimizers.torch (snd r)) x)
     = steps_taken (heap (Optimizers.torch s) x)
       + count_occ Nat.eq_dec refs x)
  /\ ((forall o st p, exists p', optimizer_step o st p = (Ok tt, p')) ->
      fst r = Ok tt).
Proof.
  cbv zeta. rewrite step_as_loop.
  destruct (for_ _ _ s) as [r s'] eqn:Hrun. cbn [fst snd].
  destruct (step_loop _ _ Hrun) as (_ & _ & _ & _ & _ & H6 & H7).
  split; [exact H6 | exact H7].
Qed.

End StepFacts.

(** ** [Manager.do_batch] and [Manager.do_epoch] *)

Section EpochFacts.
Context {P X : Type} {ext : Collaborators P X}.

Lemma on_params_run {A} (m : M P A) (s : Manager.state P X) :
  Manager.on_params m s
  = (fst (m (params (Manager.torch s))),
     Manager.set_params_of (snd (m (params (Manager.torch s)))) s).
Proof.
  unfold Manager.on_params, zoom.
  destruct (m (params (Manager.torch s))); reflexivity.
Qed.

(** [do_batch], one outcome at a time: the optimizers are stepped only
    after the gradients were reset and the forward and backward passes
    went through. *)
Lemma do_batch_cases (batch : X) (label : list nat) (s : Manager.state P X) :
  Manager.do_batch batch label s
  = let dev := if Manager.cuda (Manager.self s) then GPU else CPU in
    match zero_grad (params (Manager.torch s)) with
    | (Raise e, p1) => (Raise e, Manager.set_params_of p1 s)
    | (Ok _, p1) =>
        match forward (Manager.model (Manager.self s))
                {| data := batch; on := dev; volatile := false |} p1 with
        | (Raise e, p2) => (Raise e, Manager.set_params_of p2 s)
        | (Ok scores, p2) =>
            match loss_backward (Manager.criterion (Manager.self s)) scores
                    {| data := label; on := dev; volatile := false |} p2 with
            | (Raise e, p3) => (Raise e, Manager.set_params_of p3 s)
            | (Ok _, p3) =>
                zoom Manager.optimizers_view Manager.optimizers_put
                     Optimizers.step (Manager.set_params_of p3 s)
            end
        end
    end.
Proof.
  unfold Manager.do_batch. cbv zeta.
  unfold bind at 1, gets at 1.
  unfold bind at 1. rewrite on_params_run.
  destruct (zero_grad (params (Manager.torch s))) as [[[] | e] p1];
    cbn [fst snd]; [| reflexivity].
  unfold bind at 1, gets at 1.
  unfold bind at 1. rewrite on_params_run.
  cbn [Manager.set_params_of Manager.set_torch Manager.self Manager.torch
       set_params params].
  destruct (forward _ _ p1) as [[scores | e] p2]; cbn [fst snd];
    [| reflexivity].
  unfold bind at 1, gets at 1.
  unfold bind at 1. rewrite on_params_run.
  cbn [Manager.set_params_of Manager.set_torch Manager.self Manager.torch
       set_params params].
  destruct (loss_backward _ _ _ p2) as [[[] | e] p3]; cbn [fst snd];
    reflexivity.
Qed.

(** What the optimizers' [step], called from the manager, does to the
    manager's state. *)
Lemma manager_step_facts (s : Manager.state P X) r s' :
  zoom Manager.optimizers_view Manager.optimizers_put Optimizers.step s
  = (r, s') ->
  let refs := Optimizers.optimizers (Manager.optimizer s) in
  Manager.self s' = Manager.self s
  /\ Manager.optimizer s' = Manager.optimizer s
  /\ Manager.fs s' = Manager.fs s
  /\ Manager.trace s' = Manager.trace s
  /\ calls (Manager.torch s') = calls (Manager.torch s)
  /\ (forall x, lr (heap (Manager.torch s') x)
                = lr (heap (Manager.torch s) x))
  /\ (forall x,
        steps_taken (heap (Manager.torch s) x)
        <= steps_taken (heap (Manager.torch s') x)
        <= steps_taken (heap (Manager.torch s) x)
           + count_occ Nat.eq_dec refs x)
  /\ (forall x, ~ In x refs ->
        heap (Manager.torch s') x = heap (Manager.torch s) x)
  /\ (r = Ok tt ->
      forall x,
        steps_taken (heap (Manager.torch s') x)
        = steps_taken (heap (Manager.torch s) x)
          + count_occ Nat.eq_dec refs x).
Proof.
  unfold zoom. rewrite step_as_loop.
  destruct (for_ _ _ (Manager.optimizers_view s)) as [r0 o'] eqn:Hrun.
  intros H; inversion H; subst; clear H. cbv zeta.
  destruct (step_loop _ _ Hrun) as (H1 & H2 & H3 & H4 & H5 & H6 & _).
  cbn [Manager.optimizers_view Manager.optimizers_put Manager.self
       Manager.optimizer Manager.fs Manager.trace Manager.torch
       Optimizers.self Optimizers.torch] in *.
  repeat (split; [first [reflexivity | assumption] |]). exact H6.
Qed.

(** The same for one batch. *)
Lemma do_batch_facts batch label (s : Manager.state P X) r s' :
  Manager.do_batch batch label s = (r, s') ->
  let refs := Optimizers.optimizers (Manager.optimizer s) in
  Manager.self s' = Manager.self s
  /\ Manager.optimizer s' = Manager.optimizer s
  /\ Manager.fs s' = Manager.fs s
  /\ Manager.trace s' = Manager.trace s
  /\ calls (Manager.torch s') = calls (Manager.torch s)
  /\ (forall x, lr (heap (Manager.torch s') x)
                = lr (heap (Manager.torch s) x))
  /\ (forall x,
        steps_taken (heap (Manager.torch s) x)
        <= steps_taken (heap (Manager.torch s') x)
        <= steps_taken (heap (Manager.torch s) x)
           + count_occ Nat.eq_dec refs x)
  /\ (forall x, ~ In x refs ->
        heap (Manager.torch s') x = heap (Manager.torch s) x)
  /\ (r = Ok tt ->
      forall x,
        steps_taken (heap (Manager.torch s') x)
        = steps_taken (heap (Manager.torch s) x)
          + count_occ Nat.eq_dec refs x).
Proof.
  rewrite do_batch_cases. cbv zeta.
  assert (forall e p,
             (Raise e, Manager.set_params_of p s) = (r, s') ->
             Manager.self s' = Manager.self s
             /\ Manager.optimizer s' = Manager.optimizer s
             /\ Manager.fs s' = Manager.fs s
             /\ Manager.trace s' = Manager.trace s
             /\ calls (Manager.torch s') = calls (Manager.torch s)
             /\ (forall x, lr (heap (Manager.torch s') x)
                           = lr (heap (Manager.torch s) x))
             /\ (forall x,
                   steps_taken (heap (Manager.torch s) x)
                   <= steps_taken (heap (Manager.torch s') x)
                   <= steps_taken (heap (Manager.torch s) x)
                      + count_occ Nat.eq_dec
                          (Optimizers.optimizers (Manager.optimizer s)) x)
             /\ (forall x,
                   ~ In x (Optimizers.optimizers (Manager.optimizer s)) ->
                   heap (Manager.torch s') x = heap (Manager.torch s) x)
             /\ (r = Ok tt ->
                 forall x,
                   steps_taken (heap (Manager.torch s') x)
                   = steps_taken (heap (Manager.torch s) x)
                     + count_occ Nat.eq_dec
                         (Optimizers.optimizers (Manager.optimizer s)) x))
    as Hraise.
  { intros e p H. inversion H; subst; clear H. cbn.
    repeat (split; [first [reflexivity | intros; lia] |]). discriminate. }
  destruct (zero_grad _) as [[[] | e] p1]; [| apply Hraise].
  destruct (forward _ _ p1) as [[scores | e] p2]; [| apply Hraise].
  destruct (loss_backward _ _ _ p2) as [[[] | e] p3]; [| apply Hraise].
  intros Hstep. apply manager_step_facts in Hstep. exact Hstep.
Qed.

(** The loop of [do_epoch]. *)
Lemma do_epoch_loop (items : Loader X) :
  forall (s : Manager.state P X) r s',
    for_ items (fun '(batch, label) => Manager.do_batch batch label) s
    = (r, s') ->
    let refs := Optimizers.optimizers (Manager.optimizer s) in
    Manager.self s' = Manager.self s
    /\ Manager.optimizer s' = Manager.optimizer s
    /\ Manager.fs s' = Manager.fs s
    /\ Manager.trace s' = Manager.trace s
    /\ calls (Manager.torch s') = calls (Manager.torch s)
    /\ (forall x, lr (heap (Manager.torch s') x)
                  = lr (heap (Manager.torch s) x))
    /\ (forall x,
          steps_taken (heap (Manager.torch s) x)
          <= steps_taken (heap (Manager.torch s') x)
          <= steps_taken (heap (Manager.torch s) x)
             + length items * count_occ Nat.eq_dec refs x)
    /\ (forall x, ~ In x refs ->
          heap (Manager.torch s') x = heap (Manager.torch s) x)
    /\ (r = Ok tt ->
        forall x,
          steps_taken (heap (Manager.torch s') x)
          = steps_taken (heap (Manager.torch s) x)
            + length items * count_occ Nat.eq_dec refs x).
Proof.
  induction items as [| [batch label] items IH]; intros s r s' Hrun; cbv zeta.
  - cbn [for_] in Hrun. unfold ret in Hrun. inversion Hrun; subst.
    cbn [length Nat.mul].
    repeat (split; [first [reflexivity | intros; lia] |]). intros; lia.
  - cbn [for_] in Hrun. unfold bind at 1 in Hrun.
    destruct (Manager.do_batch batch label s) as [[[] | e] s1] eqn:Hb.
    + apply do_batch_facts in Hb. cbv zeta in Hb.
      destruct Hb as (B1 & B2 & B3 & B4 & B5 & B6 & B7 & B8 & B9).
      apply IH in Hrun. cbv zeta in Hrun. rewrite B2 in Hrun.
      destruct Hrun as (R1 & R2 & R3 & R4 & R5 & R6 & R7 & R8 & R9).
      split; [congruence |]. split; [congruence |]. split; [congruence |].
      split; [congruence |]. split; [congruence |].
      split; [intros x; rewrite R6; apply B6 |].
      split; [intros x; specialize (R7 x); specialize (B7 x);
              cbn [length]; lia |].
      split; [intros x Hx; rewrite R8, B8 by assumption; reflexivity |].
      intros Hok x. rewrite (R9 Hok x), (B9 eq_refl x). cbn [length]. lia.
    + inversion Hrun; subst; clear Hrun.
      apply do_batch_facts in Hb. cbv zeta in Hb.
      destruct Hb as (B1 & B2 & B3 & B4 & B5 & B6 & B7 & B8 & B9).
      repeat (split; [assumption |]).
      split; [intros x; specialize (B7 x); cbn [length]; lia |].
      split; [assumption | discriminate].
Qed.

Lemma do_epoch_as_loop epoch_idx (s : Manager.state P X) :
  Manager.do_epoch epoch_idx s
  = for_ (Manager.train_data_loader (Manager.self s))
      (fun '(batch, label) => Manager.do_batch batch label) s.
Proof. reflexivity. Qed.

(** X4: [do_epoch] changes nothing but the parameters and the step counts
    of the registered optimizers.  Whether it returns or raises, the manager
    object (args, CUDA flag, mode and device of the model, loaders,
    criterion), the [Optimizers] object, the files, what was printed and
    written, the learning rates and the record of schedule calls are as
    before, and an optimizer that is not registered is untouched. *)
Theorem do_epoch_touches_parameters_and_steps_only (epoch_idx : nat)
    (s : Manager.state P X) :
  let s' := snd (Manager.do_epoch epoch_idx s) in
  Manager.self s' = Manager.self s
  /\ Manager.optimizer s' = Manager.optimizer s
  /\ Manager.fs s' = Manager.fs s
  /\ Manager.trace s' = Manager.trace s
  /\ calls (Manager.torch s') = calls (Manager.torch s)
  /\ (forall x, lr (heap (Manager.torch s') x)
                = lr (heap (Manager.torch s) x))
  /\ (forall x,
        ~ In x (Optimizers.optimizers (Manager.optimizer s)) ->
        heap (Manager.torch s') x = heap (Manager.torch s) x).
Proof.
  cbv zeta. rewrite do_epoch_as_loop.
  destruct (for_ _ _ s) as [r s'] eqn:Hrun. cbn [snd].
  apply do_epoch_loop in Hrun. cbv zeta in Hrun.
  destruct Hrun as (R1 & R2 & R3 & R4 & R5 & R6 & _ & R8 & _).
  repeat (split; [assumption |]). exact R8.
Qed.

(** X5: when [do_epoch] returns, every optimizer has been stepped once per
    training batch for each time it is registered; when it raises, no
    optimizer has been stepped more often than that.  With no training
    batch it returns at once and changes nothing. *)
Theorem do_epoch_steps_once_per_batch (epoch_idx : nat)
    (s : Manager.state P X) :
  let r := Manager.do_epoch epoch_idx s in
  let batches := length (Manager.train_data_loader (Manager.self s)) in
  let refs := Optimizers.optimizers (Manager.optimizer s) in
  (fst r = Ok tt ->
   forall x,
     steps_taken (heap (Manager.torch (snd r)) x)
     = steps_taken (heap (Manager.torch s) x)
       + batches * count_occ Nat.eq_dec refs x)
  /\ (forall x,
        steps_taken (heap (Manager.torch s) x)
        <= steps_taken (heap (Manager.torch (snd r)) x)
        <= steps_taken (heap (Manager.torch s) x)
           + batches * count_occ Nat.eq_dec refs x)
  /\ (Manager.train_data_loader (Manager.self s) = [] -> r = (Ok tt, s)).
Proof.
  cbv zeta. rewrite do_epoch_as_loop. split; [| split].
  - destruct (for_ _ _ s) as [r s'] eqn:Hrun. cbn [fst snd].
    apply do_epoch_loop in Hrun. cbv zeta in Hrun.
    destruct Hrun as (_ & _ & _ & _ & _ & _ & _ & _ & R9). exact R9.
  - destruct (for_ _ _ s) as [r s'] eqn:Hrun. cbn [fst snd].
    apply do_epoch_loop in Hrun. cbv zeta in Hrun.
    destruct Hrun as (_ & _ & _ & _ & _ & _ & R7 & _). exact R7.
  - intros ->. reflexivity.
Qed.

End EpochFacts.

(** ** More on [Manager.eval] *)

Section EvalFrame.
Context {P X : Type} {ext : Collaborators P X}.

(** What [eval] leaves alone, and what it tells when it returns. *)
Lemma eval_facts (s : Manager.state P X) r s' :
  Manager.eval s = (r, s') ->
  Manager.args (Manager.self s') = Manager.args (Manager.self s)
  /\ Manager.cuda (Manager.self s') = Manager.cuda (Manager.self s)
  /\ Manager.train_data_loader (Manager.self s')
     = Manager.train_data_loader (Manager.self s)
  /\ Manager.test_data_loader (Manager.self s')
     = Manager.test_data_loader (Manager.self s)
  /\ Manager.criterion (Manager.self s') = Manager.criterion (Manager.self s)
  /\ device (Manager.model (Manager.self s'))
     = device (Manager.model (Manager.self s))
  /\ Manager.optimizer s' = Manager.optimizer s
  /\ heap (Manager.torch s') = heap (Manager.torch s)
  /\ calls (Manager.torch s') = calls (Manager.torch s)
  /\ Manager.fs s' = Manager.fs s
  /\ (forall errs, r = Ok errs ->
        training (Manager.model (Manager.self s')) = true
        /\ errs <> [] /\ Forall percentage errs).
Proof.
  intros Hrun.
  pose proof (eval_loop_keeps
    (fun s : Manager.state P X =>
       (Manager.args (Manager.self s), Manager.cuda (Manager.self s),
        Manager.train_data_loader (Manager.self s),
        Manager.test_data_loader (Manager.self s),
        Manager.criterion (Manager.self s),
        device (Manager.model (Manager.self s)),
        Manager.optimizer s, heap (Manager.torch s),
        calls (Manager.torch s), Manager.fs s))
    (Manager.test_data_loader (Manager.self s)) no_locals
    (fun p s => eq_refl) (eval_entered s)) as Hkeep.
  assert (forall errs, r = Ok errs ->
             training (Manager.model (Manager.self s')) = true
             /\ errs <> [] /\ Forall percentage errs) as Hok.
  { intros errs ->.
    destruct (eval_ok_inv _ Hrun)
      as (batch & label & rest & scores & p' & em
          & _ & _ & Hmeter & Htopk & Hval & _).
    destruct (MeterFacts.value_ok Hmeter Hval) as [Hlen Hpct].
    split; [| split; [| exact Hpct]].
    - rewrite eval_cases in Hrun.
      destruct (for_locals _ _ _ _) as [[l | e] s2]; [| discriminate].
      destruct (Manager.error_meter l) as [em' |]; [| discriminate].
      destruct (ClassErrorMeter.value em') as [error |]; [| discriminate].
      destruct (Manager.topk l) as [ks |]; [| discriminate].
      inversion Hrun; subst. reflexivity.
    - intros ->. rewrite Htopk, k_values_length in Hlen.
      destruct (5 <? ncols scores); discriminate Hlen. }
  rewrite eval_cases in Hrun.
  destruct (for_locals _ _ _ _) as [[l | e] s2]; cbn [snd] in Hkeep.
  - destruct (Manager.error_meter l) as [em |].
    + destruct (ClassErrorMeter.value em) as [error |].
      * destruct (Manager.topk l) as [ks |];
          inversion Hrun; subst; clear Hrun;
          cbn in Hkeep |- *; inversion Hkeep;
          do 10 (split; [first [reflexivity | assumption] |]); exact Hok.
      * inversion Hrun; subst; clear Hrun.
        cbn in Hkeep |- *; inversion Hkeep.
        do 10 (split; [first [reflexivity | assumption] |]); exact Hok.
    + inversion Hrun; subst; clear Hrun.
      cbn in Hkeep |- *; inversion Hkeep.
      do 10 (split; [first [reflexivity | assumption] |]); exact Hok.
  - inversion Hrun; subst; clear Hrun.
    cbn in Hkeep |- *; inversion Hkeep.
    do 10 (split; [first [reflexivity | assumption] |]); exact Hok.
Qed.

End EvalFrame.

Section EvalMore.
Context {P X : Type} {ext : Collaborators P X}.

(** X6: [eval] writes no file, touches no optimizer and changes nothing of
    the manager but the mode of the model (and, through the network's
    forward pass, the parameters).  Whether it returns or raises, the args,
    the CUDA flag, the loaders, the criterion, the device of the model, the
    [Optimizers] object, the optimizer objects, the record of schedule
    calls, the files and the checkpoints written are as before; it prints
    its heading and, only when it returns, the report of the errors. *)
Theorem eval_touches_mode_and_console_only (s : Manager.state P X) :
  let r := Manager.eval s in
  let s' := snd r in
  Manager.args (Manager.self s') = Manager.args (Manager.self s)
  /\ Manager.cuda (Manager.self s') = Manager.cuda (Manager.self s)
  /\ Manager.train_data_loader (Manager.self s')
     = Manager.train_data_loader (Manager.self s)
  /\ Manager.test_data_loader (Manager.self s')
     = Manager.test_data_loader (Manager.self s)
  /\ Manager.criterion (Manager.self s') = Manager.criterion (Manager.self s)
  /\ device (Manager.model (Manager.self s'))
     = device (Manager.model (Manager.self s))
  /\ Manager.optimizer s' = Manager.optimizer s
  /\ heap (Manager.torch s') = heap (Manager.torch s)
  /\ calls (Manager.torch s') = calls (Manager.torch s)
  /\ Manager.fs s' = Manager.fs s
  /\ saved s' = saved s
  /\ match fst r with
     | Ok errs =>
         exists ks,
           Manager.trace s'
           = Manager.trace s
             ++ [Printed MsgPerformingEval;
                 Printed (MsgEval (combine ks errs))]
     | Raise _ =>
         Manager.trace s' = Manager.trace s ++ [Printed MsgPerformingEval]
     end.
Proof.
  cbv zeta.
  destruct (Manager.eval s) as [r s'] eqn:Hrun. cbn [fst snd].
  destruct (eval_facts _ Hrun)
    as (F1 & F2 & F3 & F4 & F5 & F6 & F7 & F8 & F9 & F10 & _).
  do 10 (split; [assumption |]).
  split.
  { pose proof (eval_keeps_saved s) as Hsaved. rewrite Hrun in Hsaved.
    exact Hsaved. }
  pose proof (eval_loop_keeps (@Manager.trace P X)
                (Manager.test_data_loader (Manager.self s)) no_locals
                (fun p s => eq_refl) (eval_entered s)) as Htrace.
  rewrite eval_entered_trace in Htrace.
  rewrite eval_cases in Hrun.
  destruct (for_locals _ _ _ _) as [[l | e] s2]; cbn [snd] in Htrace.
  - destruct (Manager.error_meter l) as [em |].
    + destruct (ClassErrorMeter.value em) as [error |].
      * destruct (Manager.topk l) as [ks |];
          inversion Hrun; subst; clear Hrun; [| exact Htrace].
        exists ks. cbn. rewrite Htrace, <- app_assoc. reflexivity.
      * inversion Hrun; subst. exact Htrace.
    + inversion Hrun; subst. exact Htrace.
  - inversion Hrun; subst. exact Htrace.
Qed.

Lemma count_occ_firstn_mono (k k' : nat) (p : list nat) (y : nat) :
  k <= k' ->
  count_occ Nat.eq_dec (firstn k p) y <= count_occ Nat.eq_dec (firstn k' p) y.
Proof.
  revert k k'; induction p as [| a p IH]; intros k k' Hle.
  - rewrite !firstn_nil. lia.
  - destruct k as [| k]; [simpl; lia |].
    destruct k' as [| k']; [lia |].
    cbn [firstn count_occ]. specialize (IH k k' ltac:(lia)).
    destruct (Nat.eq_dec a y); lia.
Qed.

Lemma correct_sum_mono (k k' : nat) pred target :
  k <= k' ->
  (ClassErrorMeter.correct_sum k pred target
   <= ClassErrorMeter.correct_sum k' pred target)%Z.
Proof.
  intros Hle. revert target; induction pred as [| p pred IH];
    intros [| y target]; cbn [ClassErrorMeter.correct_sum]; try lia.
  specialize (IH target).
  pose proof (count_occ_firstn_mono p y Hle). lia.
Qed.

(** Adding a batch keeps the count under 5 at most the count under 1. *)
Lemma add_keeps_ordered output target m m' :
  meter_ok m -> In 1 (ClassErrorMeter.topk m) -> ordered m ->
  ClassErrorMeter.add output target m = Ok m' ->
  ordered m'.
Proof.
  intros (Hnd & Hn & Hsum) H1 Hord. unfold ClassErrorMeter.add.
  destruct (length target =? nrows output); [| discriminate]. simpl.
  destruct (rev (ClassErrorMeter.topk m)) as [| maxk ?]; [discriminate |].
  destruct (ncols output <? maxk); [discriminate |].
  destruct (ClassErrorMeter.add_sums _ _ _ _ _) as [d |] eqn:Hrun;
    [| discriminate].
  intros Hm'; inversion Hm'; subst; clear Hm'.
  destruct (MeterFacts.add_sums_ok _ _ _ _ Hnd Hrun) as [Hin Hout].
  destruct (MeterFacts.topk_indices_rows maxk output) as [Hlen Hrows].
  intros v1' v5' Hv1' Hv5'. cbn [ClassErrorMeter.sum] in Hv1', Hv5'.
  destruct (Hin 1 H1) as (v1 & Hv1 & Hv1new).
  rewrite Hv1new in Hv1'. inversion Hv1'; subst v1'; clear Hv1'.
  pose proof (MeterFacts.correct_sum_bounds 1 target Hrows) as Hc1.
  rewrite Hlen in Hc1.
  destruct (in_dec Nat.eq_dec 5 (ClassErrorMeter.topk m)) as [H5 | H5].
  - destruct (Hin 5 H5) as (v5 & Hv5 & Hv5new).
    rewrite Hv5new in Hv5'. inversion Hv5'; subst v5'; clear Hv5'.
    specialize (Hord v1 v5 Hv1 Hv5).
    pose proof (@correct_sum_mono 1 5 (ClassErrorMeter.topk_indices maxk output)
                  target ltac:(lia)).
    lia.
  - rewrite (Hout 5 H5) in Hv5'. specialize (Hord v1 v5' Hv1 Hv5'). lia.
Qed.

Lemma k_values_has_1 width : In 1 (k_values width).
Proof. unfold k_values. destruct (5 <? width); left; reflexivity. Qed.

Lemma k_values_ordered width :
  ordered (ClassErrorMeter.init (k_values width)).
Proof.
  unfold k_values. destruct (5 <? width); intros v1 v5 H1 H5; cbn in H1, H5.
  - inversion H1; inversion H5; subst. lia.
  - discriminate H5.
Qed.

(** The meter of the loop of [eval] is sound and ordered after every batch
    that went through. *)
Lemma eval_batch_ordered l item (s : Manager.state P X) l' s' :
  l = no_locals
  \/ (exists em, Manager.error_meter l = Some em
                 /\ meter_ok em /\ In 1 (ClassErrorMeter.topk em)
                 /\ ordered em) ->
  Manager.eval_batch l item s = (Ok l', s') ->
  exists em', Manager.error_meter l' = Some em'
              /\ meter_ok em' /\ In 1 (ClassErrorMeter.topk em')
              /\ ordered em'.
Proof.
  intros Hl. destruct item as [batch label]. rewrite eval_batch_cases.
  destruct (forward _ _ _) as [[scores | e] p']; [| discriminate].
  cbv zeta.
  set (em := match Manager.error_meter l with
             | None => ClassErrorMeter.init (k_values (ncols scores))
             | Some em => em
             end).
  assert (meter_ok em /\ In 1 (ClassErrorMeter.topk em) /\ ordered em)
    as (Hok & H1 & Hord).
  { subst em. destruct Hl as [-> | (em & -> & Hok & H1 & Hord)].
    - cbn [no_locals Manager.error_meter].
      split; [apply k_values_ok |].
      split; [rewrite k_values_topk; apply k_values_has_1
             | apply k_values_ordered].
    - auto. }
  destruct (ClassErrorMeter.add scores label em) as [em' |] eqn:Hadd;
    [| discriminate].
  intros H; inversion H; subst; clear H.
  destruct (MeterFacts.add_keeps_ok _ _ Hok Hadd) as (Hok' & Htopk & _).
  exists em'. cbn [Manager.error_meter].
  split; [reflexivity |]. split; [exact Hok' |].
  split; [rewrite Htopk; exact H1 |].
  exact (add_keeps_ordered _ _ Hok H1 Hord Hadd).
Qed.

Lemma eval_loop_ordered loader l (s : Manager.state P X) l' s' :
  (exists em, Manager.error_meter l = Some em
              /\ meter_ok em /\ In 1 (ClassErrorMeter.topk em)
              /\ ordered em) ->
  for_locals loader Manager.eval_batch l s = (Ok l', s') ->
  exists em', Manager.error_meter l' = Some em'
              /\ meter_ok em' /\ In 1 (ClassErrorMeter.topk em')
              /\ ordered em'.
Proof.
  revert l s; induction loader as [| item loader IH]; intros l s Hl Hrun.
  - simpl in Hrun. inversion Hrun; subst. exact Hl.
  - simpl in Hrun. apply bind_ok_inv in Hrun.
    destruct Hrun as (l1 & s1 & Hb & Hrest).
    eapply IH; [| exact Hrest].
    eapply eval_batch_ordered; [right; exact Hl | exact Hb].
Qed.

Lemma percent_le (v w total : Z) :
  (v <= w)%Z -> (0 < total)%Z ->
  (inject_Z v / inject_Z total * 100 <= inject_Z w / inject_Z total * 100)%Q.
Proof.
  intros Hvw Ht. destruct total as [| t | t]; try lia.
  unfold Qle, Qdiv, Qmult, Qinv, inject_Z. simpl. nia.
Qed.

(** X7: when [eval] returns two values, the second (the top-5 error) is at
    most the first (the top-1 error). *)
Theorem eval_top5_error_at_most_top1 (s : Manager.state P X) e1 e5 s' :
  Manager.eval s = (Ok [e1; e5], s') -> (e5 <= e1)%Q.
Proof.
  intros Hrun. rewrite eval_cases in Hrun.
  destruct (for_locals _ _ _ _) as [[l | e] s2] eqn:Hloop; [| discriminate].
  destruct (Manager.error_meter l) as [em |] eqn:Hem; [| discriminate].
  destruct (ClassErrorMeter.value em) as [error |] eqn:Hval; [| discriminate].
  destruct (Manager.topk l) as [ks |] eqn:Hks; [| discriminate].
  inversion Hrun; subst; clear Hrun.
  destruct (Manager.test_data_loader (Manager.self s))
    as [| item rest] eqn:Hloader.
  { simpl in Hloop. inversion Hloop; subst. discriminate Hem. }
  cbn [for_locals] in Hloop. apply bind_ok_inv in Hloop.
  destruct Hloop as (l1 & s1 & Hfirst & Hrest).
  pose proof (@eval_batch_ordered no_locals item (eval_entered s) l1 s1
                (or_introl eq_refl) Hfirst) as Hord1.
  destruct (@eval_loop_ordered rest l1 s1 l s2 Hord1 Hrest)
    as (em' & Hem' & Hok & _ & Hord).
  rewrite Hem in Hem'. inversion Hem'; subst em'; clear Hem'.
  destruct item as [batch label]. apply eval_batch_first in Hfirst.
  destruct Hfirst as (scores & p' & _ & Hready).
  destruct (eval_loop_next _ _ Hready Hrest)
    as (em' & Hem' & _ & Htopk & _).
  rewrite Hem in Hem'. inversion Hem'; subst em'; clear Hem'.
  unfold ClassErrorMeter.value in Hval. rewrite Htopk in Hval.
  unfold k_values in Hval. destruct (5 <? ncols scores).
  - cbn [ClassErrorMeter.values] in Hval.
    unfold ClassErrorMeter.value_at in Hval.
    destruct (ClassErrorMeter.dict_get 1 (ClassErrorMeter.sum em))
      as [v1 |] eqn:Hv1; [| discriminate].
    destruct (Z.eqb_spec (ClassErrorMeter.n em) 0) as [| Hnz];
      [discriminate |].
    destruct (ClassErrorMeter.dict_get 5 (ClassErrorMeter.sum em))
      as [v5 |] eqn:Hv5; [| discriminate].
    inversion Hval; subst; clear Hval.
    destruct Hok as (_ & Hn & _).
    apply percent_le; [exact (Hord v1 v5 Hv1 Hv5) | lia].
  - cbn [ClassErrorMeter.values] in Hval.
    destruct (ClassErrorMeter.value_at em 1); discriminate Hval.
Qed.

End EvalMore.

(** For X7: on the six-class network [eval] returns a top-1 and a top-5
    error, and the second is at most the first. *)
Lemma eval_top5_error_at_most_top1_witness :
  exists e1 e5 s',
    @Manager.eval nat (list nat) SixClasses.six SixClasses.six_state
    = (Ok [e1; e5], s')
    /\ (e5 <= e1)%Q.
Proof.
  destruct (@Manager.eval nat (list nat) SixClasses.six SixClasses.six_state)
    as [r s'] eqn:Hrun.
  assert (exists e1 e5, r = Ok [e1; e5]) as (e1 & e5 & ->).
  { apply (f_equal fst) in Hrun. cbn [fst] in Hrun. subst r.
    vm_compute. eexists; eexists; reflexivity. }
  exists e1, e5, s'. split; [reflexivity |].
  exact (@eval_top5_error_at_most_top1 nat (list nat) SixClasses.six
           SixClasses.six_state e1 e5 s' Hrun).
Defined.

(** ** [Manager.save_model] followed by [Manager.load_model] *)

Section RoundTrip.
Context {P X : Type} {ext : Collaborators P X}.

(** [save_model], one outcome at a time. *)
Lemma save_model_cases epoch best errors savename (s : Manager.state P X) :
  Manager.save_model epoch best errors savename s
  = let ck := {| Ckpt.args := Manager.args (Manager.self s);
                 Ckpt.epoch := epoch;
                 Ckpt.accuracy := best;
                 Ckpt.errors := errors;
                 Ckpt.state_dict :=
                   {| tensors := params (Manager.torch s);
                      location := CPU |} |} in
    let self' :=
      Manager.set_model (fun m =>
        {| training := training m;
           device := if Manager.cuda (Manager.self s) then GPU else CPU |})
        (Manager.self s) in
    if writable (Manager.fs s) (String.append savename ".pt")
    then (Ok tt,
          {| Manager.self := self';
             Manager.optimizer := Manager.optimizer s;
             Manager.torch := Manager.torch s;
             Manager.fs :=
               fs_write (String.append savename ".pt") (Pickle ck)
                        (Manager.fs s);
             Manager.trace :=
               Manager.trace s
               ++ [Wrote (String.append savename ".pt") (Pickle ck)] |})
    else (Raise IOError,
          {| Manager.self := self';
             Manager.optimizer := Manager.optimizer s;
             Manager.torch := Manager.torch s;
             Manager.fs := Manager.fs s;
             Manager.trace := Manager.trace s |}).
Proof.
  unfold Manager.save_model, Manager.torch_save, Manager.write_file,
    Manager.model_state_dict, Manager.model_cpu, Manager.model_cuda,
    bind, gets, modify, ret. cbv zeta.
  cbn [fst snd Manager.self Manager.set_self Manager.set_model Manager.cuda
       Manager.model Manager.args Manager.torch Manager.fs device training].
  destruct (Manager.cuda (Manager.self s));
    cbn [fst snd Manager.self Manager.set_self Manager.set_model Manager.cuda
         Manager.model Manager.args Manager.torch Manager.fs Manager.trace
         Manager.optimizer device training];
    destruct (writable (Manager.fs s) (String.append savename ".pt"));
    reflexivity.
Qed.

(** [load_model], one outcome at a time. *)
Lemma load_model_cases savename (s : Manager.state P X) :
  Manager.load_model savename s
  = match files (Manager.fs s) (String.append savename ".pt") with
    | None => (Raise IOError, s)
    | Some (Json _ _) => (Raise UnpicklingError, s)
    | Some (Pickle ck) =>
        match load_state_dict (Ckpt.state_dict ck)
                (params (Manager.torch s)) with
        | (Ok _, p') =>
            (Ok tt,
             Manager.set_self (Manager.set_args (Ckpt.args ck))
               (Manager.set_params_of p' s))
        | (Raise e, p') => (Raise e, Manager.set_params_of p' s)
        end
    end.
Proof.
  unfold Manager.load_model, Manager.torch_load.
  unfold bind at 1. unfold bind at 1, gets at 1.
  destruct (files (Manager.fs s) (String.append savename ".pt"))
    as [[ck | hist a] |]; try reflexivity.
  unfold ret at 1. unfold bind at 1. rewrite on_params_run.
  destruct (load_state_dict _ _) as [[[] | e] p']; reflexivity.
Qed.

(** X8: what [save_model] writes, [load_model] reads back.  After a
    [save_model] that returned, [torch.load] of the same name gives the
    checkpoint that was built: the args, the epoch, the accuracy and the
    errors handed in, and the parameters as they were, in host memory.
    [load_model] then passes exactly that state dict to [load_state_dict]
    and leaves the args as they were before the save. *)
Theorem save_then_load_round_trip epoch best errors savename
    (s s1 : Manager.state P X) :
  Manager.save_model epoch best errors savename s = (Ok tt, s1) ->
  let ck := {| Ckpt.args := Manager.args (Manager.self s);
               Ckpt.epoch := epoch;
               Ckpt.accuracy := best;
               Ckpt.errors := errors;
               Ckpt.state_dict :=
                 {| tensors := params (Manager.torch s);
                    location := CPU |} |} in
  let loaded := load_state_dict (Ckpt.state_dict ck)
                  (params (Manager.torch s)) in
  let r := Manager.load_model savename s1 in
  Manager.torch_load (String.append savename ".pt") s1 = (Ok ck, s1)
  /\ fst r = fst loaded
  /\ params (Manager.torch (snd r)) = snd loaded
  /\ Manager.args (Manager.self (snd r)) = Manager.args (Manager.self s)
  /\ Manager.fs (snd r) = Manager.fs s1.
Proof.
  rewrite save_model_cases. cbv zeta.
  destruct (writable (Manager.fs s) (String.append savename ".pt"));
    [| discriminate].
  intros H; inversion H; subst; clear H.
  rewrite load_model_cases.
  unfold Manager.torch_load, bind, gets.
  cbn [Manager.fs fs_write files Manager.torch].
  rewrite String.eqb_refl. cbn [Ckpt.state_dict Ckpt.args].
  split; [reflexivity |].
  destruct (load_state_dict _ (params (Manager.torch s))) as [[[] | e] p'];
    cbn; repeat split; reflexivity.
Qed.

End RoundTrip.

(** For X8: the toy manager saves under [best] and loads it again. *)
Lemma save_then_load_round_trip_witness :
  exists s1,
    Manager.save_model 1 70 [30%Q] "best" Scenario.toy_state = (Ok tt, s1)
    /\ fst (Manager.load_model "best" s1) = Ok tt
    /\ Manager.args (Manager.self (snd (Manager.load_model "best" s1)))
       = Scenario.toy_args.
Proof.
  destruct (Manager.save_model 1 70 [30%Q] "best" Scenario.toy_state)
    as [r s1] eqn:Hrun.
  assert (r = Ok tt) as ->.
  { apply (f_equal fst) in Hrun. cbn [fst] in Hrun. subst r. reflexivity. }
  exists s1. split; [reflexivity |].
  destruct (save_then_load_round_trip _ _ _ _ _ Hrun)
    as (_ & Hfst & _ & Hargs & _).
  split; [rewrite Hfst; reflexivity | rewrite Hargs; reflexivity].
Defined.

(** ** More on [Manager.train] *)

Lemma suffix_json_pt (savename : string) :
  String.eqb (String.append savename ".json") (String.append savename ".pt")
  = false.
Proof.
  induction savename as [| c savename IH]; [reflexivity |].
  cbn [String.append String.eqb]. rewrite Ascii.eqb_refl. exact IH.
Qed.

Lemma suffix_pt_json (savename : string) :
  String.eqb (String.append savename ".pt") (String.append savename ".json")
  = false.
Proof.
  rewrite String.eqb_sym. apply suffix_json_pt.
Qed.

Section TrainMore.
Context {P X : Type} {ext : Collaborators P X}.

Lemma epoch_started_facts (i : nat) (s : Manager.state P X) :
  let s3 := epoch_started i s in
  Manager.self s3
  = Manager.set_model (fun m => {| training := true; device := device m |})
      (Manager.self s)
  /\ Manager.optimizer s3 = Manager.optimizer s
  /\ params (Manager.torch s3) = params (Manager.torch s)
  /\ heap (Manager.torch s3)
     = fold_left (scheduled (Z.of_nat (i + 1)) (decay_factor s))
         (registered s) (heap (Manager.torch s))
  /\ calls (Manager.torch s3)
     = calls (Manager.torch s)
       ++ map (call_for (Z.of_nat (i + 1)) (decay_factor s)) (registered s)
  /\ Manager.fs s3 = Manager.fs s
  /\ Manager.trace s3 = Manager.trace s ++ [Printed (MsgEpoch (i + 1))].
Proof.
  cbv zeta. unfold epoch_started, zoom. rewrite update_lr_run.
  repeat split; reflexivity.
Qed.

(** A completed epoch, step by step. *)
Lemma train_epoch_ok_full savename l i (s : Manager.state P X) l' s' :
  Manager.train_epoch savename l i s = (Ok l', s') ->
  exists s4 errors s5,
    Manager.do_epoch (i + 1) (epoch_started i s) = (Ok tt, s4)
    /\ Manager.eval s4 = (Ok errors, s5)
    /\ Manager.error_history l' = Manager.error_history l ++ [errors]
    /\ writable (Manager.fs s5) (String.append savename ".json") = true
    /\ let log := Json (Manager.error_history l')
                    (Manager.args (Manager.self s5)) in
       let ck := {| Ckpt.args := Manager.args (Manager.self s5);
                    Ckpt.epoch := i + 1;
                    Ckpt.accuracy := top1_accuracy errors;
                    Ckpt.errors := errors;
                    Ckpt.state_dict :=
                      {| tensors := params (Manager.torch s5);
                         location := CPU |} |} in
       Manager.optimizer s' = Manager.optimizer s5
       /\ Manager.torch s' = Manager.torch s5
       /\ if Qltb (Manager.best_accuracy l) (top1_accuracy errors)
          then Manager.best_accuracy l' = top1_accuracy errors
               /\ writable (Manager.fs s5) (String.append savename ".pt")
                  = true
               /\ Manager.self s'
                  = Manager.set_model (fun m =>
                      {| training := training m;
                         device := if Manager.cuda (Manager.self s5)
                                   then GPU else CPU |})
                      (Manager.self s5)
               /\ Manager.fs s'
                  = fs_write (String.append savename ".pt") (Pickle ck)
                      (fs_write (String.append savename ".json") log
                         (Manager.fs s5))
               /\ Manager.trace s'
                  = Manager.trace s5
                    ++ [Wrote (String.append savename ".json") log;
                        Printed (MsgBest (Manager.best_accuracy l)
                                   (top1_accuracy errors));
                        Wrote (String.append savename ".pt") (Pickle ck)]
          else Manager.best_accuracy l' = Manager.best_accuracy l
               /\ Manager.self s' = Manager.self s5
               /\ Manager.fs s'
                  = fs_write (String.append savename ".json") log
                      (Manager.fs s5)
               /\ Manager.trace s'
                  = Manager.trace s5
                    ++ [Wrote (String.append savename ".json") log].
Proof.
  unfold Manager.train_epoch. intros H.
  apply bind_ok_inv in H. destruct H as ([] & s1 & H1 & H).
  apply bind_ok_inv in H. destruct H as ([] & s2 & H2 & H).
  apply bind_ok_inv in H. destruct H as ([] & s3 & H3 & H).
  apply bind_ok_inv in H. destruct H as ([] & s4 & H4 & H).
  apply bind_ok_inv in H. destruct H as (errors & s5 & H5 & H).
  apply bind_ok_inv in H. destruct H as (e0 & s6 & H6 & H).
  apply bind_ok_inv in H. destruct H as (a & s7 & H7 & H).
  apply bind_ok_inv in H. destruct H as ([] & s8 & H8 & H).
  assert (s3 = epoch_started i s) as ->.
  { apply (f_equal snd) in H1, H2, H3. cbn [snd] in H1, H2, H3.
    subst s1 s2 s3. reflexivity. }
  destruct errors as [| e tail]; [discriminate H6 |].
  inversion H6; subst e0 s6; clear H6.
  inversion H7; subst a s7; clear H7.
  unfold Manager.write_file in H8.
  destruct (writable (Manager.fs s5) (String.append savename ".json")) eqn:Hw;
    [| discriminate H8].
  inversion H8; subst s8; clear H8.
  exists s4, (e :: tail), s5.
  split; [exact H4 |]. split; [exact H5 |].
  assert (Manager.error_history l'
          = Manager.error_history l ++ [e :: tail]) as Hhist.
  { destruct (Qltb _ _).
    - apply bind_ok_inv in H. destruct H as ([] & s9 & _ & H).
      apply bind_ok_inv in H. destruct H as ([] & s10 & _ & H).
      inversion H; reflexivity.
    - inversion H; reflexivity. }
  split; [exact Hhist |]. split; [exact Hw |].
  cbv zeta. rewrite Hhist.
  change (top1_accuracy (e :: tail)) with (100 - e)%Q.
  destruct (Qltb (Manager.best_accuracy l) (100 - e)).
  - apply bind_ok_inv in H. destruct H as ([] & s9 & H9 & H).
    apply bind_ok_inv in H. destruct H as ([] & s10 & H10 & H).
    inversion H; subst; clear H. inversion H9; subst s9; clear H9.
    rewrite save_model_cases in H10. cbv zeta in H10.
    cbn [Manager.fs Manager.self Manager.torch Manager.args Manager.cuda
         Manager.trace Manager.optimizer writable] in H10.
    destruct (writable (Manager.fs s5) (String.append savename ".pt"));
      [| discriminate H10].
    inversion H10; subst; clear H10.
    cbn [Manager.self Manager.optimizer Manager.torch Manager.fs
         Manager.trace Manager.best_accuracy].
    repeat (split; [reflexivity |]).
    rewrite <- !app_assoc. reflexivity.
  - inversion H; subst; clear H.
    cbn [Manager.self Manager.optimizer Manager.torch Manager.fs
         Manager.trace Manager.best_accuracy].
    repeat split; reflexivity.
Qed.

(** An invariant of the epochs is an invariant of the loop. *)
Lemma train_loop_invariant savename
    (I : nat -> Manager.train_locals -> Manager.state P X -> Prop) :
  (forall i l s l' s',
      I i l s -> Manager.train_epoch savename l i s = (Ok l', s') ->
      I (S i) l' s') ->
  forall count i l s l' s',
    for_locals (seq i count) (Manager.train_epoch savename) l s = (Ok l', s') ->
    I i l s -> I (i + count) l' s'.
Proof.
  intros Hstep. induction count as [| count IH]; intros i l s l' s' Hrun Hi.
  - simpl in Hrun. inversion Hrun; subst. rewrite Nat.add_0_r. exact Hi.
  - cbn [seq for_locals] in Hrun. apply bind_ok_inv in Hrun.
    destruct Hrun as (l1 & s1 & Hfirst & Hrest).
    replace (i + S count) with (S i + count) by lia.
    eapply IH; [exact Hrest |]. eapply Hstep; eassumption.
Qed.

Lemma saved_of_trace (s s' : Manager.state P X) tr :
  Manager.trace s' = Manager.trace s ++ tr ->
  saved s' = saved s ++ checkpoints tr.
Proof.
  intros H. unfold saved. rewrite H. apply checkpoints_app.
Qed.

Lemma accuracy_at_most_100 (errors : list Q) :
  Forall percentage errors -> (top1_accuracy errors <= 100)%Q.
Proof.
  intros Hp. unfold top1_accuracy.
  assert (0 <= hd 0 errors)%Q as H0.
  { destruct Hp as [| e tail [He _] _]; [apply Qle_refl | exact He]. }
  apply Qle_minus_iff.
  setoid_replace (100 + - (100 - hd 0 errors))%Q with (hd 0%Q errors) by ring.
  exact H0.
Qed.

(** A completed epoch, from its first state to its last. *)
Lemma train_epoch_ok_summary savename l i (s : Manager.state P X) l' s' :
  Manager.train_epoch savename l i s = (Ok l', s') ->
  exists errors ck,
    Manager.error_history l' = Manager.error_history l ++ [errors]
    /\ Forall percentage errors
    /\ Manager.args (Manager.self s') = Manager.args (Manager.self s)
    /\ Manager.cuda (Manager.self s') = Manager.cuda (Manager.self s)
    /\ Manager.train_data_loader (Manager.self s')
       = Manager.train_data_loader (Manager.self s)
    /\ Manager.test_data_loader (Manager.self s')
       = Manager.test_data_loader (Manager.self s)
    /\ Manager.criterion (Manager.self s') = Manager.criterion (Manager.self s)
    /\ Manager.optimizer s' = Manager.optimizer s
    /\ training (Manager.model (Manager.self s')) = true
    /\ calls (Manager.torch s')
       = calls (Manager.torch s)
         ++ map (call_for (Z.of_nat (i + 1)) (decay_factor s)) (registered s)
    /\ (Ckpt.args ck = Manager.args (Manager.self s)
        /\ Ckpt.epoch ck = i + 1
        /\ Ckpt.accuracy ck = top1_accuracy errors
        /\ Ckpt.errors ck = errors
        /\ location (Ckpt.state_dict ck) = CPU)
    /\ let log := Json (Manager.error_history l')
                    (Manager.args (Manager.self s)) in
       if Qltb (Manager.best_accuracy l) (top1_accuracy errors)
       then Manager.best_accuracy l' = top1_accuracy errors
            /\ Manager.fs s'
               = fs_write (String.append savename ".pt") (Pickle ck)
                   (fs_write (String.append savename ".json") log
                      (Manager.fs s))
            /\ saved s' = saved s ++ [ck]
            /\ device (Manager.model (Manager.self s'))
               = (if Manager.cuda (Manager.self s) then GPU else CPU)
       else Manager.best_accuracy l' = Manager.best_accuracy l
            /\ Manager.fs s'
               = fs_write (String.append savename ".json") log (Manager.fs s)
            /\ saved s' = saved s
            /\ device (Manager.model (Manager.self s'))
               = device (Manager.model (Manager.self s)).
Proof.
  intros Hrun.
  destruct (train_epoch_ok_full _ _ _ _ Hrun)
    as (s4 & errors & s5 & H4 & H5 & Hhist & Hw & Hrest).
  cbv zeta in Hrest. destruct Hrest as (Hopt & Htorch & Hcase).
  destruct (epoch_started_facts i s)
    as (S1 & S2 & S3 & S4 & S5 & S6 & S7).
  rewrite do_epoch_as_loop in H4. apply do_epoch_loop in H4.
  cbv zeta in H4.
  destruct H4 as (D1 & D2 & D3 & D4 & D5 & _).
  destruct (eval_facts _ H5)
    as (E1 & E2 & E3 & E4 & E5 & E6 & E7 & E8 & E9 & E10 & Eok).
  destruct (Eok errors eq_refl) as (Etrain & _ & Epct).
  assert (Manager.args (Manager.self s5) = Manager.args (Manager.self s))
    as Hargs by (rewrite E1, D1, S1; reflexivity).
  assert (Manager.cuda (Manager.self s5) = Manager.cuda (Manager.self s))
    as Hcuda by (rewrite E2, D1, S1; reflexivity).
  assert (device (Manager.model (Manager.self s5))
          = device (Manager.model (Manager.self s)))
    as Hdev by (rewrite E6, D1, S1; reflexivity).
  assert (Manager.fs s5 = Manager.fs s) as Hfs by congruence.
  assert (saved s5 = saved s) as Hsaved.
  { pose proof (eval_keeps_saved s4) as K. rewrite H5 in K. cbn [snd] in K.
    rewrite K. unfold saved. rewrite D4, S7, checkpoints_app.
    apply app_nil_r. }
  exists errors,
    {| Ckpt.args := Manager.args (Manager.self s5);
       Ckpt.epoch := i + 1;
       Ckpt.accuracy := top1_accuracy errors;
       Ckpt.errors := errors;
       Ckpt.state_dict :=
         {| tensors := params (Manager.torch s5); location := CPU |} |}.
  split; [exact Hhist |]. split; [exact Epct |].
  assert (Manager.optimizer s' = Manager.optimizer s) as Hopt'
    by congruence.
  assert (calls (Manager.torch s')
          = calls (Manager.torch s)
            ++ map (call_for (Z.of_nat (i + 1)) (decay_factor s))
                 (registered s)) as Hcalls by congruence.
  cbn [Ckpt.args Ckpt.epoch Ckpt.accuracy Ckpt.errors Ckpt.state_dict
       location].
  destruct (Qltb (Manager.best_accuracy l) (top1_accuracy errors)).
  - destruct Hcase as (Hbest & _ & Hself & Hfs' & Htrace).
    rewrite Hself. cbn [Manager.set_model Manager.args Manager.cuda
      Manager.train_data_loader Manager.test_data_loader Manager.criterion
      Manager.model training device].
    split; [exact Hargs |]. split; [exact Hcuda |].
    split; [rewrite E3, D1, S1; reflexivity |].
    split; [rewrite E4, D1, S1; reflexivity |].
    split; [rewrite E5, D1, S1; reflexivity |].
    split; [exact Hopt' |]. split; [exact Etrain |].
    split; [exact Hcalls |].
    split; [repeat split; try reflexivity; exact Hargs |].
    cbv zeta. split; [exact Hbest |].
    split; [rewrite Hfs', Hfs, Hargs; reflexivity |].
    split; [| rewrite Hcuda; reflexivity].
    rewrite (@saved_of_trace s5 s' _ Htrace), Hsaved. reflexivity.
  - destruct Hcase as (Hbest & Hself & Hfs' & Htrace).
    rewrite Hself.
    split; [exact Hargs |]. split; [exact Hcuda |].
    split; [rewrite E3, D1, S1; reflexivity |].
    split; [rewrite E4, D1, S1; reflexivity |].
    split; [rewrite E5, D1, S1; reflexivity |].
    split; [exact Hopt' |]. split; [exact Etrain |].
    split; [exact Hcalls |].
    split; [repeat split; try reflexivity; exact Hargs |].
    cbv zeta. split; [exact Hbest |].
    split; [rewrite Hfs', Hfs, Hargs; reflexivity |].
    split; [| exact Hdev].
    rewrite (@saved_of_trace s5 s' _ Htrace), Hsaved. apply app_nil_r.
Qed.

Lemma last_nonempty_default {A} (xs : list A) (z d d' : A) :
  last (z :: xs) d = last (z :: xs) d'.
Proof.
  revert z; induction xs as [| y xs IH]; intros z; [reflexivity |].
  change (last (y :: xs) d = last (y :: xs) d'). apply IH.
Qed.

Lemma climbs_snoc (lo x : Q) (xs : list Q) :
  climbs lo xs -> (last xs lo < x)%Q -> climbs lo (xs ++ [x]).
Proof.
  revert lo; induction xs as [| y xs IH]; intros lo Hc Hlast.
  - simpl in *. split; [exact Hlast | exact I].
  - destruct Hc as [Hy Hc]. cbn [app climbs]. split; [exact Hy |].
    apply IH; [exact Hc |].
    destruct xs as [| z xs]; [exact Hlast |].
    rewrite (last_nonempty_default xs z y lo). exact Hlast.
Qed.

Lemma registered_same (s s0 : Manager.state P X) :
  Manager.optimizer s = Manager.optimizer s0 ->
  registered s = registered s0 /\ decay_factor s = decay_factor s0.
Proof.
  unfold registered, decay_factor. intros ->. split; reflexivity.
Qed.

(** [train], when it returns, is its loop followed by three prints. *)
Lemma train_ok_state epochs savename best_accuracy (s s' : Manager.state P X) :
  Manager.train epochs savename best_accuracy s = (Ok tt, s') ->
  exists l s1,
    Manager.train_loop
      (match savename with Some n => n | None => EmptyString end)
      epochs
      (start_locals (match best_accuracy with Some b => b | None => 0%Q end))
      (train_entered s) = (Ok l, s1)
    /\ Manager.self s' = Manager.self s1
    /\ Manager.optimizer s' = Manager.optimizer s1
    /\ Manager.torch s' = Manager.torch s1
    /\ Manager.fs s' = Manager.fs s1
    /\ Manager.trace s'
       = Manager.trace s1
         ++ [Printed MsgFinished;
             Printed (MsgSummary (100 - Manager.best_accuracy l)%Q
                                 (Manager.best_accuracy l));
             Printed MsgRule].
Proof.
  unfold Manager.train, train_entered. fold (start_locals
    (match best_accuracy with Some b => b | None => 0%Q end)).
  intros H.
  apply bind_ok_inv in H. destruct H as (a & s0 & H0 & H).
  inversion H0; subst; clear H0.
  apply bind_ok_inv in H. destruct H as ([] & s1 & H1 & H).
  apply bind_ok_inv in H. destruct H as (l & s2 & H2 & H).
  exists l, s2. split.
  - destruct (Args.cuda _); inversion H1; subst; exact H2.
  - destruct l as [best hist]. inversion H; subst.
    cbn. rewrite <- !app_assoc. repeat split; reflexivity.
Qed.

Lemma train_entered_facts (s : Manager.state P X) :
  let s0 := train_entered s in
  Manager.args (Manager.self s0) = Manager.args (Manager.self s)
  /\ Manager.cuda (Manager.self s0) = Manager.cuda (Manager.self s)
  /\ Manager.train_data_loader (Manager.self s0)
     = Manager.train_data_loader (Manager.self s)
  /\ Manager.test_data_loader (Manager.self s0)
     = Manager.test_data_loader (Manager.self s)
  /\ Manager.criterion (Manager.self s0) = Manager.criterion (Manager.self s)
  /\ training (Manager.model (Manager.self s0))
     = training (Manager.model (Manager.self s))
  /\ device (Manager.model (Manager.self s0))
     = (if Args.cuda (Manager.args (Manager.self s)) then GPU
        else device (Manager.model (Manager.self s)))
  /\ Manager.optimizer s0 = Manager.optimizer s
  /\ Manager.torch s0 = Manager.torch s
  /\ Manager.fs s0 = Manager.fs s
  /\ Manager.trace s0 = Manager.trace s.
Proof.
  cbv zeta. unfold train_entered.
  destruct (Args.cuda (Manager.args (Manager.self s)));
    repeat split; reflexivity.
Qed.

(** What a completed run of the loop of [train] leaves behind, except for
    the checkpoints. *)
Lemma train_loop_run_facts savename (n : nat) b0 (s : Manager.state P X) l s' :
  Manager.train_loop savename (Z.of_nat n) (start_locals b0) s = (Ok l, s') ->
  length (Manager.error_history l) = n
  /\ Forall (Forall percentage) (Manager.error_history l)
  /\ Manager.args (Manager.self s') = Manager.args (Manager.self s)
  /\ Manager.cuda (Manager.self s') = Manager.cuda (Manager.self s)
  /\ Manager.train_data_loader (Manager.self s')
     = Manager.train_data_loader (Manager.self s)
  /\ Manager.test_data_loader (Manager.self s')
     = Manager.test_data_loader (Manager.self s)
  /\ Manager.criterion (Manager.self s') = Manager.criterion (Manager.self s)
  /\ Manager.optimizer s' = Manager.optimizer s
  /\ writable (Manager.fs s') = writable (Manager.fs s)
  /\ calls (Manager.torch s')
     = calls (Manager.torch s)
       ++ flat_map (fun j => map (call_for (Z.of_nat (j + 1)) (decay_factor s))
                              (registered s)) (seq 0 n)
  /\ (0 < n -> training (Manager.model (Manager.self s')) = true)
  /\ (0 < n ->
      files (Manager.fs s') (String.append savename ".json")
      = Some (Json (Manager.error_history l) (Manager.args (Manager.self s))))
  /\ (forall p,
        String.eqb p (String.append savename ".json") = false ->
        String.eqb p (String.append savename ".pt") = false ->
        files (Manager.fs s') p = files (Manager.fs s) p).
Proof.
  unfold Manager.train_loop. rewrite range_of_nat. intros Hrun.
  pose (I := fun (i : nat) (l : Manager.train_locals)
                 (s1 : Manager.state P X) =>
    length (Manager.error_history l) = i
    /\ Forall (Forall percentage) (Manager.error_history l)
    /\ Manager.args (Manager.self s1) = Manager.args (Manager.self s)
    /\ Manager.cuda (Manager.self s1) = Manager.cuda (Manager.self s)
    /\ Manager.train_data_loader (Manager.self s1)
       = Manager.train_data_loader (Manager.self s)
    /\ Manager.test_data_loader (Manager.self s1)
       = Manager.test_data_loader (Manager.self s)
    /\ Manager.criterion (Manager.self s1)
       = Manager.criterion (Manager.self s)
    /\ Manager.optimizer s1 = Manager.optimizer s
    /\ writable (Manager.fs s1) = writable (Manager.fs s)
    /\ calls (Manager.torch s1)
       = calls (Manager.torch s)
         ++ flat_map (fun j => map (call_for (Z.of_nat (j + 1))
                                      (decay_factor s))
                                (registered s)) (seq 0 i)
    /\ (0 < i -> training (Manager.model (Manager.self s1)) = true)
    /\ (0 < i ->
        files (Manager.fs s1) (String.append savename ".json")
        = Some (Json (Manager.error_history l)
                  (Manager.args (Manager.self s))))
    /\ (forall p,
          String.eqb p (String.append savename ".json") = false ->
          String.eqb p (String.append savename ".pt") = false ->
          files (Manager.fs s1) p = files (Manager.fs s) p)).
  assert (I (0 + n) l s') as Hfinal.
  { eapply (@train_loop_invariant savename I); [| exact Hrun |].
    - clear. intros i l s1 l' s' Hi Hstep.
      destruct Hi as (I1 & I2 & I3 & I4 & I5 & I6 & I7 & I8 & I9 & I10
                      & _ & _ & I13).
      destruct (train_epoch_ok_summary _ _ _ _ Hstep)
        as (errors & ck & Hhist & Hpct & A1 & A2 & A3 & A4 & A5 & A6 & A7
            & A8 & _ & Hcase).
      cbv zeta in Hcase.
      destruct (registered_same _ _ I8) as [Hreg Hfac].
      assert (writable (Manager.fs s') = writable (Manager.fs s1)
              /\ files (Manager.fs s') (String.append savename ".json")
                 = Some (Json (Manager.error_history l')
                           (Manager.args (Manager.self s1)))
              /\ forall p,
                   String.eqb p (String.append savename ".json") = false ->
                   String.eqb p (String.append savename ".pt") = false ->
                   files (Manager.fs s') p = files (Manager.fs s1) p)
        as (W1 & W2 & W3).
      { destruct (Qltb _ _).
        - destruct Hcase as (_ & -> & _). cbn [fs_write files writable].
          rewrite suffix_json_pt, String.eqb_refl.
          split; [reflexivity |]. split; [reflexivity |].
          intros p Hj Hp. rewrite Hj, Hp. reflexivity.
        - destruct Hcase as (_ & -> & _). cbn [fs_write files writable].
          rewrite String.eqb_refl.
          split; [reflexivity |]. split; [reflexivity |].
          intros p Hj Hp. rewrite Hj. reflexivity. }
      split; [rewrite Hhist, length_app; simpl; lia |].
      split; [rewrite Hhist; apply Forall_app; split;
              [exact I2 | constructor; [exact Hpct | constructor]] |].
      split; [congruence |]. split; [congruence |]. split; [congruence |].
      split; [congruence |]. split; [congruence |]. split; [congruence |].
      split; [congruence |].
      split.
      { rewrite A8, I10, Hreg, Hfac, seq_S, flat_map_app, <- app_assoc.
        cbn [flat_map Nat.add]. rewrite app_nil_r. reflexivity. }
      split; [intros _; exact A7 |].
      split; [intros _; rewrite W2, I3; reflexivity |].
      intros p Hj Hp. rewrite (W3 p Hj Hp). apply I13; assumption.
    - subst I. cbn [start_locals Manager.error_history length seq flat_map].
      rewrite app_nil_r.
      repeat (split; [first [reflexivity | constructor] |]).
      split; [intros H; inversion H |].
      split; [intros H; inversion H | reflexivity]. }
  exact Hfinal.
Qed.

Lemma checkpoint_of_run_extend (a : Args.t) (i : nat) history errors
    (ck : Ckpt.t P) :
  length history = i ->
  checkpoint_of_run a i history ck ->
  checkpoint_of_run a (S i) (history ++ [errors]) ck.
Proof.
  intros Hlen (H1 & H2 & H3 & H4 & H5 & H6).
  split; [exact H1 |]. split; [lia |].
  split; [rewrite nth_error_app1 by lia; exact H3 |].
  split; [exact H4 |]. split; [exact H5 | exact H6].
Qed.

(** The checkpoints that a completed run of the loop of [train] wrote. *)
Lemma train_loop_checkpoint_facts savename (n : nat) b0
    (s : Manager.state P X) l s' :
  Manager.train_loop savename (Z.of_nat n) (start_locals b0) s = (Ok l, s') ->
  exists new,
    saved s' = saved s ++ new
    /\ climbs b0 (map (fun ck => Ckpt.accuracy ck) new)
    /\ Manager.best_accuracy l
       = last (map (fun ck => Ckpt.accuracy ck) new) b0
    /\ Forall (checkpoint_of_run (Manager.args (Manager.self s)) n
                 (Manager.error_history l)) new
    /\ files (Manager.fs s') (String.append savename ".pt")
       = match rev new with
         | [] => files (Manager.fs s) (String.append savename ".pt")
         | ck :: _ => Some (Pickle ck)
         end.
Proof.
  unfold Manager.train_loop. rewrite range_of_nat. intros Hrun.
  pose (I := fun (i : nat) (l : Manager.train_locals)
                 (s1 : Manager.state P X) =>
    length (Manager.error_history l) = i
    /\ Manager.args (Manager.self s1) = Manager.args (Manager.self s)
    /\ exists new,
         saved s1 = saved s ++ new
         /\ climbs b0 (map (fun ck => Ckpt.accuracy ck) new)
         /\ Manager.best_accuracy l
            = last (map (fun ck => Ckpt.accuracy ck) new) b0
         /\ Forall (checkpoint_of_run (Manager.args (Manager.self s)) i
                      (Manager.error_history l)) new
         /\ files (Manager.fs s1) (String.append savename ".pt")
            = match rev new with
              | [] => files (Manager.fs s) (String.append savename ".pt")
              | ck :: _ => Some (Pickle ck)
              end).
  assert (I (0 + n) l s') as (_ & _ & Hfinal).
  { eapply (@train_loop_invariant savename I); [| exact Hrun |].
    - clear. intros i l s1 l' s' Hi Hstep.
      destruct Hi as (I1 & I2 & new & N1 & N2 & N3 & N4 & N5).
      destruct (train_epoch_ok_summary _ _ _ _ Hstep)
        as (errors & ck & Hhist & Hpct & A1 & _ & _ & _ & _ & _ & _
            & _ & (C1 & C2 & C3 & C4 & C5) & Hcase).
      cbv zeta in Hcase.
      assert (Forall (checkpoint_of_run (Manager.args (Manager.self s))
                        (S i) (Manager.error_history l')) new) as N4'.
      { rewrite Hhist. eapply Forall_impl; [| exact N4].
        intros c. apply checkpoint_of_run_extend. exact I1. }
      split; [rewrite Hhist, length_app; simpl; lia |].
      split; [congruence |].
      destruct (Qltb (Manager.best_accuracy l) (top1_accuracy errors))
        eqn:Hlt.
      + destruct Hcase as (Hbest & Hfs & Hsaved & _).
        apply Qltb_lt in Hlt.
        exists (new ++ [ck]).
        split; [rewrite Hsaved, N1, app_assoc; reflexivity |].
        rewrite map_app. cbn [map].
        split; [apply climbs_snoc; [exact N2 | rewrite <- N3, C3; exact Hlt] |].
        split; [rewrite last_last, C3; exact Hbest |].
        split.
        { apply Forall_app. split; [exact N4' |].
          constructor; [| constructor].
          split; [rewrite C3; apply accuracy_at_most_100; exact Hpct |].
          split; [lia |].
          split; [rewrite C2, C4, Hhist, nth_error_app2 by lia;
                  replace (i + 1 - 1 - length (Manager.error_history l))
                    with 0 by lia; reflexivity |].
          split; [rewrite C3, C4; reflexivity |].
          split; [congruence | exact C5]. }
        rewrite rev_app_distr. cbn [rev app].
        rewrite Hfs. cbn [fs_write files]. rewrite String.eqb_refl.
        reflexivity.
      + destruct Hcase as (Hbest & Hfs & Hsaved & _).
        exists new.
        split; [rewrite Hsaved; exact N1 |].
        split; [exact N2 |]. split; [rewrite Hbest; exact N3 |].
        split; [exact N4' |].
        rewrite Hfs. cbn [fs_write files]. rewrite suffix_pt_json. exact N5.
    - subst I. cbn [start_locals Manager.error_history length].
      split; [reflexivity |]. split; [reflexivity |].
      exists []. cbn. rewrite app_nil_r.
      repeat split; constructor. }
  exact Hfinal.
Qed.

Lemma train_loop_nat savename epochs l (s : Manager.state P X) :
  Manager.train_loop savename epochs l s
  = Manager.train_loop savename (Z.of_nat (Z.to_nat epochs)) l s.
Proof.
  unfold Manager.train_loop. rewrite range_of_nat. reflexivity.
Qed.

(** X9: with a number of epochs that is zero or negative, [train] runs no
    epoch: it returns, moves the model to the GPU when the args ask for
    CUDA, prints the closing lines with the best accuracy it was given, and
    writes neither the log nor a checkpoint. *)
Theorem train_without_epochs epochs savename best_accuracy
    (s : Manager.state P X) :
  (epochs <= 0)%Z ->
  let b := match best_accuracy with Some b => b | None => 0%Q end in
  let r := Manager.train epochs savename best_accuracy s in
  fst r = Ok tt
  /\ Manager.fs (snd r) = Manager.fs s
  /\ Manager.torch (snd r) = Manager.torch s
  /\ Manager.optimizer (snd r) = Manager.optimizer s
  /\ Manager.self (snd r) = Manager.self (train_entered s)
  /\ device (Manager.model (Manager.self (snd r)))
     = (if Args.cuda (Manager.args (Manager.self s)) then GPU
        else device (Manager.model (Manager.self s)))
  /\ Manager.trace (snd r)
     = Manager.trace s
       ++ [Printed MsgFinished; Printed (MsgSummary (100 - b)%Q b);
           Printed MsgRule].
Proof.
  intros Hle. cbv zeta.
  assert (Manager.range epochs = []) as Hrange.
  { unfold Manager.range. destruct epochs; try reflexivity. lia. }
  unfold Manager.train, Manager.train_loop. rewrite Hrange.
  unfold bind, gets. cbn [for_locals ret fst snd].
  destruct (Args.cuda (Manager.args (Manager.self s))) eqn:Hcuda;
    cbn; unfold train_entered; rewrite Hcuda;
    rewrite <- ?app_assoc; repeat split; reflexivity.
Qed.

(** X10: after a [train] of at least one epoch that returned, the log file
    holds the whole error history: one record per epoch, every value a
    percentage, together with the args; and every checkpoint the run wrote
    carries the record that the log has for the checkpoint's epoch. *)
Theorem train_log_holds_every_record epochs savename best_accuracy
    (s s' : Manager.state P X) :
  Manager.train epochs savename best_accuracy s = (Ok tt, s') ->
  (0 < epochs)%Z ->
  let name := match savename with Some n => n | None => EmptyString end in
  exists history new,
    files (Manager.fs s') (String.append name ".json")
    = Some (Json history (Manager.args (Manager.self s)))
    /\ length history = Z.to_nat epochs
    /\ Forall (Forall percentage) history
    /\ saved s' = saved s ++ new
    /\ Forall (fun ck =>
                 nth_error history (Ckpt.epoch ck - 1) = Some (Ckpt.errors ck))
         new.
Proof.
  intros Hrun Hpos. cbv zeta.
  pose proof Hrun as Hstate. apply train_ok_state in Hstate.
  destruct Hstate as (l & s1 & Hloop & T1 & T2 & T3 & T4 & T5).
  rewrite train_loop_nat in Hloop.
  destruct (train_entered_facts s)
    as (G1 & _ & _ & _ & _ & _ & _ & _ & _ & G10 & G11).
  pose proof Hloop as Hfacts. apply train_loop_run_facts in Hfacts.
  destruct Hfacts
    as (R1 & R2 & _ & _ & _ & _ & _ & _ & _ & _ & _ & R12 & _).
  pose proof Hloop as Hcks. apply train_loop_checkpoint_facts in Hcks.
  destruct Hcks
    as (new & N1 & _ & _ & N4 & _).
  exists (Manager.error_history l), new.
  split; [rewrite T4, R12, G1 by lia; reflexivity |].
  split; [exact R1 |]. split; [exact R2 |].
  split.
  { rewrite (@saved_of_trace s1 s' _ T5), N1. unfold saved.
    rewrite G11. cbn [checkpoints]. apply app_nil_r. }
  eapply Forall_impl; [| exact N4].
  intros ck (_ & _ & Hnth & _). exact Hnth.
Qed.

(** X11: the checkpoints that a [train] which returned has written have
    strictly increasing accuracies, the first strictly above the best
    accuracy the run was given and none above 100; the closing line reports
    the accuracy of the last of them, or the given one when there is none.
    So a run that is given a best accuracy of 100 or more writes no
    checkpoint. *)
Theorem train_checkpoints_climb epochs savename best_accuracy
    (s s' : Manager.state P X) :
  Manager.train epochs savename best_accuracy s = (Ok tt, s') ->
  let b0 := match best_accuracy with Some b => b | None => 0%Q end in
  exists new tr,
    saved s' = saved s ++ new
    /\ climbs b0 (map (fun ck => Ckpt.accuracy ck) new)
    /\ Forall (fun ck => (Ckpt.accuracy ck <= 100)%Q) new
    /\ (let b := last (map (fun ck => Ckpt.accuracy ck) new) b0 in
        Manager.trace s'
        = tr ++ [Printed MsgFinished; Printed (MsgSummary (100 - b)%Q b);
                 Printed MsgRule])
    /\ ((100 <= b0)%Q -> new = []).
Proof.
  intros Hrun. cbv zeta.
  pose proof Hrun as Hstate. apply train_ok_state in Hstate.
  destruct Hstate as (l & s1 & Hloop & T1 & T2 & T3 & T4 & T5).
  rewrite train_loop_nat in Hloop.
  destruct (train_entered_facts s)
    as (_ & _ & _ & _ & _ & _ & _ & _ & _ & _ & G11).
  pose proof Hloop as Hcks. apply train_loop_checkpoint_facts in Hcks.
  destruct Hcks
    as (new & N1 & N2 & N3 & N4 & _).
  exists new, (Manager.trace s1).
  split.
  { rewrite (@saved_of_trace s1 s' _ T5), N1. unfold saved.
    rewrite G11. cbn [checkpoints]. apply app_nil_r. }
  split; [exact N2 |].
  assert (Forall (fun ck : Ckpt.t P => (Ckpt.accuracy ck <= 100)%Q) new)
    as Hbound.
  { eapply Forall_impl; [| exact N4]. intros ck (H100 & _). exact H100. }
  split; [exact Hbound |].
  split; [rewrite <- N3; exact T5 |].
  intros Hfull. destruct new as [| ck rest]; [reflexivity |].
  exfalso. cbn [map climbs] in N2. destruct N2 as [Hlt _].
  inversion Hbound as [| ? ? Hck _]; subst.
  apply (Qlt_not_le _ _ Hlt). eapply Qle_trans; eassumption.
Qed.

(** X12: after a [train] that returned, the checkpoint file holds the last
    checkpoint the run wrote, and is what it was before when the run wrote
    none.  Every checkpoint of the run names an epoch of the run, carries
    the args the run started with and a state dict in host memory, and its
    accuracy is 100 minus the first of its errors. *)
Theorem train_checkpoint_file_holds_last epochs savename best_accuracy
    (s s' : Manager.state P X) :
  Manager.train epochs savename best_accuracy s = (Ok tt, s') ->
  let name := match savename with Some n => n | None => EmptyString end in
  exists new,
    saved s' = saved s ++ new
    /\ files (Manager.fs s') (String.append name ".pt")
       = match rev new with
         | [] => files (Manager.fs s) (String.append name ".pt")
         | ck :: _ => Some (Pickle ck)
         end
    /\ Forall (fun ck =>
                 1 <= Ckpt.epoch ck <= Z.to_nat epochs
                 /\ Ckpt.args ck = Manager.args (Manager.self s)
                 /\ location (Ckpt.state_dict ck) = CPU
                 /\ Ckpt.accuracy ck = top1_accuracy (Ckpt.errors ck))
         new.
Proof.
  intros Hrun. cbv zeta.
  pose proof Hrun as Hstate. apply train_ok_state in Hstate.
  destruct Hstate as (l & s1 & Hloop & T1 & T2 & T3 & T4 & T5).
  rewrite train_loop_nat in Hloop.
  destruct (train_entered_facts s)
    as (G1 & _ & _ & _ & _ & _ & _ & _ & _ & G10 & G11).
  pose proof Hloop as Hcks. apply train_loop_checkpoint_facts in Hcks.
  destruct Hcks
    as (new & N1 & _ & _ & N4 & N5).
  exists new.
  split.
  { rewrite (@saved_of_trace s1 s' _ T5), N1. unfold saved.
    rewrite G11. cbn [checkpoints]. apply app_nil_r. }
  split; [rewrite T4, N5, G10; reflexivity |].
  eapply Forall_impl; [| exact N4].
  intros ck (_ & Hep & _ & Hacc & Hargs & Hloc).
  split; [exact Hep |]. split; [rewrite Hargs; exact G1 |].
  split; [exact Hloc | exact Hacc].
Qed.

Lemma schedule_calls_length {A B C} (g : A -> B -> C) (zs : list B)
    (xs : list A) :
  length (flat_map (fun j => map (g j) zs) xs) = length xs * length zs.
Proof.
  induction xs as [| x xs IH]; [reflexivity |].
  simpl. rewrite length_app, length_map, IH. reflexivity.
Qed.

(** X13: a [train] that returned has called [update_lr] once per epoch,
    with the epoch numbers 1, 2, ... in order: the schedule was invoked, for
    each epoch in turn, once for every registered optimizer with its own
    base rate and decay interval.  Nothing else in [train] invokes the
    schedule, and the [Optimizers] object is as it was. *)
Theorem train_updates_rates_once_per_epoch epochs savename best_accuracy
    (s s' : Manager.state P X) :
  Manager.train epochs savename best_accuracy s = (Ok tt, s') ->
  let made :=
    flat_map (fun j => map (call_for (Z.of_nat (j + 1)) (decay_factor s))
                           (registered s)) (seq 0 (Z.to_nat epochs)) in
  calls (Manager.torch s') = calls (Manager.torch s) ++ made
  /\ length made = Z.to_nat epochs * length (registered s)
  /\ Manager.optimizer s' = Manager.optimizer s.
Proof.
  intros Hrun. cbv zeta.
  pose proof Hrun as Hstate. apply train_ok_state in Hstate.
  destruct Hstate as (l & s1 & Hloop & T1 & T2 & T3 & T4 & T5).
  rewrite train_loop_nat in Hloop.
  destruct (train_entered_facts s)
    as (_ & _ & _ & _ & _ & _ & _ & G8 & G9 & _).
  pose proof Hloop as Hfacts. apply train_loop_run_facts in Hfacts.
  destruct Hfacts
    as (_ & _ & _ & _ & _ & _ & _ & R8 & _ & R10 & _).
  destruct (registered_same _ _ G8) as [Hreg Hfac].
  split; [rewrite T3, R10, G9, Hreg, Hfac; reflexivity |].
  split; [rewrite schedule_calls_length, length_seq; reflexivity
         | congruence].
Qed.

End TrainMore.

(** ** What holds whenever [train] hands back control *)

Lemma triple_bind {S A B} (pre : S -> Prop) (mid : A -> S -> Prop)
    (post : res B -> S -> Prop) (m : M S A) (k : A -> M S B) :
  triple pre m (fun r s => match r with
                           | Ok a => mid a s
                           | Raise e => post (Raise e) s
                           end) ->
  (forall a, triple (mid a) (k a) post) ->
  triple pre (bind m k) post.
Proof.
  intros Hm Hk s Hs. specialize (Hm s Hs). unfold bind.
  destruct (m s) as [[a | e] s1]; cbn [fst snd] in *.
  - apply Hk. exact Hm.
  - exact Hm.
Qed.

Lemma triple_weaken {S A} (pre pre' : S -> Prop)
    (post post' : res A -> S -> Prop) (m : M S A) :
  (forall s, pre' s -> pre s) ->
  (forall r s, post r s -> post' r s) ->
  triple pre m post -> triple pre' m post'.
Proof. intros Hpre Hpost Hm s Hs. apply Hpost, Hm, Hpre, Hs. Qed.

(** A stage that keeps [pre] passes it on when it returns and ends the
    whole computation in [post] when it raises. *)
Lemma triple_stage {S A B} (pre : S -> Prop) (post : res B -> S -> Prop)
    (m : M S A) :
  triple pre m (fun _ => pre) ->
  (forall e s, pre s -> post (Raise e) s) ->
  triple pre m (fun r s => match r with
                           | Ok _ => pre s
                           | Raise e => post (Raise e) s
                           end).
Proof.
  intros Hm Hraise s Hs. specialize (Hm s Hs).
  destruct (fst (m s)); [exact Hm | apply Hraise, Hm].
Qed.

Lemma kept_bind {S A B} (pre : S -> Prop) (m : M S A) (k : A -> M S B) :
  triple pre m (fun _ => pre) ->
  (forall a, triple pre (k a) (fun _ => pre)) ->
  triple pre (bind m k) (fun _ => pre).
Proof.
  intros Hm Hk.
  refine (@triple_bind S A B pre (fun _ => pre) (fun _ => pre) m k _ Hk).
  exact (@triple_stage S A B pre (fun _ => pre) m Hm (fun _ _ H => H)).
Qed.

Lemma kept_pure {S A} (pre : S -> Prop) (r : res A) :
  triple pre (of_res r) (fun _ => pre).
Proof. intros s Hs. exact Hs. Qed.

Lemma kept_gets {S A} (pre : S -> Prop) (g : S -> A) :
  triple pre (gets g) (fun _ => pre).
Proof. intros s Hs. exact Hs. Qed.

Lemma kept_for_ {S A} (pre : S -> Prop) (xs : list A) (body : A -> M S unit) :
  (forall x, triple pre (body x) (fun _ => pre)) ->
  triple pre (for_ xs body) (fun _ => pre).
Proof.
  intros Hb. induction xs as [| x xs IH]; cbn [for_].
  - intros s Hs. exact Hs.
  - apply kept_bind; [apply Hb | intros _; exact IH].
Qed.

Lemma kept_for_locals {S A L} (pre : S -> Prop) (xs : list A)
    (body : L -> A -> M S L) :
  (forall l x, triple pre (body l x) (fun _ => pre)) ->
  forall l, triple pre (for_locals xs body l) (fun _ => pre).
Proof.
  intros Hb. induction xs as [| x xs IH]; intros l; cbn [for_locals].
  - intros s Hs. exact Hs.
  - apply kept_bind; [apply Hb | intros l'; apply IH].
Qed.

Section Kept.
Context {P X : Type} {ext : Collaborators P X}.
Variable savename : string.
Variable pre : Manager.state P X -> Prop.

Hypothesis kept_params :
  forall p s, pre s -> pre (Manager.set_params_of p s).
Hypothesis kept_print :
  forall m s, pre s -> pre (snd (Manager.print m s)).
Hypothesis kept_mode :
  forall b s, pre s ->
    pre (Manager.set_self
           (Manager.set_model (fun m =>
              {| training := b; device := device m |})) s).
Hypothesis kept_optimizers :
  forall o s, Optimizers.self o = Manager.optimizer s -> pre s ->
    pre (Manager.optimizers_put o s).
Hypothesis kept_log :
  forall b s, pre s ->
    pre (snd (Manager.write_file (String.append savename ".json") b s)).
Hypothesis kept_save :
  forall epoch best errors s, pre s ->
    pre (snd (Manager.save_model epoch best errors savename s)).
Hypothesis kept_cuda :
  forall s, pre s -> pre (snd (Manager.model_cuda s)).

Lemma kept_on_params {A} (m : M P A) :
  triple pre (Manager.on_params m) (fun _ => pre).
Proof.
  intros s Hs. rewrite on_params_run. cbn [snd]. apply kept_params, Hs.
Qed.

Lemma kept_step :
  triple pre
    (zoom Manager.optimizers_view Manager.optimizers_put Optimizers.step)
    (fun _ => pre).
Proof.
  intros s Hs. unfold zoom. rewrite step_as_loop.
  destruct (for_ _ _ (Manager.optimizers_view s)) as [r o'] eqn:Hrun.
  cbn [snd]. apply kept_optimizers; [| exact Hs].
  apply step_loop in Hrun. destruct Hrun as (Hself & _). exact Hself.
Qed.

Lemma kept_update epoch_idx :
  triple pre
    (zoom Manager.optimizers_view Manager.optimizers_put
          (Optimizers.update_lr epoch_idx))
    (fun _ => pre).
Proof.
  intros s Hs. unfold zoom. rewrite update_lr_run. cbn [snd].
  apply kept_optimizers; [reflexivity | exact Hs].
Qed.

Lemma kept_do_epoch epoch_idx :
  triple pre (Manager.do_epoch epoch_idx) (fun _ => pre).
Proof.
  unfold Manager.do_epoch. apply kept_bind; [apply kept_gets |].
  intros loader. apply kept_for_. intros [batch label].
  unfold Manager.do_batch.
  repeat first
    [ apply kept_gets
    | apply kept_on_params
    | apply kept_step
    | apply kept_bind; [| intros ?] ].
Qed.

Lemma kept_eval : triple pre Manager.eval (fun _ => pre).
Proof.
  unfold Manager.eval.
  apply kept_bind; [intros s Hs; apply (kept_mode false), Hs |]. intros _.
  apply kept_bind; [intros s Hs; apply kept_print, Hs |]. intros _.
  apply kept_bind; [apply kept_gets |]. intros loader.
  apply kept_bind.
  { apply kept_for_locals. intros l [batch label]. unfold Manager.eval_batch.
    apply kept_bind; [apply kept_gets |]. intros c.
    apply kept_bind; [apply kept_gets |]. intros m.
    apply kept_bind; [apply kept_on_params |]. intros scores.
    apply kept_bind.
    - destruct (Manager.error_meter l); intros s Hs; exact Hs.
    - intros l1. destruct (Manager.error_meter l1); [| intros s Hs; exact Hs].
      apply kept_bind; [apply kept_pure |]. intros em s Hs. exact Hs. }
  intros l. apply kept_bind.
  { destruct (Manager.error_meter l); [apply kept_pure |].
    intros s Hs. exact Hs. }
  intros error. apply kept_bind.
  { destruct (Manager.topk l); intros s Hs;
      [apply kept_print, Hs | exact Hs]. }
  intros _. apply kept_bind; [intros s Hs; apply (kept_mode true), Hs |].
  intros _ s Hs. exact Hs.
Qed.

Lemma kept_train_epoch l i :
  triple pre (Manager.train_epoch savename l i) (fun _ => pre).
Proof.
  unfold Manager.train_epoch.
  apply kept_bind; [intros s Hs; apply kept_print, Hs |]. intros _.
  apply kept_bind; [apply kept_update |]. intros _.
  apply kept_bind; [intros s Hs; apply (kept_mode true), Hs |]. intros _.
  apply kept_bind; [apply kept_do_epoch |]. intros _.
  apply kept_bind; [apply kept_eval |]. intros errors.
  apply kept_bind; [destruct errors; intros s Hs; exact Hs |]. intros e0.
  apply kept_bind; [apply kept_gets |]. intros a.
  apply kept_bind; [intros s Hs; apply kept_log, Hs |]. intros _.
  destruct (Qltb _ _); [| intros s Hs; exact Hs].
  apply kept_bind; [intros s Hs; apply kept_print, Hs |]. intros _.
  apply kept_bind; [intros s Hs; apply kept_save, Hs |].
  intros _ s Hs. exact Hs.
Qed.

Lemma kept_train epochs best_accuracy :
  triple pre (Manager.train epochs (Some savename) best_accuracy)
    (fun _ => pre).
Proof.
  unfold Manager.train.
  apply kept_bind; [apply kept_gets |]. intros a.
  apply kept_bind.
  { destruct (Args.cuda a); intros s Hs; [apply kept_cuda, Hs | exact Hs]. }
  intros _. apply kept_bind.
  { unfold Manager.train_loop. apply kept_for_locals.
    intros l i. apply kept_train_epoch. }
  intros [best hist].
  apply kept_bind; [intros s Hs; apply kept_print, Hs |]. intros _.
  apply kept_bind; [intros s Hs; apply kept_print, Hs |]. intros _.
  intros s Hs. apply kept_print, Hs.
Qed.

End Kept.

Lemma stage_then {S A B} (pre : S -> Prop) (post : res B -> S -> Prop)
    (m : M S A) (k : A -> M S B) :
  triple pre m (fun _ => pre) ->
  (forall e s, pre s -> post (Raise e) s) ->
  (forall a, triple pre (k a) post) ->
  triple pre (bind m k) post.
Proof.
  intros Hm Hraise Hk.
  refine (@triple_bind S A B pre (fun _ => pre) post m k _ Hk).
  exact (@triple_stage S A B pre post m Hm Hraise).
Qed.

Section TrainOutcomes.
Context {P X : Type} {ext : Collaborators P X}.

Lemma train_default_name epochs best_accuracy (s : Manager.state P X) :
  Manager.train epochs None best_accuracy s
  = Manager.train epochs (Some EmptyString) best_accuracy s.
Proof. reflexivity. Qed.

(** X14: whatever [train] does and however it ends, it changes none of the
    manager's args, CUDA flag, loaders and criterion, it leaves the
    [Optimizers] object and the writability of the paths as they were, and
    it touches no file other than its log and its checkpoint. *)
Theorem train_touches_only_its_two_files epochs savename best_accuracy
    (s : Manager.state P X) :
  let name := match savename with Some n => n | None => EmptyString end in
  let s' := snd (Manager.train epochs savename best_accuracy s) in
  Manager.args (Manager.self s') = Manager.args (Manager.self s)
  /\ Manager.cuda (Manager.self s') = Manager.cuda (Manager.self s)
  /\ Manager.train_data_loader (Manager.self s')
     = Manager.train_data_loader (Manager.self s)
  /\ Manager.test_data_loader (Manager.self s')
     = Manager.test_data_loader (Manager.self s)
  /\ Manager.criterion (Manager.self s') = Manager.criterion (Manager.self s)
  /\ Manager.optimizer s' = Manager.optimizer s
  /\ writable (Manager.fs s') = writable (Manager.fs s)
  /\ forall p,
       p <> String.append name ".json" -> p <> String.append name ".pt" ->
       files (Manager.fs s') p = files (Manager.fs s) p.
Proof.
  cbv zeta.
  assert (Manager.train epochs savename best_accuracy s
          = Manager.train epochs
              (Some (match savename with Some n => n | None => EmptyString end))
              best_accuracy s) as ->.
  { destruct savename; reflexivity. }
  set (name := match savename with Some n => n | None => EmptyString end).
  pose (frame := fun s1 : Manager.state P X =>
    (Manager.args (Manager.self s1), Manager.cuda (Manager.self s1),
     Manager.train_data_loader (Manager.self s1),
     Manager.test_data_loader (Manager.self s1),
     Manager.criterion (Manager.self s1), Manager.optimizer s1,
     writable (Manager.fs s1))).
  assert (frame (snd (Manager.train epochs (Some name) best_accuracy s))
          = frame s) as Hframe.
  { apply (@kept_train P X ext name (fun s1 => frame s1 = frame s));
      try reflexivity; try (intros; assumption).
    - intros o s1 Ho H. rewrite <- H. unfold frame. cbn. rewrite Ho.
      reflexivity.
    - intros b s1 H. rewrite <- H. unfold Manager.write_file.
      destruct (writable (Manager.fs s1) _); reflexivity.
    - intros e b errs s1 H. rewrite <- H. rewrite save_model_cases.
      cbv zeta. destruct (writable (Manager.fs s1) _); reflexivity. }
  unfold frame in Hframe. injection Hframe as H1 H2 H3 H4 H5 H6 H7.
  do 7 (split; [assumption |]).
  intros p Hj Hp.
  apply String.eqb_neq in Hj, Hp.
  apply (@kept_train P X ext name
           (fun s1 => files (Manager.fs s1) p = files (Manager.fs s) p));
    try reflexivity; try (intros; assumption).
  - intros b s1 H. rewrite <- H. unfold Manager.write_file.
    destruct (writable (Manager.fs s1) _); [| reflexivity].
    cbn. rewrite Hj. reflexivity.
  - intros e b errs s1 H. rewrite <- H. rewrite save_model_cases.
    cbv zeta. destruct (writable (Manager.fs s1) _); [| reflexivity].
    cbn. rewrite Hp. reflexivity.
Qed.

(** X16: with CUDA enabled, in the args and in the manager's flag, the
    model is on the GPU whenever [train] hands back control: when it
    returns, and when it raises, also from a failed checkpoint write. *)
Theorem train_keeps_model_on_gpu epochs savename best_accuracy
    (s : Manager.state P X) :
  Args.cuda (Manager.args (Manager.self s)) = true ->
  Manager.cuda (Manager.self s) = true ->
  device (Manager.model (Manager.self
            (snd (Manager.train epochs savename best_accuracy s)))) = GPU.
Proof.
  intros Hargs Hflag.
  assert (Manager.train epochs savename best_accuracy s
          = Manager.train epochs
              (Some (match savename with Some n => n | None => EmptyString end))
              best_accuracy (snd (Manager.model_cuda s))) as ->.
  { destruct savename; unfold Manager.train, bind, gets;
      cbn [fst snd Manager.model_cuda modify Manager.set_self
           Manager.set_model Manager.self Manager.args];
      rewrite Hargs; reflexivity. }
  apply (@kept_train P X ext
           (match savename with Some n => n | None => EmptyString end)
           (fun s1 => Manager.cuda (Manager.self s1) = true
                      /\ device (Manager.model (Manager.self s1)) = GPU));
    try (intros; assumption).
  - intros b s1 H. unfold Manager.write_file.
    destruct (writable (Manager.fs s1) _); exact H.
  - intros e b errs s1 [Hc Hd]. rewrite save_model_cases. cbv zeta.
    destruct (writable (Manager.fs s1) _); cbn; rewrite Hc; auto.
  - intros s1 [Hc Hd]. split; [exact Hc | reflexivity].
  - split; [exact Hflag | reflexivity].
Qed.

(** An epoch whose log cannot be written. *)
Lemma train_epoch_without_log savename l i (s0 : Manager.state P X) :
  writable (Manager.fs s0) (String.append savename ".json") = false ->
  triple (fun s => Manager.fs s = Manager.fs s0 /\ saved s = saved s0)
    (Manager.train_epoch savename l i)
    (fun r s => (exists e, r = Raise e)
                /\ Manager.fs s = Manager.fs s0 /\ saved s = saved s0).
Proof.
  intros Hw. unfold Manager.train_epoch.
  assert (forall (B : Type) (e : exn) (s : Manager.state P X),
             Manager.fs s = Manager.fs s0 /\ saved s = saved s0 ->
             (exists e', @Raise B e = Raise e')
             /\ Manager.fs s = Manager.fs s0 /\ saved s = saved s0)
    as Hraise.
  { intros B e s H. split; [exists e; reflexivity | exact H]. }
  assert (forall m (s : Manager.state P X),
             Manager.fs s = Manager.fs s0 /\ saved s = saved s0 ->
             Manager.fs (snd (Manager.print m s)) = Manager.fs s0
             /\ saved (snd (Manager.print m s)) = saved s0) as Hprint.
  { intros m s [Hf Hs]. split; [exact Hf |].
    rewrite <- Hs. apply print_keeps_saved. }
  apply stage_then; [intros s H; apply Hprint, H | apply Hraise |].
  intros _.
  apply stage_then; [apply kept_update; intros; assumption | apply Hraise |].
  intros _.
  apply stage_then; [intros s H; exact H | apply Hraise |]. intros _.
  apply stage_then;
    [apply kept_do_epoch; intros; assumption | apply Hraise |].
  intros _.
  apply stage_then;
    [apply kept_eval; try (intros; assumption); exact Hprint
    | apply Hraise |].
  intros errors.
  apply stage_then; [destruct errors; intros s H; exact H | apply Hraise |].
  intros e0.
  apply stage_then; [apply kept_gets | apply Hraise |]. intros a.
  refine (@triple_bind _ _ _ _ (fun _ _ => False) _ _ _ _ _).
  - intros s [Hf Hs]. unfold Manager.write_file. rewrite Hf, Hw.
    cbn [fst snd]. split; [exists IOError; reflexivity |].
    split; assumption.
  - intros _ s [].
Qed.

(** X15: when the log file cannot be opened for writing, [train] with at
    least one epoch raises: at the latest it fails at the log of its first
    epoch, before any checkpoint; no file is changed and no checkpoint is
    written. *)
Theorem train_fails_without_log epochs savename best_accuracy
    (s : Manager.state P X) :
  let name := match savename with Some n => n | None => EmptyString end in
  writable (Manager.fs s) (String.append name ".json") = false ->
  (0 < epochs)%Z ->
  let r := Manager.train epochs savename best_accuracy s in
  (exists e, fst r = Raise e)
  /\ Manager.fs (snd r) = Manager.fs s
  /\ saved (snd r) = saved s.
Proof.
  cbv zeta. intros Hw Hpos.
  assert (Manager.train epochs savename best_accuracy s
          = Manager.train epochs
              (Some (match savename with Some n => n | None => EmptyString end))
              best_accuracy s) as ->.
  { destruct savename; reflexivity. }
  set (name := match savename with Some n => n | None => EmptyString end) in *.
  assert (triple
            (fun s1 => Manager.fs s1 = Manager.fs s /\ saved s1 = saved s)
            (Manager.train epochs (Some name) best_accuracy)
            (fun r s1 => (exists e, r = Raise e)
                         /\ Manager.fs s1 = Manager.fs s
                         /\ saved s1 = saved s)) as Htriple.
  { unfold Manager.train.
    assert (forall (B : Type) (e : exn) (s1 : Manager.state P X),
               Manager.fs s1 = Manager.fs s /\ saved s1 = saved s ->
               (exists e', @Raise B e = Raise e')
               /\ Manager.fs s1 = Manager.fs s /\ saved s1 = saved s)
      as Hraise.
    { intros B e s1 H. split; [exists e; reflexivity | exact H]. }
    apply stage_then; [apply kept_gets | apply Hraise |]. intros a.
    apply stage_then;
      [destruct (Args.cuda a); intros s1 H; exact H | apply Hraise |].
    intros _.
    refine (@triple_bind _ _ _ _ (fun _ _ => False) _ _ _ _ _);
      [| intros l1 s1 []].
    unfold Manager.train_loop, Manager.range.
    destruct (Z.to_nat epochs) as [| n] eqn:Hn; [lia |].
    cbn [seq for_locals].
    refine (@triple_bind _ _ _ _ (fun _ _ => False) _ _ _ _ _);
      [| intros l1 s1 []].
    eapply triple_weaken;
      [| | apply (@train_epoch_without_log name _ 0 s Hw)].
    - intros s1 H. exact H.
    - intros r s1 [[e ->] H]. split; [exists e; reflexivity | exact H]. }
  specialize (Htriple s (conj eq_refl eq_refl)). exact Htriple.
Qed.

End TrainOutcomes.

(** For X15: the toy manager on a file system that refuses every write. *)
Lemma train_fails_without_log_witness :
  writable (Manager.fs Scenario.read_only_state) "best.json" = false
  /\ (0 < 1)%Z
  /\ (exists e,
        fst (Manager.train 1 (Some "best"%string) None
               Scenario.read_only_state) = Raise e)
  /\ saved (snd (Manager.train 1 (Some "best"%string) None
                   Scenario.read_only_state))
     = saved Scenario.read_only_state.
Proof.
  split; [reflexivity |]. split; [lia |].
  destruct (@train_fails_without_log nat (list nat) Scenario.toy 1
              (Some "best"%string) None Scenario.read_only_state
              eq_refl ltac:(lia)) as (He & _ & Hs).
  split; [exact He | exact Hs].
Defined.

(** For X16: the toy manager has CUDA enabled in both places. *)
Lemma train_keeps_model_on_gpu_witness :
  Args.cuda (Manager.args (Manager.self Scenario.toy_state)) = true
  /\ Manager.cuda (Manager.self Scenario.toy_state) = true
  /\ device (Manager.model (Manager.self
       (snd (Manager.train 4 None None Scenario.toy_state)))) = GPU.
Proof.
  split; [reflexivity |]. split; [reflexivity |].
  exact (@train_keeps_model_on_gpu nat (list nat) Scenario.toy 4 None None
           Scenario.toy_state eq_refl eq_refl).
Defined.

(** ** Runs of the toy network *)

(** For X3: three registered optimizers, none of which fails. *)
Lemma step_steps_each_registration_once_witness :
  (forall o st p, exists p',
      @optimizer_step nat (list nat) Scenario.toy o st p = (Ok tt, p'))
  /\ fst (@Optimizers.step nat (list nat) Scenario.toy
            (snd (register Scenario.three_regs
                    (fresh_optimizers Scenario.toy_args Scenario.blank_torch))))
     = Ok tt
  /\ steps_taken
       (heap (Optimizers.torch
          (snd (@Optimizers.step nat (list nat) Scenario.toy
                  (snd (register Scenario.three_regs
                          (fresh_optimizers Scenario.toy_args
                             Scenario.blank_torch)))))) 1)
     = 1.
Proof.
  assert (forall o st p, exists p',
             @optimizer_step nat (list nat) Scenario.toy o st p = (Ok tt, p'))
    as Hall.
  { intros o st p. eexists. reflexivity. }
  destruct (@step_steps_each_registration_once nat (list nat) Scenario.toy
              (snd (register Scenario.three_regs
                      (fresh_optimizers Scenario.toy_args
                         Scenario.blank_torch)))) as [Hcount Hruns].
  split; [exact Hall |]. split; [exact (Hruns Hall) |].
  rewrite (Hcount (Hruns Hall) 1). reflexivity.
Defined.

(** For X5: one training batch and one optimizer, registered once. *)
Lemma do_epoch_steps_once_per_batch_witness :
  fst (Manager.do_epoch 1 Scenario.toy_state) = Ok tt
  /\ steps_taken
       (heap (Manager.torch (snd (Manager.do_epoch 1 Scenario.toy_state))) 0)
     = 1.
Proof.
  assert (fst (Manager.do_epoch 1 Scenario.toy_state) = Ok tt) as Hok
    by reflexivity.
  split; [exact Hok |].
  destruct (@do_epoch_steps_once_per_batch nat (list nat) Scenario.toy 1
              Scenario.toy_state) as (Hcount & _).
  rewrite (Hcount Hok 0). reflexivity.
Defined.

(** For X9: no epoch at all. *)
Lemma train_without_epochs_witness :
  (0 <= 0)%Z
  /\ fst (Manager.train 0 None None Scenario.toy_state) = Ok tt
  /\ Manager.fs (snd (Manager.train 0 None None Scenario.toy_state))
     = Manager.fs Scenario.toy_state.
Proof.
  split; [lia |].
  destruct (@train_without_epochs nat (list nat) Scenario.toy 0 None None
              Scenario.toy_state ltac:(lia)) as (Hok & Hfs & _).
  split; [exact Hok | exact Hfs].
Defined.

Lemma toy_run_returns :
  exists s', Manager.train 4 None None Scenario.toy_state = (Ok tt, s').
Proof.
  destruct (Manager.train 4 None None Scenario.toy_state) as [r s'] eqn:Hrun.
  assert (r = Ok tt) as ->.
  { apply (f_equal fst) in Hrun. cbn [fst] in Hrun. subst r.
    vm_compute. reflexivity. }
  exists s'. reflexivity.
Defined.

(** For X10: the four-epoch run of the toy network. *)
Lemma train_log_holds_every_record_witness :
  exists s' history,
    Manager.train 4 None None Scenario.toy_state = (Ok tt, s')
    /\ (0 < 4)%Z
    /\ files (Manager.fs s') ".json"
       = Some (Json history Scenario.toy_args)
    /\ length history = 4.
Proof.
  destruct toy_run_returns as (s' & Hrun).
  destruct (@train_log_holds_every_record nat (list nat) Scenario.toy 4 None
              None Scenario.toy_state s' Hrun ltac:(lia))
    as (history & new & Hfile & Hlen & _).
  exists s', history. split; [exact Hrun |]. split; [lia |].
  split; [exact Hfile | exact Hlen].
Defined.

(** For X11: the same run. *)
Lemma train_checkpoints_climb_witness :
  exists s' new,
    Manager.train 4 None None Scenario.toy_state = (Ok tt, s')
    /\ saved s' = saved Scenario.toy_state ++ new
    /\ climbs 0 (map (fun ck => Ckpt.accuracy ck) new).
Proof.
  destruct toy_run_returns as (s' & Hrun).
  destruct (@train_checkpoints_climb nat (list nat) Scenario.toy 4 None None
              Scenario.toy_state s' Hrun)
    as (new & tr & Hsaved & Hclimb & _).
  exists s', new. split; [exact Hrun |]. split; [exact Hsaved | exact Hclimb].
Defined.

(** For X12: the same run. *)
Lemma train_checkpoint_file_holds_last_witness :
  exists s' new,
    Manager.train 4 None None Scenario.toy_state = (Ok tt, s')
    /\ saved s' = saved Scenario.toy_state ++ new
    /\ files (Manager.fs s') ".pt"
       = match rev new with
         | [] => files (Manager.fs Scenario.toy_state) ".pt"
         | ck :: _ => Some (Pickle ck)
         end.
Proof.
  destruct toy_run_returns as (s' & Hrun).
  destruct (@train_checkpoint_file_holds_last nat (list nat) Scenario.toy 4
              None None Scenario.toy_state s' Hrun)
    as (new & Hsaved & Hfile & _).
  exists s', new. split; [exact Hrun |]. split; [exact Hsaved | exact Hfile].
Defined.

(** For X13: the same run makes four schedule calls, one per epoch. *)
Lemma train_updates_rates_once_per_epoch_witness :
  exists s',
    Manager.train 4 None None Scenario.toy_state = (Ok tt, s')
    /\ map (fun c => call_epoch c) (calls (Manager.torch s'))
       = [1; 2; 3; 4]%Z.
Proof.
  destruct toy_run_returns as (s' & Hrun).
  destruct (@train_updates_rates_once_per_epoch nat (list nat) Scenario.toy 4
              None None Scenario.toy_state s' Hrun) as (Hcalls & _).
  exists s'. split; [exact Hrun |]. rewrite Hcalls. reflexivity.
Defined.

(** ** Where [Manager.train] leaves the model *)

Section TrainDevice.
Context {P X : Type} {ext : Collaborators P X}.

(** The loop of [train] moves the model only when it writes a checkpoint,
    and then to the device of the manager's flag. *)
Lemma train_loop_device savename (n : nat) l0 (s : Manager.state P X) l s' :
  Manager.train_loop savename (Z.of_nat n) l0 s = (Ok l, s') ->
  Manager.cuda (Manager.self s') = Manager.cuda (Manager.self s)
  /\ exists new,
       saved s' = saved s ++ new
       /\ device (Manager.model (Manager.self s'))
          = match new with
            | [] => device (Manager.model (Manager.self s))
            | _ :: _ => if Manager.cuda (Manager.self s) then GPU else CPU
            end.
Proof.
  unfold Manager.train_loop. rewrite range_of_nat. intros Hrun.
  pose (I := fun (i : nat) (l1 : Manager.train_locals)
                 (s1 : Manager.state P X) =>
    Manager.cuda (Manager.self s1) = Manager.cuda (Manager.self s)
    /\ exists new,
         saved s1 = saved s ++ new
         /\ device (Manager.model (Manager.self s1))
            = match new with
              | [] => device (Manager.model (Manager.self s))
              | _ :: _ => if Manager.cuda (Manager.self s) then GPU else CPU
              end).
  assert (I (0 + n) l s') as Hfinal.
  { eapply (@train_loop_invariant P X ext savename I); [| exact Hrun |].
    - clear. intros i l s1 l' s' (Hflag & new & Hsaved & Hdev) Hstep.
      destruct (train_epoch_ok_summary _ _ _ _ Hstep)
        as (errors & ck & _ & _ & _ & A2 & _ & _ & _ & _ & _ & _ & _
            & Hcase).
      cbv zeta in Hcase.
      split; [rewrite A2; exact Hflag |].
      destruct (Qltb _ _).
      + destruct Hcase as (_ & _ & Hs & Hd).
        exists (new ++ [ck]).
        split; [rewrite Hs, Hsaved, app_assoc; reflexivity |].
        rewrite Hd, Hflag. destruct new; reflexivity.
      + destruct Hcase as (_ & _ & Hs & Hd).
        exists new. split; [rewrite Hs; exact Hsaved |].
        rewrite Hd. exact Hdev.
    - subst I. cbv beta. split; [reflexivity |].
      exists []. split; [symmetry; apply app_nil_r | reflexivity]. }
  exact Hfinal.
Qed.

(** X17: where a [train] that returned leaves the model.  [train] moves the
    model to the GPU on entry when the args ask for CUDA, but a checkpoint
    moves it to host memory and back only when the manager's own flag is
    set.  So after a run that wrote no checkpoint the model is where the
    args put it, and after a run that wrote one it is where the flag puts
    it: on the GPU with the flag, in host memory without, whatever the
    args say. *)
Theorem train_leaves_model_where_flag_says epochs savename best_accuracy
    (s s' : Manager.state P X) :
  Manager.train epochs savename best_accuracy s = (Ok tt, s') ->
  exists new,
    saved s' = saved s ++ new
    /\ device (Manager.model (Manager.self s'))
       = match new with
         | [] => if Args.cuda (Manager.args (Manager.self s)) then GPU
                 else device (Manager.model (Manager.self s))
         | _ :: _ => if Manager.cuda (Manager.self s) then GPU else CPU
         end.
Proof.
  intros Hrun.
  pose proof Hrun as Hstate. apply train_ok_state in Hstate.
  destruct Hstate as (l & s1 & Hloop & T1 & _ & _ & _ & T5).
  rewrite train_loop_nat in Hloop.
  destruct (train_entered_facts s)
    as (_ & G2 & _ & _ & _ & _ & G7 & _ & _ & _ & G11).
  apply train_loop_device in Hloop.
  destruct Hloop as (_ & new & Hsaved & Hdev).
  exists new. split.
  - rewrite (@saved_of_trace P X s1 s' _ T5), Hsaved. unfold saved.
    rewrite G11. cbn [checkpoints]. apply app_nil_r.
  - rewrite T1, Hdev, G2, G7. reflexivity.
Qed.

End TrainDevice.

(** For X17: the args ask for CUDA and the flag is off; the four-epoch run
    writes checkpoints and hands the model back in host memory. *)
Lemma train_leaves_model_where_flag_says_witness :
  exists s',
    Manager.train 4 None None flag_off_state = (Ok tt, s')
    /\ Args.cuda (Manager.args (Manager.self flag_off_state)) = true
    /\ device (Manager.model (Manager.self s')) = CPU.
Proof.
  destruct (Manager.train 4 None None flag_off_state) as [r s'] eqn:Hrun.
  assert (r = Ok tt) as ->.
  { apply (f_equal fst) in Hrun. cbn [fst] in Hrun. subst r.
    vm_compute. reflexivity. }
  exists s'. split; [reflexivity |]. split; [reflexivity |].
  destruct (@train_leaves_model_where_flag_says nat (list nat) Scenario.toy 4
              None None flag_off_state s' Hrun) as (new & Hsaved & Hdev).
  destruct new as [| ck new].
  - apply (f_equal snd) in Hrun. cbn [snd] in Hrun. subst s'.
    apply (f_equal (@length _)) in Hsaved. vm_compute in Hsaved.
    discriminate Hsaved.
  - exact Hdev.
Defined.
